(** * The Graal code installer (graalCodeInstaller.cpp)

    A shallow embedding of the HotSpot side of the Graal compiler
    interface: the reference-map decoder ([create_oop_map]), the value
    translator ([get_hotspot_value], [get_monitor_value]), the scope
    recorder ([record_scope]) and the site dispatcher ([site_Call],
    [site_Safepoint], [site_DataPatch], [site_Mark],
    [initialize_buffer]).

    C++ objects that are shared by pointer (scope values, the seen-objects
    array) live in an explicit store; Java objects that can form cycles
    (virtual objects) live in an explicit heap and are named by address.
    Every function is a state-and-error computation: [Fatal] is a VM error
    report (assert, guarantee, fatal, ShouldNotReachHere), [Undefined] is a
    read the C++ gives no meaning to, [OutOfFuel] is the recursion bound of
    the embedding. *)

From Stdlib Require Import ZArith Lia Bool String Ascii.
From stdpp Require Import base list.

Open Scope Z_scope.

(** ** Outcomes and the installer monad *)

Inductive outcome (A : Type) : Type :=
| Ok (a : A)
| Fatal (msg : string)
| Undefined (why : string)
| OutOfFuel.

Arguments Ok {A} a.
Arguments Fatal {A} msg.
Arguments Undefined {A} why.
Arguments OutOfFuel {A}.

Definition M (S A : Type) : Type := S -> outcome (A * S).

Definition ret {S A} (a : A) : M S A := fun s => Ok (a, s).

Definition bind {S A B} (m : M S A) (k : A -> M S B) : M S B :=
  fun s =>
    match m s with
    | Ok (a, s') => k a s'
    | Fatal msg => Fatal msg
    | Undefined why => Undefined why
    | OutOfFuel => OutOfFuel
    end.

Notation "'let*' x ':=' m 'in' k" := (bind m (fun x => k))
  (at level 10, x pattern, m at level 100, k at level 200).
Notation "m ;; k" := (bind m (fun _ => k))
  (at level 100, right associativity).

Definition fatal {S A} (msg : string) : M S A := fun _ => Fatal msg.
Definition undefined {S A} (why : string) : M S A := fun _ => Undefined why.
Definition out_of_fuel {S A} : M S A := fun _ => OutOfFuel.
Definition get {S} : M S S := fun s => Ok (s, s).
Definition gets {S A} (f : S -> A) : M S A := fun s => Ok (f s, s).
Definition modify {S} (f : S -> S) : M S unit := fun s => Ok (tt, f s).

(** [guarantee] is always executed (debug.hpp). *)
Definition guarantee {S} (p : bool) (msg : string) : M S unit :=
  if p then ret tt else fatal msg.

(** [ShouldNotReachHere()] reports and stops (debug.hpp). *)
Definition ShouldNotReachHere {S A} : M S A := fatal "ShouldNotReachHere".

(** A C++ [for] loop over the elements of an array, with a loop-carried
    local value. *)
Fixpoint foldM {S A B} (body : B -> A -> M S B) (l : list A) (b : B) : M S B :=
  match l with
  | [] => ret b
  | x :: l' => let* b' := body b x in foldM body l' b'
  end.

Fixpoint for_each {S A} (l : list A) (body : A -> M S unit) : M S unit :=
  match l with
  | [] => ret tt
  | x :: l' => body x ;; for_each l' body
  end.

(** ** Machine integers *)

(** The value of a C++ conversion to [jint] (32 bits, two's complement). *)
Definition to_jint (z : Z) : Z := (z + 2 ^ 31) mod 2 ^ 32 - 2 ^ 31.

Definition jint_add (a b : Z) : Z := to_jint (a + b).
Definition jint_sub (a b : Z) : Z := to_jint (a - b).

Definition max_jint : Z := 2 ^ 31 - 1.
Definition BytesPerLong : Z := 8.

(** ** HotSpot types the installer produces *)

Inductive BasicType : Set :=
| T_BOOLEAN | T_CHAR | T_FLOAT | T_DOUBLE | T_BYTE | T_SHORT | T_INT
| T_LONG | T_OBJECT | T_ARRAY | T_VOID | T_ADDRESS | T_NARROWOOP
| T_CONFLICT | T_ILLEGAL.

Global Instance BasicType_eq_dec : EqDecision BasicType.
Proof. solve_decision. Defined.

(** x86-64 registers by hardware encoding. *)
Inductive Register : Set := as_Register (encoding : Z).
Inductive XMMRegister : Set := as_XMMRegister (encoding : Z).

Definition rax := as_Register 0.
Definition rcx := as_Register 1.
Definition rdx := as_Register 2.
Definition rbx := as_Register 3.
Definition rsp := as_Register 4.
Definition rbp := as_Register 5.
Definition rsi := as_Register 6.
Definition rdi := as_Register 7.
Definition r8 := as_Register 8.
Definition r9 := as_Register 9.
Definition r10 := as_Register 10.
Definition r11 := as_Register 11.
Definition r12 := as_Register 12.
Definition r13 := as_Register 13.
Definition r14 := as_Register 14.
Definition r15 := as_Register 15.

Inductive VMReg : Set :=
| Register_as_VMReg (r : Register)
| XMMRegister_as_VMReg (r : XMMRegister)
| stack2reg (slot : Z).

Global Instance Register_eq_dec : EqDecision Register.
Proof. solve_decision. Defined.
Global Instance XMMRegister_eq_dec : EqDecision XMMRegister.
Proof. solve_decision. Defined.
Global Instance VMReg_eq_dec : EqDecision VMReg.
Proof. solve_decision. Defined.

Inductive OopTypes : Set := oop_value | value_value.

(** An [OopMap] as the sequence of [set_oop] / [set_value] calls made on
    it, oldest first, with the two constructor arguments. *)
Record OopMap : Set := {
  om_frame_size : Z;
  om_arg_count : Z;
  om_entries : list (VMReg * OopTypes)
}.

Definition new_OopMap (frame_size arg_count : Z) : OopMap :=
  {| om_frame_size := frame_size; om_arg_count := arg_count; om_entries := [] |}.

Definition set_oop (map : OopMap) (reg : VMReg) : OopMap :=
  {| om_frame_size := om_frame_size map; om_arg_count := om_arg_count map;
     om_entries := om_entries map ++ [(reg, oop_value)] |}.

Definition set_value (map : OopMap) (reg : VMReg) : OopMap :=
  {| om_frame_size := om_frame_size map; om_arg_count := om_arg_count map;
     om_entries := om_entries map ++ [(reg, value_value)] |}.

Module Location.

Inductive Type_ : Set :=
| invalid | normal | oop | int_in_long | lng | float_in_dbl | dbl | addr.

Inductive t : Set :=
| new_stk_loc (type : Type_) (offset : Z)
| new_reg_loc (type : Type_) (reg : VMReg).

End Location.

(** A pointer to a scope value: an index into the scope-value store. *)
Abbreviation ptr := nat (only parsing).

(** Objects the compiler attaches to a constant. *)
Inductive JObject : Set :=
| HotSpotResolvedObjectType (metaspaceKlass : Z)
| JavaString (oop : Z)
| JavaObject (oop : Z).

Inductive ScopeValue : Set :=
| LocationValue (location : Location.t)
| ConstantIntValue (value : Z)
| ConstantLongValue (value : Z)
| ConstantOopWriteValue (handle : option JObject)
| ObjectValue (id : Z) (klass : ptr) (field_values : list ptr).

Record MonitorValue : Set := {
  mv_owner : ptr;
  mv_basic_lock : Location.t;
  mv_eliminated : bool
}.

(** ** Compiler-side (Java) data *)

(** A [Value]; [kind] is the type character of its [Kind].  A virtual
    object is named by its address in the Java heap, so that field values
    can refer back to an enclosing object. *)
Inductive Value : Set :=
| ILLEGAL
| RegisterValue (kind : ascii) (number : Z)
| StackSlot (kind : ascii) (offset : Z) (addFrameSize : bool)
| Constant (kind : ascii) (primitive : Z) (object : option JObject)
| VirtualObject (kind : ascii) (address : nat)
| code_MonitorValue (kind : ascii) (owner lockData : Value) (eliminated : bool)
| OtherValue (kind : ascii).

Record VirtualObjectData : Set := {
  vo_id : Z;
  vo_javaMirror : Z;
  vo_klass : Z;
  vo_values : list Value
}.

Definition JavaHeap : Set := list VirtualObjectData.

Definition is_ILLEGAL (v : Value) : bool :=
  match v with ILLEGAL => true | _ => false end.

Definition Value_kind (v : Value) : ascii :=
  match v with
  | ILLEGAL => "-"%char
  | RegisterValue k _ | StackSlot k _ _ | Constant k _ _ | VirtualObject k _
  | code_MonitorValue k _ _ _ | OtherValue k => k
  end.

(** The [MarkId] enumeration of graalCodeInstaller.hpp, which is not part
    of the sources at hand: the constants are parameters. *)
Record MarkIds : Set := {
  MARK_VERIFIED_ENTRY : Z;
  MARK_UNVERIFIED_ENTRY : Z;
  MARK_OSR_ENTRY : Z;
  MARK_EXCEPTION_HANDLER_ENTRY : Z;
  MARK_DEOPT_HANDLER_ENTRY : Z;
  MARK_STATIC_CALL_STUB : Z;
  MARK_INVOKE_INVALID : Z;
  MARK_INVOKEINTERFACE : Z;
  MARK_INVOKESTATIC : Z;
  MARK_INVOKESPECIAL : Z;
  MARK_INVOKEVIRTUAL : Z;
  MARK_INLINE_INVOKEVIRTUAL : Z;
  MARK_IMPLICIT_NULL : Z;
  MARK_POLL_NEAR : Z;
  MARK_POLL_RETURN_NEAR : Z;
  MARK_POLL_FAR : Z;
  MARK_POLL_RETURN_FAR : Z;
  MARK_KLASS_PATCHING : Z;
  MARK_DUMMY_OOP_RELOCATION : Z;
  MARK_ACCESS_FIELD_PATCHING : Z
}.

(** Build flags and the constants and helpers of the VM that the installer
    uses and that are defined outside graalCodeInstaller.cpp. *)
Record VMConfig : Type := {
  ASSERT : bool;                       (* #ifdef ASSERT: a debug build *)
  VM_LITTLE_ENDIAN : bool;             (* #ifdef VM_LITTLE_ENDIAN *)
  HeapWordSize : Z;
  kindToBasicType : ascii -> option BasicType;
  longArrayKlassObj : Z;
  marks : MarkIds;
  NativeCall_instruction_size : Z;
  NativeJump_instruction_size : Z;
  NativeMovConstReg_instruction_size : Z;
  constants_alignment : Z;             (* _constants->alignment() *)
  non_oop_word : Z;
  polling_page : Z;
  SafepointPollOffset : Z;
  vm_page_size : Z;
  getStub : Z -> Z;                    (* VmIds::getStub *)
  resolve_virtual_call_stub : Z;
  resolve_static_call_stub : Z;
  resolve_opt_virtual_call_stub : Z;
  java_code_at : Z -> Z -> Z;          (* Bytecodes::java_code_at(method, bcp_from(bci)) *)
  bytecode_should_reexecute : Z -> bool
}.

(** ** The translation state

    [sv_store] holds every [ScopeValue] allocated with [new]; [objects] is
    the [GrowableArray<ScopeValue*>] of object values seen so far, which the
    dispatcher allocates afresh for each site and passes down by pointer;
    [oop_recorder] is the metadata table of the [OopRecorder]. *)
Record Recorder : Set := {
  sv_store : list ScopeValue;
  objects : list ptr;
  oop_recorder : list Z
}.

Definition new_sv (v : ScopeValue) : M Recorder ptr :=
  fun s => Ok (length (sv_store s),
               {| sv_store := sv_store s ++ [v]; objects := objects s;
                  oop_recorder := oop_recorder s |}).

Definition objects_append (p : ptr) : M Recorder unit :=
  fun s => Ok (tt, {| sv_store := sv_store s; objects := objects s ++ [p];
                      oop_recorder := oop_recorder s |}).

(** [sv->field_values()->append(x)] *)
Definition field_values_append (sv x : ptr) : M Recorder unit :=
  fun s =>
    match sv_store s !! sv with
    | Some (ObjectValue id klass fields) =>
        Ok (tt, {| sv_store := <[sv := ObjectValue id klass (fields ++ [x])]> (sv_store s);
                   objects := objects s; oop_recorder := oop_recorder s |})
    | _ => Undefined "field_values of a pointer that is not an ObjectValue"
    end.

Definition ObjectValue_id (store : list ScopeValue) (p : ptr) : option Z :=
  match store !! p with
  | Some (ObjectValue id _ _) => Some id
  | _ => None
  end.

(** The linear scan of [objects] for an object value with the given id; the
    array holds object values only (nothing else is ever appended to it). *)
Fixpoint find_object (store : list ScopeValue) (objs : list ptr) (id : Z) : option ptr :=
  match objs with
  | [] => None
  | p :: rest =>
      match ObjectValue_id store p with
      | Some id' => if id' =? id then Some p else find_object store rest id
      | None => find_object store rest id
      end
  end.

(** Modelled from the spec: OopRecorder::find_index (oopRecorder.hpp is not
    part of the sources at hand) registers a metadata reference "via
    memoization by identity already present in the recorder, not by
    re-registering duplicates". *)
Definition find_index (klass : Z) : M Recorder unit :=
  fun s =>
    if bool_decide (klass ∈ oop_recorder s) then Ok (tt, s)
    else Ok (tt, {| sv_store := sv_store s; objects := objects s;
                    oop_recorder := oop_recorder s ++ [klass] |}).

Definition is_int_like (t : BasicType) : bool :=
  match t with
  | T_INT | T_FLOAT | T_SHORT | T_CHAR | T_BOOLEAN | T_BYTE => true
  | _ => false
  end.

Definition is_T (t u : BasicType) : bool := bool_decide (t = u).

Section Translator.

Context (cfg : VMConfig) (heap : JavaHeap).

(** [assert] is compiled only under [#ifdef ASSERT] (debug.hpp); otherwise
    it expands to nothing. *)
Definition assert {S} (p : bool) (msg : string) : M S unit :=
  if ASSERT cfg then (if p then ret tt else fatal msg) else ret tt.

Definition record_metadata_in_constant (kind : ascii) (prim : Z) (obj : option JObject)
  : M Recorder unit :=
  if Ascii.eqb kind "j" then
    match obj with
    | Some (HotSpotResolvedObjectType klass) =>
        assert (prim =? klass) "constant does not carry its klass" ;;
        find_index klass
    | Some (JavaString _) => ret tt
    | Some (JavaObject _) => assert false "unexpected annotation type"
    | None => ret tt
    end
  else ret tt.

Definition Value_type (value : Value) : M Recorder BasicType :=
  match kindToBasicType cfg (Value_kind value) with
  | Some t => ret t
  | None => fatal "unexpected Kind"
  end.

(** The body of the loop over the field values of a virtual object;
    [translate] is the recursive call of [get_hotspot_value]. *)
Definition field_body (translate : Value -> M Recorder (ptr * option ptr))
    (isLongArray : bool) (sv : ptr) (field : Value) : M Recorder unit :=
  let* (value, cur_second) := translate field in
  let* (value, cur_second) :=
    match cur_second with
    | None =>
        if isLongArray then
          (* we're trying to put ints into a long array... this isn't really
             valid, but it's used for some optimizations.  add an int 0 constant *)
          let* zero := new_sv (ConstantIntValue 0) in
          if VM_LITTLE_ENDIAN cfg then ret (value, Some zero)
          else ret (zero, Some value)
        else ret (value, None)
    | Some _ => ret (value, cur_second)
    end in
  match cur_second with
  | Some second => field_values_append sv second
  | None => ret tt
  end ;;
  field_values_append sv value.

Fixpoint get_hotspot_value (fuel : nat) (value : Value) (total_frame_size : Z)
  : M Recorder (ptr * option ptr) :=
  match fuel with
  | O => out_of_fuel
  | S fuel' =>
    if is_ILLEGAL value then
      let* p := new_sv (LocationValue (Location.new_stk_loc Location.invalid 0)) in
      ret (p, None)
    else
      let* type := Value_type value in
      let locationType :=
        if is_T type T_OBJECT || is_T type T_ARRAY then Location.oop else Location.normal in
      match value with
      | RegisterValue _ number =>
          if number <? 16 then
            let* locationType :=
              if is_int_like type || is_T type T_ADDRESS then ret Location.int_in_long
              else if is_T type T_LONG then ret Location.lng
              else assert (is_T type T_OBJECT || is_T type T_ARRAY)
                          "unexpected type in cpu register" ;;
                   ret locationType in
            let* p := new_sv (LocationValue
                        (Location.new_reg_loc locationType
                           (Register_as_VMReg (as_Register number)))) in
            ret (p, if is_T type T_LONG then Some p else None)
          else
            assert (is_T type T_FLOAT || is_T type T_DOUBLE)
                   "only float and double expected in xmm register" ;;
            let locationType :=
              if is_T type T_FLOAT then Location.normal else Location.dbl in
            let* p := new_sv (LocationValue
                        (Location.new_reg_loc locationType
                           (XMMRegister_as_VMReg (as_XMMRegister (number - 16))))) in
            ret (p, if is_T type T_DOUBLE then Some p else None)
      | StackSlot _ offset addFrameSize =>
          let locationType :=
            if is_T type T_DOUBLE then Location.dbl
            else if is_T type T_LONG then Location.lng
            else locationType in
          let offset := if addFrameSize then jint_add offset total_frame_size else offset in
          let* p := new_sv (LocationValue (Location.new_stk_loc locationType offset)) in
          ret (p, if is_T type T_DOUBLE || is_T type T_LONG then Some p else None)
      | Constant kind prim obj =>
          record_metadata_in_constant kind prim obj ;;
          if is_int_like type then
            let* p := new_sv (ConstantIntValue (to_jint prim)) in
            ret (p, None)
          else if is_T type T_LONG || is_T type T_DOUBLE then
            let* second := new_sv (ConstantIntValue 0) in
            let* p := new_sv (ConstantLongValue prim) in
            ret (p, Some second)
          else if is_T type T_OBJECT then
            let* p := new_sv (ConstantOopWriteValue obj) in
            ret (p, None)
          else if is_T type T_ADDRESS then
            let* p := new_sv (ConstantLongValue prim) in
            ret (p, None)
          else ShouldNotReachHere
      | VirtualObject _ address =>
          match heap !! address with
          | None => undefined "not the address of a VirtualObject"
          | Some vo =>
              let id := vo_id vo in
              let isLongArray := vo_klass vo =? longArrayKlassObj cfg in
              let* s := get in
              match find_object (sv_store s) (objects s) id with
              | Some obj => ret (obj, None)
              | None =>
                  let* klass := new_sv (ConstantOopWriteValue
                                          (Some (JavaObject (vo_javaMirror vo)))) in
                  let* sv := new_sv (ObjectValue id klass []) in
                  objects_append sv ;;
                  for_each (vo_values vo)
                    (field_body
                       (fun field => get_hotspot_value fuel' field total_frame_size)
                       isLongArray sv) ;;
                  ret (sv, None)
              end
          end
      | _ => ShouldNotReachHere
      end
  end.

Definition is_location (store : list ScopeValue) (p : ptr) : option Location.t :=
  match store !! p with
  | Some (LocationValue loc) => Some loc
  | _ => None
  end.

Definition get_monitor_value (fuel : nat) (value : Value) (total_frame_size : Z)
  : M Recorder MonitorValue :=
  match value with
  | code_MonitorValue _ owner lockData eliminated =>
      let* (owner_value, second) := get_hotspot_value fuel owner total_frame_size in
      assert (bool_decide (second = None)) "monitor cannot occupy two stack slots" ;;
      let* (lock_data_value, second) := get_hotspot_value fuel lockData total_frame_size in
      assert (bool_decide (second = Some lock_data_value))
             "monitor is LONG value that occupies two stack slots" ;;
      let* s := get in
      assert (bool_decide (is_Some (is_location (sv_store s) lock_data_value)))
             "invalid monitor location" ;;
      match is_location (sv_store s) lock_data_value with
      | Some lock_data_loc =>
          ret {| mv_owner := owner_value; mv_basic_lock := lock_data_loc;
                 mv_eliminated := eliminated |}
      | None => undefined "location() of a scope value that is not a LocationValue"
      end
  | _ => fatal "Monitors must be of type MonitorValue"
  end.

End Translator.

(** ** Reference-map decoder *)

Definition CPU_REGS : list Register :=
  [rax; rcx; rdx; rbx; rsp; rbp; rsi; rdi; r8; r9; r10; r11; r12; r13; r14; r15].

Definition OOP_ALLOWED : list bool :=
  [true; true; true; true; false; false; true; true;
   true; true; false; true; true; true; true; true].

Definition NUM_CPU_REGS : Z := Z.of_nat (length CPU_REGS).

Definition XMM_REGS : list XMMRegister :=
  map as_XMMRegister [0; 1; 2; 3; 4; 5; 6; 7; 8; 9; 10; 11; 12; 13; 14; 15].

Definition NUM_XMM_REGS : Z := Z.of_nat (length XMM_REGS).
Definition NUM_REGS : Z := NUM_CPU_REGS + NUM_XMM_REGS.

Definition MapWordBits : Z := 64.

(** [OOP_ALLOWED[i]] for an index of the table. *)
Definition oop_allowed (i : Z) : bool :=
  (0 <=? i) && default false (OOP_ALLOWED !! Z.to_nat i).

(** A [DebugInfo]: the two reference maps are [GraalBitMap]s, given by their
    [words] arrays of 64-bit words. *)
Record BitMap : Set := { words : list Z }.

Section Decoder.

Context (cfg : VMConfig) {S : Type}.

(** convert Graal register indices (as used in oop maps) to HotSpot registers *)
Definition get_hotspot_reg (graal_reg : Z) : M S VMReg :=
  assert cfg ((0 <=? graal_reg) && (graal_reg <? NUM_REGS)) "invalid register number" ;;
  if graal_reg <? NUM_CPU_REGS then
    match (if 0 <=? graal_reg then CPU_REGS !! Z.to_nat graal_reg else None) with
    | Some r => ret (Register_as_VMReg r)
    | None => undefined "CPU_REGS read out of bounds"
    end
  else
    match XMM_REGS !! Z.to_nat (graal_reg - NUM_CPU_REGS) with
    | Some r => ret (XMMRegister_as_VMReg r)
    | None => undefined "XMM_REGS read out of bounds"
    end.

Definition is_bit_set (bit_map : BitMap) (i : Z) : M S bool :=
  let extra_idx := Z.quot i MapWordBits in
  let extra := words bit_map in
  assert cfg ((0 <=? extra_idx) && (extra_idx <? Z.of_nat (length extra))) "unexpected index" ;;
  match (if 0 <=? extra_idx then extra !! Z.to_nat extra_idx else None) with
  | Some word => ret (negb (Z.land word (Z.shiftl 1 (Z.rem i MapWordBits)) =? 0))
  | None => undefined "bit map word read out of bounds"
  end.

Definition bitmap_size (bit_map : BitMap) : Z :=
  Z.of_nat (length (words bit_map)) * MapWordBits.

(** The body of the loop over the CPU registers. *)
Definition register_body (register_map : BitMap) (map : OopMap) (i : Z) : M S OopMap :=
  let* is_oop := is_bit_set register_map i in
  let* reg := get_hotspot_reg i in
  if is_oop then
    assert cfg (oop_allowed i)
      "this register may never be an oop, register map misaligned?" ;;
    ret (set_oop map reg)
  else ret (set_value map reg).

(** The body of the loop over the stack slots. *)
Definition frame_body (frame_map : BitMap) (map : OopMap) (i : Z) : M S OopMap :=
  let* is_oop := is_bit_set frame_map i in
  (* HotSpot stack slots are 4 bytes *)
  let reg := stack2reg (i * 2) in
  if is_oop then ret (set_oop map reg) else ret (set_value map reg).

(** creates a HotSpot oop map out of the byte arrays provided by DebugInfo *)
Definition create_oop_map (total_frame_size parameter_count : Z)
    (register_map : option BitMap) (frame_map : option BitMap) : M S OopMap :=
  let map := new_OopMap total_frame_size parameter_count in
  let* map :=
    match register_map with
    | Some register_map => foldM (register_body register_map) (seqZ 0 NUM_CPU_REGS) map
    | None => ret map
    end in
  match frame_map with
  | None => undefined "bitmap_size of a NULL frame map"
  | Some frame_map => foldM (frame_body frame_map) (seqZ 0 (bitmap_size frame_map)) map
  end.

End Decoder.

(** ** Frames, debug information and sites *)

#[local] Unset Elimination Schemes.
Inductive BytecodeFrame : Set := Build_BytecodeFrame {
  caller : option BytecodeFrame;
  method : Z;
  bci : Z;
  values : list Value;
  numLocals : Z;
  numStack : Z;
  numLocks : Z;
  rethrowException : bool;
  duringCall : bool;
  leafGraphId : Z
}.
#[local] Set Elimination Schemes.

Record DebugInfo : Set := {
  bytecodePosition : option BytecodeFrame;
  registerRefMap : option BitMap;
  frameRefMap : option BitMap
}.

(** The target of a call site: a boxed [Long] naming a runtime stub, an
    installed code unit (with the verified entry point of its nmethod), or a
    Java method, resolved or not. *)
Inductive CallTarget : Set :=
| Long_target (value : Z)
| HotSpotInstalledCode (verified_entry_point : Z)
| JavaMethod (resolved is_static : bool).

Inductive Site : Set :=
| CompilationResult_Call (pcOffset : Z) (target : CallTarget) (debugInfo : option DebugInfo)
| CompilationResult_Safepoint (pcOffset : Z) (debugInfo : option DebugInfo)
| CompilationResult_DataPatch (pcOffset : Z) (kind : ascii) (primitive : Z)
    (object : option JObject) (alignment : Z) (inlined : bool)
| CompilationResult_Mark (pcOffset : Z) (id : option Z) (references : list Z)
| OtherSite (pcOffset : Z).

(** ** What the installer hands to the runtime *)

(** The calls made on the [DebugInformationRecorder], oldest first. *)
Inductive DebugEvent : Set :=
| add_safepoint (pc_offset leaf_graph_id : Z) (map : OopMap)
| dump_object_pool (objs : list ptr)
| describe_scope (pc_offset method bci : Z) (reexecute rethrow_exception : bool)
    (locals expressions : list ptr) (monitors : list MonitorValue)
| end_safepoint (pc_offset : Z).

Inductive WhichOperand : Set :=
| no_operand | call32_operand | imm_operand | disp32_operand.

Inductive RelocSpec : Set :=
| runtime_call_Relocation
| virtual_call_Relocation (invoke_mark_pc : Z)
| static_call_type
| opt_virtual_call_type
| section_word_Relocation (dest : Z)
| oop_Relocation_immediate
| metadata_Relocation_immediate
| static_stub_Relocation (call_pc : Z)
| poll_type
| poll_return_type.

(** The calls made on the relocation information of the instruction
    section, oldest first. *)
Inductive RelocEvent : Set :=
| relocate (at_ : Z) (spec : RelocSpec) (format : WhichOperand)
| change_reloc_info_for_address (at_ : Z).

Inductive CodeOffsets : Set :=
| Entry | Verified_Entry | OSR_Entry | Exceptions | Deopt.

(** The x86 instruction views (nativeInst_x86.hpp, assembler_x86.hpp) over
    the memory of the code buffer.  These headers are not part of the
    sources at hand, so the views are an interface: [code] is the memory,
    the predicates and readers decode it, the setters and stores patch it.
    [native*_at] tells whether the view accepts the bytes at an address,
    which the debug build verifies. *)
Class NativeInst (code : Type) : Type := {
  is_call : code -> Z -> bool;
  is_jump : code -> Z -> bool;
  is_mov_literal64 : code -> Z -> bool;
  is_call_reg : code -> Z -> bool;
  next_instruction_offset : code -> Z -> Z;
  u_char_at : code -> Z -> Z;
  nativeCall_at : code -> Z -> bool;
  nativeJump_at : code -> Z -> bool;
  nativeMovConstReg_at : code -> Z -> bool;
  nativeMovRegMem_at : code -> Z -> bool;
  MovConstReg_data : code -> Z -> Z;
  MovRegMem_offset : code -> Z -> Z;
  locate_operand : code -> Z -> WhichOperand -> Z;
  locate_next_instruction : code -> Z -> Z;
  set_jump_destination : code -> Z -> Z -> code;
  set_destination : code -> Z -> Z -> code;
  set_data : code -> Z -> Z -> code;
  set_offset : code -> Z -> Z -> code;
  store_jlong : code -> Z -> Z -> code;
  store_jint : code -> Z -> Z -> code;
  store_u_char : code -> Z -> Z -> code;
  store_jobject : code -> Z -> option JObject -> code
}.

(** The code buffer: its memory, the instruction section ([_instructions])
    with its relocation records, and the constants section ([_constants]). *)
Record CodeBuffer (code : Type) : Type := {
  mem : code;
  insts_start : Z;
  relocs : list RelocEvent;
  consts_start : Z;
  consts_end : Z;
  consts_limit : Z
}.

Arguments mem {code} _.
Arguments insts_start {code} _.
Arguments relocs {code} _.
Arguments consts_start {code} _.
Arguments consts_end {code} _.
Arguments consts_limit {code} _.

Record CodeInstaller (code : Type) : Type := {
  _total_frame_size : Z;
  _parameter_count : Z;
  _next_call_type : Z;
  _invoke_mark_pc : Z;
  _offsets : list (CodeOffsets * Z);
  _implicit_exception_table : list (Z * Z);
  _debug_recorder : list DebugEvent;
  _recorder : Recorder;
  _buffer : CodeBuffer code
}.

Arguments _total_frame_size {code} _.
Arguments _parameter_count {code} _.
Arguments _next_call_type {code} _.
Arguments _invoke_mark_pc {code} _.
Arguments _offsets {code} _.
Arguments _implicit_exception_table {code} _.
Arguments _debug_recorder {code} _.
Arguments _recorder {code} _.
Arguments _buffer {code} _.

Section Installer.

Context (cfg : VMConfig) (heap : JavaHeap) {code : Type} `{!NativeInst code}.

Abbreviation Installer := (CodeInstaller code).

Definition with_total_frame_size (v : Z) (s : Installer) : Installer :=
  {| _total_frame_size := v; _parameter_count := _parameter_count s;
     _next_call_type := _next_call_type s; _invoke_mark_pc := _invoke_mark_pc s;
     _offsets := _offsets s; _implicit_exception_table := _implicit_exception_table s;
     _debug_recorder := _debug_recorder s; _recorder := _recorder s;
     _buffer := _buffer s |}.

Definition with_parameter_count (v : Z) (s : Installer) : Installer :=
  {| _total_frame_size := _total_frame_size s; _parameter_count := v;
     _next_call_type := _next_call_type s; _invoke_mark_pc := _invoke_mark_pc s;
     _offsets := _offsets s; _implicit_exception_table := _implicit_exception_table s;
     _debug_recorder := _debug_recorder s; _recorder := _recorder s;
     _buffer := _buffer s |}.

Definition with_next_call_type (v : Z) (s : Installer) : Installer :=
  {| _total_frame_size := _total_frame_size s; _parameter_count := _parameter_count s;
     _next_call_type := v; _invoke_mark_pc := _invoke_mark_pc s;
     _offsets := _offsets s; _implicit_exception_table := _implicit_exception_table s;
     _debug_recorder := _debug_recorder s; _recorder := _recorder s;
     _buffer := _buffer s |}.

Definition with_invoke_mark_pc (v : Z) (s : Installer) : Installer :=
  {| _total_frame_size := _total_frame_size s; _parameter_count := _parameter_count s;
     _next_call_type := _next_call_type s; _invoke_mark_pc := v;
     _offsets := _offsets s; _implicit_exception_table := _implicit_exception_table s;
     _debug_recorder := _debug_recorder s; _recorder := _recorder s;
     _buffer := _buffer s |}.

Definition with_offsets (v : list (CodeOffsets * Z)) (s : Installer) : Installer :=
  {| _total_frame_size := _total_frame_size s; _parameter_count := _parameter_count s;
     _next_call_type := _next_call_type s; _invoke_mark_pc := _invoke_mark_pc s;
     _offsets := v; _implicit_exception_table := _implicit_exception_table s;
     _debug_recorder := _debug_recorder s; _recorder := _recorder s;
     _buffer := _buffer s |}.

Definition with_implicit_exception_table (v : list (Z * Z)) (s : Installer) : Installer :=
  {| _total_frame_size := _total_frame_size s; _parameter_count := _parameter_count s;
     _next_call_type := _next_call_type s; _invoke_mark_pc := _invoke_mark_pc s;
     _offsets := _offsets s; _implicit_exception_table := v;
     _debug_recorder := _debug_recorder s; _recorder := _recorder s;
     _buffer := _buffer s |}.

Definition with_debug_recorder (v : list DebugEvent) (s : Installer) : Installer :=
  {| _total_frame_size := _total_frame_size s; _parameter_count := _parameter_count s;
     _next_call_type := _next_call_type s; _invoke_mark_pc := _invoke_mark_pc s;
     _offsets := _offsets s; _implicit_exception_table := _implicit_exception_table s;
     _debug_recorder := v; _recorder := _recorder s;
     _buffer := _buffer s |}.

Definition with_recorder (v : Recorder) (s : Installer) : Installer :=
  {| _total_frame_size := _total_frame_size s; _parameter_count := _parameter_count s;
     _next_call_type := _next_call_type s; _invoke_mark_pc := _invoke_mark_pc s;
     _offsets := _offsets s; _implicit_exception_table := _implicit_exception_table s;
     _debug_recorder := _debug_recorder s; _recorder := v;
     _buffer := _buffer s |}.

Definition with_buffer (v : CodeBuffer code) (s : Installer) : Installer :=
  {| _total_frame_size := _total_frame_size s; _parameter_count := _parameter_count s;
     _next_call_type := _next_call_type s; _invoke_mark_pc := _invoke_mark_pc s;
     _offsets := _offsets s; _implicit_exception_table := _implicit_exception_table s;
     _debug_recorder := _debug_recorder s; _recorder := _recorder s;
     _buffer := v |}.

Definition with_mem (m : code) (b : CodeBuffer code) : CodeBuffer code :=
  {| mem := m; insts_start := insts_start b; relocs := relocs b;
     consts_start := consts_start b; consts_end := consts_end b;
     consts_limit := consts_limit b |}.

Definition with_relocs (r : list RelocEvent) (b : CodeBuffer code) : CodeBuffer code :=
  {| mem := mem b; insts_start := insts_start b; relocs := r;
     consts_start := consts_start b; consts_end := consts_end b;
     consts_limit := consts_limit b |}.

Definition with_consts_end (e : Z) (b : CodeBuffer code) : CodeBuffer code :=
  {| mem := mem b; insts_start := insts_start b; relocs := relocs b;
     consts_start := consts_start b; consts_end := e;
     consts_limit := consts_limit b |}.

(** Run a translator computation on the recorder of the installer. *)
Definition on_recorder {A} (m : M Recorder A) : M Installer A :=
  fun s =>
    match m (_recorder s) with
    | Ok (a, r) => Ok (a, with_recorder r s)
    | Fatal msg => Fatal msg
    | Undefined why => Undefined why
    | OutOfFuel => OutOfFuel
    end.

(** [new GrowableArray<ScopeValue*>()] for the [objects] of one site. *)
Definition new_objects : M Installer unit :=
  modify (fun s => with_recorder
            {| sv_store := sv_store (_recorder s); objects := [];
               oop_recorder := oop_recorder (_recorder s) |} s).

Definition debug_event (e : DebugEvent) : M Installer unit :=
  modify (fun s => with_debug_recorder (_debug_recorder s ++ [e]) s).

Definition patch (f : code -> code) : M Installer unit :=
  modify (fun s => with_buffer (with_mem (f (mem (_buffer s))) (_buffer s)) s).

(** [_instructions->relocate(at, spec, format)] *)
Definition instructions_relocate (at_ : Z) (spec : RelocSpec) (format : WhichOperand)
  : M Installer unit :=
  modify (fun s => with_buffer
            (with_relocs (relocs (_buffer s) ++ [relocate at_ spec format]) (_buffer s)) s).

(** The accumulators of the value loop of [record_scope]. *)
Record ScopeLists : Set := {
  locals : list ptr;
  expressions : list ptr;
  monitors : list MonitorValue
}.

Definition append_opt (l : list ptr) (second : option ptr) : list ptr :=
  match second with
  | Some p => l ++ [p]
  | None => l
  end.

Definition add_local (acc : ScopeLists) (first : ptr) (second : option ptr) : ScopeLists :=
  {| locals := append_opt (locals acc) second ++ [first];
     expressions := expressions acc; monitors := monitors acc |}.

Definition add_expression (acc : ScopeLists) (first : ptr) (second : option ptr)
  : ScopeLists :=
  {| locals := locals acc;
     expressions := append_opt (expressions acc) second ++ [first];
     monitors := monitors acc |}.

Definition add_monitor (acc : ScopeLists) (m : MonitorValue) : ScopeLists :=
  {| locals := locals acc; expressions := expressions acc;
     monitors := monitors acc ++ [m] |}.

(** The loop [for (jint i = 0; i < values->length(); i++)] of
    [record_scope], from index [i] on, with the values from [i] on. *)
Fixpoint record_values (fuel : nat) (total_frame_size local_count expression_count : Z)
    (i : Z) (rest : list Value) (acc : ScopeLists) : M Recorder ScopeLists :=
  match rest with
  | [] => ret acc
  | value :: rest' =>
      let* (acc, second) :=
        if i <? local_count then
          let* (first, second) := get_hotspot_value cfg heap fuel value total_frame_size in
          ret (add_local acc first second, second)
        else if i <? jint_add local_count expression_count then
          let* (first, second) := get_hotspot_value cfg heap fuel value total_frame_size in
          ret (add_expression acc first second, second)
        else
          let* m := get_monitor_value cfg heap fuel value total_frame_size in
          ret (add_monitor acc m, None) in
      match second with
      | Some _ =>
          (* i++ *)
          match rest' with
          | [] =>
              assert cfg false "double-slot value not followed by Value.ILLEGAL" ;;
              ret acc
          | next :: rest'' =>
              assert cfg (is_ILLEGAL next)
                "double-slot value not followed by Value.ILLEGAL" ;;
              record_values fuel total_frame_size local_count expression_count
                (i + 2) rest'' acc
          end
      | None =>
          record_values fuel total_frame_size local_count expression_count
            (i + 1) rest' acc
      end
  end.

(** The frames of the embedding are [BytecodeFrame]s, which is what the
    first assert of the function checks. *)
Fixpoint record_scope (fuel : nat) (pc_offset : Z) (frame : BytecodeFrame)
  : M Installer unit :=
  match caller frame with
  | Some caller_frame => record_scope fuel pc_offset caller_frame
  | None => ret tt
  end ;;
  let method := method frame in
  let bci := bci frame in
  let reexecute :=
    if (bci =? -1) || (bci =? -2) then false
    else
      let code := java_code_at cfg method bci in
      let reexecute := bytecode_should_reexecute cfg code in
      let frame_not_NULL := true in
      if frame_not_NULL then negb (duringCall frame) else reexecute in
  let local_count := numLocals frame in
  let expression_count := numStack frame in
  let monitor_count := numLocks frame in
  let values := values frame in
  assert cfg (jint_add (jint_add local_count expression_count) monitor_count
              =? Z.of_nat (length values)) "unexpected values length" ;;
  let* tfs := gets _total_frame_size in
  let* lists := on_recorder
      (record_values fuel tfs local_count expression_count 0 values
         {| locals := []; expressions := []; monitors := [] |}) in
  let* objs := gets (fun s => objects (_recorder s)) in
  debug_event (dump_object_pool objs) ;;
  let throw_exception := rethrowException frame in
  debug_event (describe_scope pc_offset method bci reexecute throw_exception
                 (locals lists) (expressions lists) (monitors lists)).

Definition site_Safepoint (fuel : nat) (pc_offset : Z) (debug_info : option DebugInfo)
  : M Installer unit :=
  assert cfg (bool_decide (is_Some debug_info)) "debug info expected" ;;
  match debug_info with
  | None => undefined "NULL debug info"
  | Some debug_info =>
      let* tfs := gets _total_frame_size in
      let* pcount := gets _parameter_count in
      let* map := create_oop_map cfg tfs pcount
                    (registerRefMap debug_info) (frameRefMap debug_info) in
      debug_event (add_safepoint pc_offset (-1) map) ;;
      match bytecodePosition debug_info with
      | None => undefined "NULL bytecode position"
      | Some code_pos =>
          new_objects ;;
          record_scope fuel pc_offset code_pos ;;
          debug_event (end_safepoint pc_offset)
      end
  end.

Definition instruction_address (pc_offset : Z) : M Installer Z :=
  gets (fun s => insts_start (_buffer s) + pc_offset).

Definition current_code : M Installer code := gets (fun s => mem (_buffer s)).

Definition is_Long_target (target : CallTarget) : bool :=
  match target with Long_target _ => true | _ => false end.

Definition method_is_static (target : CallTarget) : option bool :=
  match target with
  | JavaMethod true is_static => Some is_static
  | _ => None
  end.

(** The first block of [site_Call]: decode the instruction at the site and
    compute the offset of the next instruction. *)
Definition decode_call (pc_offset : Z) (target : CallTarget) (inst : Z) (c : code)
  : M Installer Z :=
  let hotspot_method_not_NULL := negb (is_Long_target target) in
  if is_call c inst || is_jump c inst then
    assert cfg (NativeCall_instruction_size cfg =? NativeJump_instruction_size cfg)
      "unexpected size" ;;
    ret (jint_add pc_offset (NativeCall_instruction_size cfg))
  else if is_mov_literal64 c inst then
    (* mov+call instruction pair *)
    let next_pc_offset := jint_add pc_offset (NativeMovConstReg_instruction_size cfg) in
    let* call := instruction_address next_pc_offset in
    assert cfg (((u_char_at c call =? 64) || (u_char_at c call =? 65))
                && (u_char_at c (call + 1) =? 255))
      "expected call with rex/rexb prefix byte" ;;
    ret (jint_add next_pc_offset 3)
  else if is_call_reg c inst then
    (* the inlined vtable stub contains a "call register" instruction *)
    assert cfg hotspot_method_not_NULL "only valid for virtual calls" ;;
    ret (jint_add pc_offset (next_instruction_offset c inst))
  else fatal "unsupported type of instruction for call site".

(** The block [if (debug_info != NULL)] of [site_Call]. *)
Definition call_debug_info (fuel : nat) (next_pc_offset : Z) (debug_info : option DebugInfo)
  : M Installer unit :=
  match debug_info with
  | Some debug_info =>
      match bytecodePosition debug_info with
      | None => undefined "NULL bytecode position"
      | Some frame =>
          let* tfs := gets _total_frame_size in
          let* pcount := gets _parameter_count in
          let* map := create_oop_map cfg tfs pcount
                        (registerRefMap debug_info) (frameRefMap debug_info) in
          debug_event (add_safepoint next_pc_offset (leafGraphId frame) map) ;;
          new_objects ;;
          record_scope fuel next_pc_offset frame
      end
  | None => ret tt
  end.

(** A [CallTarget] is a stub or a method, never both: the assert "Call
    site needs exactly one type" holds by typing. *)
Definition site_Call (fuel : nat) (pc_offset : Z) (target : CallTarget)
    (debug_info : option DebugInfo) : M Installer unit :=
  let hotspot_method_not_NULL := negb (is_Long_target target) in
  let* inst := instruction_address pc_offset in
  let* c := current_code in
  let* next_pc_offset := decode_call pc_offset target inst c in
  match target with
  | HotSpotInstalledCode verified_entry_point =>
      assert cfg (is_jump c inst) "jump expected" ;;
      assert cfg (nativeJump_at c inst) "nativeJump_at" ;;
      patch (fun c => set_jump_destination c inst verified_entry_point) ;;
      instructions_relocate inst runtime_call_Relocation call32_operand
      (* return *)
  | _ =>
      call_debug_info fuel next_pc_offset debug_info ;;
      match target with
      | Long_target global_stub =>
          if is_call c inst then
            (* NOTE: for call without a mov, the offset must fit a 32-bit immediate *)
            assert cfg (nativeCall_at c inst) "nativeCall_at" ;;
            patch (fun c => set_destination c inst (getStub cfg global_stub)) ;;
            instructions_relocate inst runtime_call_Relocation call32_operand
          else if is_mov_literal64 c inst then
            assert cfg (nativeMovConstReg_at c inst) "nativeMovConstReg_at" ;;
            patch (fun c => set_data c inst (getStub cfg global_stub)) ;;
            instructions_relocate inst runtime_call_Relocation imm_operand
          else
            assert cfg (nativeJump_at c inst) "nativeJump_at" ;;
            patch (fun c => set_jump_destination c inst (getStub cfg global_stub)) ;;
            instructions_relocate inst runtime_call_Relocation call32_operand
      | _ =>
          (* method != NULL *)
          assert cfg hotspot_method_not_NULL "unexpected JavaMethod" ;;
          assert cfg (bool_decide (is_Some debug_info)) "debug info expected" ;;
          let* next_call_type := gets _next_call_type in
          let* invoke_mark_pc := gets _invoke_mark_pc in
          if next_call_type =? MARK_INLINE_INVOKEVIRTUAL (marks cfg) then ret tt
          else if (next_call_type =? MARK_INVOKEVIRTUAL (marks cfg))
                  || (next_call_type =? MARK_INVOKEINTERFACE (marks cfg)) then
            assert cfg (bool_decide (method_is_static target <> Some true))
              "cannot call static method with invokeinterface" ;;
            assert cfg (nativeCall_at c inst) "nativeCall_at" ;;
            patch (fun c => set_destination c inst (resolve_virtual_call_stub cfg)) ;;
            instructions_relocate inst (virtual_call_Relocation invoke_mark_pc)
              call32_operand
          else if next_call_type =? MARK_INVOKESTATIC (marks cfg) then
            assert cfg (bool_decide (method_is_static target <> Some false))
              "cannot call non-static method with invokestatic" ;;
            assert cfg (nativeCall_at c inst) "nativeCall_at" ;;
            patch (fun c => set_destination c inst (resolve_static_call_stub cfg)) ;;
            instructions_relocate inst static_call_type call32_operand
          else if next_call_type =? MARK_INVOKESPECIAL (marks cfg) then
            assert cfg (bool_decide (method_is_static target <> Some true))
              "cannot call static method with invokespecial" ;;
            assert cfg (nativeCall_at c inst) "nativeCall_at" ;;
            patch (fun c => set_destination c inst (resolve_opt_virtual_call_stub cfg)) ;;
            instructions_relocate inst opt_virtual_call_type call32_operand
          else fatal "invalid _next_call_type value"
      end ;;
      modify (with_next_call_type (MARK_INVOKE_INVALID (marks cfg))) ;;
      match debug_info with
      | Some _ => debug_event (end_safepoint next_pc_offset)
      | None => ret tt
      end
  end.

(** Modelled from the spec: align_size_up (globalDefinitions.hpp is not part
    of the sources at hand) allocates "respecting the requested alignment":
    the least multiple of [alignment] that is not below [size]. *)
Definition align_size_up (size alignment : Z) : Z :=
  (size + alignment - 1) / alignment * alignment.

(** The same rounding written with a mask, as C code does for alignments
    that are powers of two. *)
Definition align_size_up_mask (size alignment : Z) : Z :=
  Z.land (size + (alignment - 1)) (Z.lnot (alignment - 1)).

(** Modelled from the spec: CodeSection::set_end (codeBuffer.hpp is not part
    of the sources at hand); an undersized constant region "is also fatal by
    current design". *)
Definition constants_set_end (pc : Z) : M Installer unit :=
  let* limit := gets (fun s => consts_limit (_buffer s)) in
  guarantee (pc <=? limit) "constants section overflow" ;;
  modify (fun s => with_buffer (with_consts_end pc (_buffer s)) s).

Definition site_DataPatch (pc_offset : Z) (typeChar : ascii) (primitive : Z)
    (object : option JObject) (alignment : Z) (inlined : bool) : M Installer unit :=
  let* instruction := instruction_address pc_offset in
  if existsb (Ascii.eqb typeChar) ["z"; "b"; "s"; "c"; "i"]%char then
    fatal "int-sized values not expected in DataPatch"
  else if existsb (Ascii.eqb typeChar) ["f"; "j"; "d"]%char then
    on_recorder (record_metadata_in_constant cfg typeChar primitive object) ;;
    let* c := current_code in
    if inlined then
      let operand := locate_operand c instruction imm_operand in
      patch (fun c => store_jlong c operand primitive)
    else
      let operand := locate_operand c instruction disp32_operand in
      let next_instruction := locate_next_instruction c instruction in
      let* size := gets (fun s => to_jint (consts_end (_buffer s) - consts_start (_buffer s))) in
      let* size :=
        if 0 <? alignment then
          guarantee (alignment <=? constants_alignment cfg)
            "Alignment inside constants section is restricted by alignment of section begin" ;;
          ret (to_jint (align_size_up size alignment))
        else ret size in
      (* we don't care if this is a long/double/etc., the primitive field contains the right bits *)
      let* dest := gets (fun s => consts_start (_buffer s) + size) in
      constants_set_end (dest + BytesPerLong) ;;
      patch (fun c => store_jlong c dest primitive) ;;
      let disp := dest - next_instruction in
      assert cfg (disp =? to_jint disp) "disp doesn't fit in 32 bits" ;;
      patch (fun c => store_jint c operand (to_jint disp)) ;;
      instructions_relocate instruction (section_word_Relocation dest) disp32_operand
  else if Ascii.eqb typeChar "a" then
    let* c := current_code in
    let operand := locate_operand c instruction imm_operand in
    patch (fun c => store_jobject c operand object) ;;
    instructions_relocate instruction oop_Relocation_immediate imm_operand
  else fatal "unexpected Kind in DataPatch".

Definition offsets_set_value (entry : CodeOffsets) (pc_offset : Z) : M Installer unit :=
  modify (fun s => with_offsets ((entry, pc_offset) :: _offsets s) s).

Definition array_at (references : list Z) (i : nat) : M Installer Z :=
  match references !! i with
  | Some ref => ret ref
  | None => undefined "references read out of bounds"
  end.

(** The ids the [switch] of [site_Mark] has a [case] for. *)
Definition known_mark_ids (m : MarkIds) : list Z :=
  [MARK_UNVERIFIED_ENTRY m; MARK_VERIFIED_ENTRY m; MARK_OSR_ENTRY m;
   MARK_EXCEPTION_HANDLER_ENTRY m; MARK_DEOPT_HANDLER_ENTRY m;
   MARK_STATIC_CALL_STUB m; MARK_INVOKEVIRTUAL m; MARK_INVOKEINTERFACE m;
   MARK_INLINE_INVOKEVIRTUAL m; MARK_INVOKE_INVALID m; MARK_INVOKESPECIAL m;
   MARK_INVOKESTATIC m; MARK_IMPLICIT_NULL m; MARK_POLL_NEAR m; MARK_POLL_FAR m;
   MARK_POLL_RETURN_NEAR m; MARK_POLL_RETURN_FAR m; MARK_KLASS_PATCHING m;
   MARK_ACCESS_FIELD_PATCHING m; MARK_DUMMY_OOP_RELOCATION m].

Definition poll_displacement (ni : Z) : Z :=
  to_jint (polling_page cfg + Z.rem (SafepointPollOffset cfg) (vm_page_size cfg) - ni).

Definition site_Mark (pc_offset : Z) (id_obj : option Z) (references : list Z)
  : M Installer unit :=
  match id_obj with
  | None => ret tt
  | Some id =>
      let m := marks cfg in
      let* instruction := instruction_address pc_offset in
      if id =? MARK_UNVERIFIED_ENTRY m then offsets_set_value Entry pc_offset
      else if id =? MARK_VERIFIED_ENTRY m then offsets_set_value Verified_Entry pc_offset
      else if id =? MARK_OSR_ENTRY m then offsets_set_value OSR_Entry pc_offset
      else if id =? MARK_EXCEPTION_HANDLER_ENTRY m then offsets_set_value Exceptions pc_offset
      else if id =? MARK_DEOPT_HANDLER_ENTRY m then offsets_set_value Deopt pc_offset
      else if id =? MARK_STATIC_CALL_STUB m then
        instructions_relocate instruction metadata_Relocation_immediate no_operand ;;
        assert cfg (Z.of_nat (length references) =? 1) "static call stub needs one reference" ;;
        let* ref := array_at references 0 in
        let* call_pc := instruction_address ref in
        instructions_relocate instruction (static_stub_Relocation call_pc) no_operand
      else if (id =? MARK_INVOKEVIRTUAL m) || (id =? MARK_INVOKEINTERFACE m)
              || (id =? MARK_INLINE_INVOKEVIRTUAL m) || (id =? MARK_INVOKE_INVALID m)
              || (id =? MARK_INVOKESPECIAL m) || (id =? MARK_INVOKESTATIC m) then
        (if (id =? MARK_INVOKEVIRTUAL m) || (id =? MARK_INVOKEINTERFACE m) then
           (* Convert the initial value of the Klass* slot in an inline cache
              from 0L to Universe::non_oop_word(). *)
           let* c := current_code in
           assert cfg (nativeMovConstReg_at c instruction) "nativeMovConstReg_at" ;;
           assert cfg (MovConstReg_data c instruction =? 0)
             "inline cache Klass* initial value should be 0L" ;;
           patch (fun c => set_data c instruction (non_oop_word cfg))
           (* falls through *)
         else ret tt) ;;
        modify (with_next_call_type id) ;;
        modify (with_invoke_mark_pc instruction)
      else if id =? MARK_IMPLICIT_NULL m then
        modify (fun s => with_implicit_exception_table
                           (_implicit_exception_table s ++ [(pc_offset, pc_offset)]) s)
      else if (id =? MARK_POLL_NEAR m) || (id =? MARK_POLL_FAR m) then
        (if id =? MARK_POLL_NEAR m then
           let* c := current_code in
           let disp := locate_operand c instruction disp32_operand in
           patch (fun c => store_jint c disp (poll_displacement instruction))
           (* falls through *)
         else ret tt) ;;
        instructions_relocate instruction poll_type no_operand
      else if (id =? MARK_POLL_RETURN_NEAR m) || (id =? MARK_POLL_RETURN_FAR m) then
        (if id =? MARK_POLL_RETURN_NEAR m then
           let* c := current_code in
           let disp := locate_operand c instruction disp32_operand in
           patch (fun c => store_jint c disp (poll_displacement instruction))
           (* falls through *)
         else ret tt) ;;
        instructions_relocate instruction poll_return_type no_operand
      else if (id =? MARK_KLASS_PATCHING m) || (id =? MARK_ACCESS_FIELD_PATCHING m) then
        let byte_count := instruction - 1 in
        let byte_skip := instruction - 2 in
        let being_initialized_entry_offset := instruction - 3 in
        let* c := current_code in
        assert cfg (u_char_at c byte_skip =? 5) "unexpected byte_skip" ;;
        assert cfg (Z.of_nat (length references) =? 2)
          "MARK_KLASS_PATCHING/MARK_ACCESS_FIELD_PATCHING needs 2 references" ;;
        let* ref1 := array_at references 0 in
        let* ref2 := array_at references 1 in
        let i_byte_count := jint_sub ref2 ref1 in
        assert cfg (i_byte_count =? i_byte_count mod 256) "invalid offset" ;;
        patch (fun c => store_u_char c byte_count (i_byte_count mod 256)) ;;
        patch (fun c => store_u_char c being_initialized_entry_offset
                          ((u_char_at c byte_count + u_char_at c byte_skip) mod 256)) ;;
        (* we need to correct the offset of a field access - it's created with
           MAX_INT to ensure the correct size, and HotSpot expects 0 *)
        if id =? MARK_ACCESS_FIELD_PATCHING m then
          let* inst := instruction_address ref1 in
          let* c := current_code in
          assert cfg (nativeMovRegMem_at c inst) "nativeMovRegMem_at" ;;
          assert cfg (MovRegMem_offset c inst =? max_jint) "unexpected offset value" ;;
          patch (fun c => set_offset c inst 0)
        else ret tt
      else if id =? MARK_DUMMY_OOP_RELOCATION m then
        instructions_relocate instruction oop_Relocation_immediate imm_operand ;;
        modify (fun s => with_buffer
                  (with_relocs (relocs (_buffer s)
                                ++ [change_reloc_info_for_address instruction])
                     (_buffer s)) s)
      else ShouldNotReachHere
  end.

(** The producer's result, as far as the installer reads it. *)
Record CompilationResult : Type := {
  sites : list Site;
  frameSize : Z;
  targetCode : code;
  targetCodeSize : Z
}.

Definition initialize_fields (comp_result : CompilationResult)
    (method_size_of_parameters : option Z) : M Installer unit :=
  match method_size_of_parameters with
  | Some n => modify (with_parameter_count n)
  | None => ret tt
  end ;;
  (* The frame size we get from the target method does not include the
     return address, so add one word for it here. *)
  modify (with_total_frame_size (jint_add (frameSize comp_result) (HeapWordSize cfg))) ;;
  modify (with_next_call_type (MARK_INVOKE_INVALID (marks cfg))).

Definition dispatch_site (fuel : nat) (site : Site) : M Installer unit :=
  match site with
  | CompilationResult_Call pc_offset target debug_info =>
      site_Call fuel pc_offset target debug_info
  | CompilationResult_Safepoint pc_offset debug_info =>
      site_Safepoint fuel pc_offset debug_info
  | CompilationResult_DataPatch pc_offset kind primitive object alignment inlined =>
      site_DataPatch pc_offset kind primitive object alignment inlined
  | CompilationResult_Mark pc_offset id references =>
      site_Mark pc_offset id references
  | OtherSite _ => fatal "unexpected Site subclass"
  end.

(** perform data and call relocation on the CodeBuffer *)
Definition initialize_buffer (fuel : nat) (comp_result : CompilationResult)
    (insts_begin consts_begin : Z) : M Installer unit :=
  let constants_size := Z.of_nat (length (sites comp_result)) * (BytesPerLong * 2) in
  modify (with_debug_recorder []) ;;
  (* copy the code into the newly created CodeBuffer *)
  modify (with_buffer
            {| mem := targetCode comp_result; insts_start := insts_begin; relocs := [];
               consts_start := consts_begin; consts_end := consts_begin;
               consts_limit := consts_begin + constants_size |}) ;;
  for_each (sites comp_result) (dispatch_site fuel).

(** The part of the constructor that the sites depend on. *)
Definition install (fuel : nat) (comp_result : CompilationResult)
    (method_size_of_parameters : option Z) (insts_begin consts_begin : Z)
  : M Installer unit :=
  initialize_fields comp_result method_size_of_parameters ;;
  initialize_buffer fuel comp_result insts_begin consts_begin.

End Installer.

(** ** Derived notions used in the statements *)

(** The frames of a position chain, innermost first. *)
Fixpoint chain (frame : BytecodeFrame) : list BytecodeFrame :=
  frame :: match caller frame with
           | Some caller_frame => chain caller_frame
           | None => []
           end.

Definition depth (frame : BytecodeFrame) : nat := length (chain frame).

(** The bit of a reference map, read as [is_bit_set] reads it. *)
Definition bit_set (bit_map : BitMap) (i : Z) : bool :=
  match words bit_map !! Z.to_nat (Z.quot i MapWordBits) with
  | Some word => negb (Z.land word (Z.shiftl 1 (Z.rem i MapWordBits)) =? 0)
  | None => false
  end.

Definition oop_assert_message : string :=
  "this register may never be an oop, register map misaligned?".

(** What [describe_scope] was told about a scope. *)
Record ScopeSummary : Set := {
  ss_pc_offset : Z;
  ss_method : Z;
  ss_bci : Z;
  ss_reexecute : bool;
  ss_rethrow : bool
}.

Global Instance ScopeSummary_eq_dec : EqDecision ScopeSummary.
Proof. solve_decision. Defined.

(** The scopes described by a sequence of recorder calls, in call order. *)
Fixpoint described (events : list DebugEvent) : list ScopeSummary :=
  match events with
  | [] => []
  | describe_scope pc m b reexecute rethrow _ _ _ :: rest =>
      {| ss_pc_offset := pc; ss_method := m; ss_bci := b;
         ss_reexecute := reexecute; ss_rethrow := rethrow |} :: described rest
  | _ :: rest => described rest
  end.

(** Modelled from the spec: DebugInformationRecorder::describe_scope
    (debugInfoRec.cpp is not part of the sources at hand).  Each described
    scope is linked to the scope described before it at the same pc as its
    sender, and the runtime enters the chain at the scope described last: the
    chain "when consumed by the runtime's debug-info table" is the call
    sequence read backwards. *)
Definition scope_chain (events : list DebugEvent) : list ScopeSummary :=
  rev (described events).

(** The re-execution flag as a function of the frame alone. *)
Definition reexecute_of (frame : BytecodeFrame) : bool :=
  negb ((bci frame =? -1) || (bci frame =? -2)) && negb (duringCall frame).

Definition summary_of (pc_offset : Z) (frame : BytecodeFrame) : ScopeSummary :=
  {| ss_pc_offset := pc_offset; ss_method := method frame; ss_bci := bci frame;
     ss_reexecute := reexecute_of frame; ss_rethrow := rethrowException frame |}.

(** The oop maps handed to [add_safepoint]. *)
Fixpoint oop_maps (events : list DebugEvent) : list OopMap :=
  match events with
  | [] => []
  | add_safepoint _ _ map :: rest => map :: oop_maps rest
  | _ :: rest => oop_maps rest
  end.

(** Whether the translator reports a second slot for a value: a [long] in a
    CPU register, a [double] in an XMM register, a [long] or [double] stack
    slot or constant. *)
Definition two_slot (cfg : VMConfig) (value : Value) : bool :=
  match value with
  | RegisterValue kind number =>
      match kindToBasicType cfg kind with
      | Some type => if number <? 16 then is_T type T_LONG else is_T type T_DOUBLE
      | None => false
      end
  | StackSlot kind _ _ | Constant kind _ _ =>
      match kindToBasicType cfg kind with
      | Some type => is_T type T_DOUBLE || is_T type T_LONG
      | None => false
      end
  | _ => false
  end.

(** The producer's invariant on a value list: every two-slot value met by
    the loop is immediately followed by the [ILLEGAL] placeholder. *)
Fixpoint placeholders_ok (cfg : VMConfig) (values : list Value) : bool :=
  match values with
  | [] => true
  | value :: rest =>
      if two_slot cfg value then
        match rest with
        | next :: rest' => is_ILLEGAL next && placeholders_ok cfg rest'
        | [] => false
        end
      else placeholders_ok cfg rest
  end.

(** The object values of the store that carry a given virtual-object id:
    one is allocated each time the id is translated afresh. *)
Definition object_values_of (store : list ScopeValue) (id : Z) : list ptr :=
  filter (fun p => ObjectValue_id store p = Some id) (seq 0 (length store)).

(** Every entry of the seen-objects array points to an object value. *)
Definition objects_wf (r : Recorder) : Prop :=
  Forall (fun p => is_Some (ObjectValue_id (sv_store r) p)) (objects r).

(** ** Sample platform and code memory for concrete runs *)

Definition sample_marks : MarkIds :=
  {| MARK_VERIFIED_ENTRY := 1; MARK_UNVERIFIED_ENTRY := 2; MARK_OSR_ENTRY := 3;
     MARK_EXCEPTION_HANDLER_ENTRY := 5; MARK_DEOPT_HANDLER_ENTRY := 6;
     MARK_STATIC_CALL_STUB := 4096; MARK_INVOKE_INVALID := 8192;
     MARK_INVOKEINTERFACE := 8193; MARK_INVOKESTATIC := 8194;
     MARK_INVOKESPECIAL := 8195; MARK_INVOKEVIRTUAL := 8196;
     MARK_INLINE_INVOKEVIRTUAL := 8197; MARK_IMPLICIT_NULL := 12288;
     MARK_POLL_NEAR := 12289; MARK_POLL_RETURN_NEAR := 12290;
     MARK_POLL_FAR := 12291; MARK_POLL_RETURN_FAR := 12292;
     MARK_KLASS_PATCHING := 16384; MARK_DUMMY_OOP_RELOCATION := 16385;
     MARK_ACCESS_FIELD_PATCHING := 16386 |}.

Definition sample_kindToBasicType (ch : ascii) : option BasicType :=
  if Ascii.eqb ch "z" then Some T_BOOLEAN
  else if Ascii.eqb ch "b" then Some T_BYTE
  else if Ascii.eqb ch "s" then Some T_SHORT
  else if Ascii.eqb ch "c" then Some T_CHAR
  else if Ascii.eqb ch "i" then Some T_INT
  else if Ascii.eqb ch "f" then Some T_FLOAT
  else if Ascii.eqb ch "j" then Some T_LONG
  else if Ascii.eqb ch "d" then Some T_DOUBLE
  else if Ascii.eqb ch "a" then Some T_OBJECT
  else if Ascii.eqb ch "-" then Some T_ILLEGAL
  else None.

(** A 64-bit little-endian platform; [debug] selects the build. *)
Definition sample_config (debug : bool) : VMConfig :=
  {| ASSERT := debug; VM_LITTLE_ENDIAN := true; HeapWordSize := 8;
     kindToBasicType := sample_kindToBasicType; longArrayKlassObj := 1000;
     marks := sample_marks;
     NativeCall_instruction_size := 5; NativeJump_instruction_size := 5;
     NativeMovConstReg_instruction_size := 10; constants_alignment := 32;
     non_oop_word := -1; polling_page := 4096; SafepointPollOffset := 256;
     vm_page_size := 4096; getStub := fun id => 65536 + id;
     resolve_virtual_call_stub := 70000; resolve_static_call_stub := 70016;
     resolve_opt_virtual_call_stub := 70032;
     java_code_at := fun _ _ => 0; bytecode_should_reexecute := fun _ => true |}.

Inductive SampleInsn : Set :=
| insn_call | insn_jump | insn_mov_literal64 | insn_call_reg | insn_other.

Global Instance SampleInsn_eq_dec : EqDecision SampleInsn.
Proof. solve_decision. Defined.

Inductive SamplePatch : Set :=
| patch_jump_destination (at_ dest : Z)
| patch_destination (at_ dest : Z)
| patch_data (at_ data : Z)
| patch_offset (at_ offset : Z)
| patch_jlong (at_ v : Z)
| patch_jint (at_ v : Z)
| patch_u_char (at_ v : Z)
| patch_jobject (at_ : Z) (v : option JObject).

(** A code memory that knows which instruction starts where and keeps the
    patches applied to it, oldest first. *)
Record SampleCode : Set := {
  insns : list (Z * SampleInsn);
  patches : list SamplePatch
}.

Fixpoint insn_at (l : list (Z * SampleInsn)) (a : Z) : SampleInsn :=
  match l with
  | [] => insn_other
  | (a', i) :: rest => if a' =? a then i else insn_at rest a
  end.

Definition sample_patch (p : SamplePatch) (c : SampleCode) : SampleCode :=
  {| insns := insns c; patches := patches c ++ [p] |}.

Global Instance SampleCode_NativeInst : NativeInst SampleCode := {|
  is_call c a := bool_decide (insn_at (insns c) a = insn_call);
  is_jump c a := bool_decide (insn_at (insns c) a = insn_jump);
  is_mov_literal64 c a := bool_decide (insn_at (insns c) a = insn_mov_literal64);
  is_call_reg c a := bool_decide (insn_at (insns c) a = insn_call_reg);
  next_instruction_offset c a := 3;
  u_char_at c a := 0;
  nativeCall_at c a := bool_decide (insn_at (insns c) a = insn_call);
  nativeJump_at c a := bool_decide (insn_at (insns c) a = insn_jump);
  nativeMovConstReg_at c a := bool_decide (insn_at (insns c) a = insn_mov_literal64);
  nativeMovRegMem_at c a := true;
  MovConstReg_data c a := 0;
  MovRegMem_offset c a := max_jint;
  locate_operand c a which := a + 3;
  locate_next_instruction c a := a + 7;
  set_jump_destination c a dest := sample_patch (patch_jump_destination a dest) c;
  set_destination c a dest := sample_patch (patch_destination a dest) c;
  set_data c a data := sample_patch (patch_data a data) c;
  set_offset c a offset := sample_patch (patch_offset a offset) c;
  store_jlong c a v := sample_patch (patch_jlong a v) c;
  store_jint c a v := sample_patch (patch_jint a v) c;
  store_u_char c a v := sample_patch (patch_u_char a v) c;
  store_jobject c a v := sample_patch (patch_jobject a v) c
|}.

Definition empty_recorder : Recorder :=
  {| sv_store := []; objects := []; oop_recorder := [] |}.

(** An installer before [initialize_fields]. *)
Definition sample_installer (c : SampleCode) : CodeInstaller SampleCode :=
  {| _total_frame_size := 0; _parameter_count := 0; _next_call_type := 0;
     _invoke_mark_pc := 0; _offsets := []; _implicit_exception_table := [];
     _debug_recorder := []; _recorder := empty_recorder;
     _buffer := {| mem := c; insts_start := 4096; relocs := [];
                   consts_start := 8192; consts_end := 8192;
                   consts_limit := 8192 |} |}.

(** ** Growth of the translation state *)

(** [r'] extends [r]: the store has only grown, the cells of [r] are object
    values of the same id as before (or still none), and the seen-objects
    array has only been appended to. *)
Record extends (r r' : Recorder) : Prop := {
  ext_length : (length (sv_store r) <= length (sv_store r'))%nat;
  ext_ids : forall p, (p < length (sv_store r))%nat ->
            ObjectValue_id (sv_store r') p = ObjectValue_id (sv_store r) p;
  ext_objects : objects r `prefix_of` objects r'
}.

Definition grows (r r' : Recorder) : Prop :=
  extends r r' /\ (objects_wf r -> objects_wf r').

(** A translator computation that, when it returns, has only grown the
    state. *)
Definition growing {A} (m : M Recorder A) : Prop :=
  forall r a r', m r = Ok (a, r') -> grows r r'.

(** The heap cells whose id has no object value in the seen-objects array. *)
Definition unseen (heap : JavaHeap) (r : Recorder) : list VirtualObjectData :=
  filter (fun vo => find_object (sv_store r) (objects r) (vo_id vo) = None) heap.

(** A translator computation that does not exhaust its fuel from the states
    that satisfy [P]. *)
Definition halts {A} (P : Recorder -> Prop) (m : M Recorder A) : Prop :=
  forall r, P r -> m r <> OutOfFuel.

(** Fuel [n] exceeds the number of heap cells still to be registered. *)
Definition budget (heap : JavaHeap) (n : nat) (r : Recorder) : Prop :=
  objects_wf r /\ (length (unseen heap r) < n)%nat.

(** The number of entries the value loop has produced. *)
Definition scope_values_count (l : ScopeLists) : nat :=
  (length (locals l) + length (expressions l) + length (monitors l))%nat.

(** Where the value at index [i] of a frame goes when it is a local or an
    expression. *)
Definition add_scope_value (local_count expression_count i : Z)
    (acc : ScopeLists) (first : ptr) (second : option ptr) : ScopeLists :=
  if i <? local_count then add_local acc first second
  else add_expression acc first second.

Definition is_some {A} (o : option A) : bool :=
  match o with Some _ => true | None => false end.

(** The installer fields that recording scopes leaves alone. *)
Definition same_installation {code} (s s' : CodeInstaller code) : Prop :=
  _total_frame_size s' = _total_frame_size s /\
  _parameter_count s' = _parameter_count s /\
  _next_call_type s' = _next_call_type s /\
  _invoke_mark_pc s' = _invoke_mark_pc s /\
  _offsets s' = _offsets s /\
  _implicit_exception_table s' = _implicit_exception_table s /\
  _buffer s' = _buffer s.

(** What a site may do to the frame size and to the debug recorder: leave
    the first alone and append calls to the second, every oop map among them
    made with that frame size. *)
Definition site_effect {code} (s s' : CodeInstaller code) : Prop :=
  _total_frame_size s' = _total_frame_size s /\
  exists new,
    _debug_recorder s' = _debug_recorder s ++ new /\
    Forall (fun map => om_frame_size map = _total_frame_size s) (oop_maps new).

Definition keeps {code A} (m : M (CodeInstaller code) A) : Prop :=
  forall s a s', m s = Ok (a, s') -> site_effect s s'.

(** The mark ids whose [case] comes before the invocation marks in the
    [switch] of [site_Mark]. *)
Definition entry_mark_ids (m : MarkIds) : list Z :=
  [MARK_UNVERIFIED_ENTRY m; MARK_VERIFIED_ENTRY m; MARK_OSR_ENTRY m;
   MARK_EXCEPTION_HANDLER_ENTRY m; MARK_DEOPT_HANDLER_ENTRY m;
   MARK_STATIC_CALL_STUB m].

(** The marks that describe an upcoming invocation. *)
Definition invoke_mark_ids (m : MarkIds) : list Z :=
  [MARK_INVOKEVIRTUAL m; MARK_INVOKEINTERFACE m; MARK_INLINE_INVOKEVIRTUAL m;
   MARK_INVOKE_INVALID m; MARK_INVOKESPECIAL m; MARK_INVOKESTATIC m].

(** The call types a method call site accepts. *)
Definition valid_call_types (m : MarkIds) : list Z :=
  [MARK_INLINE_INVOKEVIRTUAL m; MARK_INVOKEVIRTUAL m; MARK_INVOKEINTERFACE m;
   MARK_INVOKESTATIC m; MARK_INVOKESPECIAL m].

Definition is_installed_code (target : CallTarget) : bool :=
  match target with HotSpotInstalledCode _ => true | _ => false end.

(** The debug information a site carries, and whether the dispatcher runs
    the scope recorder for it: at every safepoint, and at every call whose
    target is not installed code. *)
Definition site_debug_info (site : Site) : option DebugInfo :=
  match site with
  | CompilationResult_Call _ _ debug_info
  | CompilationResult_Safepoint _ debug_info => debug_info
  | _ => None
  end.

Definition records_scopes (site : Site) : bool :=
  match site with
  | CompilationResult_Call _ target _ => negb (is_installed_code target)
  | CompilationResult_Safepoint _ _ => true
  | _ => false
  end.

(** The calls a site makes on the debug recorder when it registers a
    suspension point at [pc] for debug information whose chain starts at
    [frame]: the scopes described are those of the chain, outermost first. *)
Definition scopes_appended {code} (pc : Z) (frame : BytecodeFrame)
    (s s' : CodeInstaller code) : Prop :=
  exists new,
    _debug_recorder s' = _debug_recorder s ++ new /\
    described new = map (summary_of pc) (rev (chain frame)).

(** ** Sample inputs *)

Definition no_code : SampleCode := {| insns := []; patches := [] |}.

(** A virtual object whose first field is the object itself. *)
Definition cyclic_heap : JavaHeap :=
  [ {| vo_id := 7; vo_javaMirror := 500; vo_klass := 501;
       vo_values := [VirtualObject "a" 0; Constant "i" 5 None] |} ].

Definition cyclic_translated : Recorder :=
  {| sv_store := [ConstantOopWriteValue (Some (JavaObject 500));
                  ObjectValue 7 0 [1%nat; 2%nat]; ConstantIntValue 5];
     objects := [1%nat]; oop_recorder := [] |}.

Definition virtual_frame : BytecodeFrame :=
  {| caller := None; method := 1; bci := 0; values := [VirtualObject "a" 0];
     numLocals := 1; numStack := 0; numLocks := 0; rethrowException := false;
     duringCall := false; leafGraphId := -1 |}.

Definition virtual_info : DebugInfo :=
  {| bytecodePosition := Some virtual_frame; registerRefMap := None;
     frameRefMap := Some {| words := [] |} |}.

(** Two safepoints whose frames mention virtual object 7. *)
Definition two_safepoints : CompilationResult :=
  {| sites := [CompilationResult_Safepoint 10 (Some virtual_info);
               CompilationResult_Safepoint 20 (Some virtual_info)];
     frameSize := 16; targetCode := no_code; targetCodeSize := 32 |}.

Definition no_scope_values : ScopeLists :=
  {| locals := []; expressions := []; monitors := [] |}.

(** What the value loop returns for the list
    [RegisterValue(r0, long), Illegal, StackSlot(0, int)] with two locals and
    one expression: the long register location twice among the locals, the
    stack slot as the expression. *)
Definition scenario_lists : ScopeLists :=
  {| locals := [0%nat; 0%nat]; expressions := [1%nat]; monitors := [] |}.

Definition scenario_recorder : Recorder :=
  {| sv_store := [LocationValue
                    (Location.new_reg_loc Location.lng (Register_as_VMReg rax));
                  LocationValue (Location.new_stk_loc Location.normal 0)];
     objects := []; oop_recorder := [] |}.

(** A safepoint whose frame has one local, a stack slot at offset 8 that is
    addressed from the top of the frame. *)
Definition stack_frame : BytecodeFrame :=
  {| caller := None; method := 1; bci := 3; values := [StackSlot "i" 8 true];
     numLocals := 1; numStack := 0; numLocks := 0; rethrowException := false;
     duringCall := false; leafGraphId := -1 |}.

Definition stack_info : DebugInfo :=
  {| bytecodePosition := Some stack_frame; registerRefMap := Some {| words := [1] |};
     frameRefMap := Some {| words := [] |} |}.

Definition stack_result : CompilationResult :=
  {| sites := [CompilationResult_Safepoint 10 (Some stack_info)];
     frameSize := 16; targetCode := no_code; targetCodeSize := 32 |}.

Definition stack_installed : CodeInstaller SampleCode :=
  Eval vm_compute in
    match install (sample_config true) [] 1 stack_result (Some 0) 4096 8192
            (sample_installer no_code) with
    | Ok (_, s) => s
    | _ => sample_installer no_code
    end.

(** A chain of depth 3: A (outermost, no bytecode index) calls B (during the
    call) calls C (innermost). *)
Definition plain_frame (c : option BytecodeFrame) (m b : Z) (during_call : bool)
  : BytecodeFrame :=
  {| caller := c; method := m; bci := b; values := []; numLocals := 0; numStack := 0;
     numLocks := 0; rethrowException := false; duringCall := during_call;
     leafGraphId := -1 |}.

Definition frame_A : BytecodeFrame := plain_frame None 1 (-1) false.
Definition frame_B : BytecodeFrame := plain_frame (Some frame_A) 2 5 true.
Definition frame_C : BytecodeFrame := plain_frame (Some frame_B) 3 7 false.

Definition chain_recorded : CodeInstaller SampleCode :=
  with_debug_recorder
    [dump_object_pool []; describe_scope 10 1 (-1) false false [] [] [];
     dump_object_pool []; describe_scope 10 2 5 false false [] [] [];
     dump_object_pool []; describe_scope 10 3 7 true false [] [] []]
    (sample_installer no_code).

(** Code with a jump, or a call, at offset 16 of the instruction section. *)
Definition jump_code : SampleCode := {| insns := [(4112, insn_jump)]; patches := [] |}.
Definition call_code : SampleCode := {| insns := [(4112, insn_call)]; patches := [] |}.

(** An invokestatic mark followed by a jump to installed code. *)
Definition stale_marker_result : CompilationResult :=
  {| sites := [CompilationResult_Mark 8 (Some 8194) [];
               CompilationResult_Call 16 (HotSpotInstalledCode 99999) None];
     frameSize := 16; targetCode := jump_code; targetCodeSize := 32 |}.

Definition jump_patched : CodeInstaller SampleCode :=
  with_buffer
    {| mem := {| insns := [(4112, insn_jump)];
                 patches := [patch_jump_destination 4112 99999] |};
       insts_start := 4096;
       relocs := [relocate 4112 runtime_call_Relocation call32_operand];
       consts_start := 8192; consts_end := 8192; consts_limit := 8192 |}
    (sample_installer jump_code).

(** An installer whose constants section holds four bytes and has room. *)
Definition with_room (c : SampleCode) : CodeInstaller SampleCode :=
  with_buffer
    {| mem := c; insts_start := 4096; relocs := []; consts_start := 8192;
       consts_end := 8196; consts_limit := 8256 |}
    (sample_installer c).

Definition constant_patched : CodeInstaller SampleCode :=
  with_buffer
    {| mem := {| insns := []; patches := [patch_jlong 8200 123; patch_jint 4115 4081] |};
       insts_start := 4096;
       relocs := [relocate 4112 (section_word_Relocation 8200) disp32_operand];
       consts_start := 8192; consts_end := 8208; consts_limit := 8256 |}
    (sample_installer no_code).

Definition marked_invokestatic (c : SampleCode) : CodeInstaller SampleCode :=
  with_invoke_mark_pc 4112 (with_next_call_type 8194 (sample_installer c)).

Definition stub_called : CodeInstaller SampleCode :=
  with_next_call_type 8192
    (with_buffer
       {| mem := {| insns := [(4112, insn_call)];
                    patches := [patch_destination 4112 65543] |};
          insts_start := 4096;
          relocs := [relocate 4112 runtime_call_Relocation call32_operand];
          consts_start := 8192; consts_end := 8192; consts_limit := 8192 |}
       (marked_invokestatic call_code)).

Definition method_called : CodeInstaller SampleCode :=
  Eval vm_compute in
    match site_Call (sample_config true) [] 1 16 (JavaMethod true true) (Some stack_info)
            (marked_invokestatic call_code) with
    | Ok (_, s) => s
    | _ => sample_installer no_code
    end.

(** Debug information with the chain A, B, C. *)
Definition chain_info : DebugInfo :=
  {| bytecodePosition := Some frame_C; registerRefMap := None;
     frameRefMap := Some {| words := [] |} |}.

Definition chain_safepoint_recorded : CodeInstaller SampleCode :=
  Eval vm_compute in
    match site_Safepoint (sample_config true) [] 1 10 (Some chain_info)
            (sample_installer no_code) with
    | Ok (_, s) => s
    | _ => sample_installer no_code
    end.

(** ** Relations between the states before and after a run *)

(** A computation that, when it returns, leaves a state related by [R] to
    the state it started from. *)
Definition respects {S A} (R : S -> S -> Prop) (m : M S A) : Prop :=
  forall s a s', m s = Ok (a, s') -> R s s'.

(** ** Stack slots and the frame size *)

(** The scope value at [p] is a stack location at [offset]. *)
Definition stack_location_at (store : list ScopeValue) (p : ptr) (offset : Z) : Prop :=
  exists type, store !! p = Some (LocationValue (Location.new_stk_loc type offset)).

(** What the translation state holds is not lost: a location value stays as
    it is, an object value keeps its id and klass and its field list is only
    appended to. *)
Definition stays (r r' : Recorder) : Prop :=
  (forall p loc, sv_store r !! p = Some (LocationValue loc) ->
                 sv_store r' !! p = Some (LocationValue loc)) /\
  (forall p id klass fields,
      sv_store r !! p = Some (ObjectValue id klass fields) ->
      exists more, sv_store r' !! p = Some (ObjectValue id klass (fields ++ more))).

(** The object value at [q] was made for a virtual object of the heap, and
    for every field value of that object that is a stack slot with the
    add-frame-size flag its field list holds a stack location at the offset
    of the slot plus [total] (in 32 bits). *)
Definition fields_record (heap : JavaHeap) (total : Z) (store : list ScopeValue) (q : ptr)
  : Prop :=
  exists vo klass fields,
    vo ∈ heap /\
    store !! q = Some (ObjectValue (vo_id vo) klass fields) /\
    forall kind offset,
      StackSlot kind offset true ∈ vo_values vo ->
      exists x, x ∈ fields /\ stack_location_at store x (to_jint (offset + total)).

(** The monitor value [m] was made for the owner and the lock data given:
    where either is a stack slot with the add-frame-size flag, the owner is
    a stack location, and the lock is the location, at the offset of the
    slot plus [total] (in 32 bits). *)
Definition monitor_records (total : Z) (store : list ScopeValue) (owner lockData : Value)
    (m : MonitorValue) : Prop :=
  (forall kind offset,
      owner = StackSlot kind offset true ->
      stack_location_at store (mv_owner m) (to_jint (offset + total))) /\
  (forall kind offset,
      lockData = StackSlot kind offset true ->
      exists type, mv_basic_lock m = Location.new_stk_loc type (to_jint (offset + total))).

(** The translation state after a run: nothing recorded is lost, and every
    object value registered during the run has its fields recorded with
    [total]. *)
Definition translated (heap : JavaHeap) (total : Z) (r r' : Recorder) : Prop :=
  stays r r' /\
  forall q, q ∈ objects r' -> q ∈ objects r \/ fields_record heap total (sv_store r') q.

(** The installer after the processing of sites: the frame size is the same,
    nothing recorded is lost, and the debug recorder has been appended to,
    every object value of a pool dumped having its fields recorded with the
    frame size of the installer. *)
Definition sites_effect {code} (heap : JavaHeap) (s s' : CodeInstaller code) : Prop :=
  _total_frame_size s' = _total_frame_size s /\
  stays (_recorder s) (_recorder s') /\
  exists new,
    _debug_recorder s' = _debug_recorder s ++ new /\
    forall objs q,
      dump_object_pool objs ∈ new -> q ∈ objs ->
      fields_record heap (_total_frame_size s) (sv_store (_recorder s')) q.

(** Where the value at index [i] of a frame goes: to the locals or the
    expressions, else to the monitors. *)
Definition is_scope_value (local_count expression_count i : Z) : bool :=
  (i <? local_count) || (i <? jint_add local_count expression_count).

(** The accumulators of the value loop are only appended to. *)
Definition lists_kept (acc out : ScopeLists) : Prop :=
  locals acc ⊆ locals out /\ expressions acc ⊆ expressions out /\
  monitors acc ⊆ monitors out.

(** What the lists [locals], [expressions] and [monitors] hold for the
    values [vs] of a frame, the first of them at index [i]: for a stack slot
    with the add-frame-size flag among the locals and expressions a stack
    location at the offset of the slot plus [total] (in 32 bits), and for
    every monitor a monitor value made with [total]. *)
Definition slots_record (total : Z) (store : list ScopeValue)
    (local_count expression_count i : Z) (vs : list Value)
    (locals expressions : list ptr) (monitors : list MonitorValue) : Prop :=
  (forall n kind offset,
      vs !! n = Some (StackSlot kind offset true) ->
      is_scope_value local_count expression_count (i + Z.of_nat n) = true ->
      exists p, p ∈ locals ++ expressions /\
                stack_location_at store p (to_jint (offset + total))) /\
  (forall n kind owner lockData eliminated,
      vs !! n = Some (code_MonitorValue kind owner lockData eliminated) ->
      is_scope_value local_count expression_count (i + Z.of_nat n) = false ->
      exists m, m ∈ monitors /\ monitor_records total store owner lockData m).

(** Among [events] is the description of a scope for the frame [f] whose
    lists record the stack slots of [f] with [total]. *)
Definition frame_records (total : Z) (store : list ScopeValue)
    (events : list DebugEvent) (f : BytecodeFrame) : Prop :=
  exists pc locals expressions monitors,
    describe_scope pc (method f) (bci f) (reexecute_of f) (rethrowException f)
      locals expressions monitors ∈ events /\
    slots_record total store (numLocals f) (numStack f) 0 (values f)
      locals expressions monitors.

(** ** A sample with stack slots in every position *)

(** A virtual object with a field in a stack slot. *)
Definition slot_heap : JavaHeap :=
  [ {| vo_id := 3; vo_javaMirror := 600; vo_klass := 601;
       vo_values := [StackSlot "i" 40 true] |} ].

(** A frame with a stack slot as local, a virtual object as expression and
    a monitor whose owner and lock are stack slots. *)
Definition slot_frame : BytecodeFrame :=
  {| caller := None; method := 1; bci := 3;
     values := [StackSlot "i" 8 true; VirtualObject "a" 0;
                code_MonitorValue "a" (StackSlot "a" 16 true) (StackSlot "j" 24 true) false];
     numLocals := 1; numStack := 1; numLocks := 1; rethrowException := false;
     duringCall := false; leafGraphId := -1 |}.

Definition slot_info : DebugInfo :=
  {| bytecodePosition := Some slot_frame; registerRefMap := None;
     frameRefMap := Some {| words := [] |} |}.

Definition slot_result : CompilationResult :=
  {| sites := [CompilationResult_Safepoint 10 (Some slot_info)];
     frameSize := 16; targetCode := no_code; targetCodeSize := 32 |}.

Definition slot_installed : CodeInstaller SampleCode :=
  Eval vm_compute in
    match install (sample_config true) slot_heap 2 slot_result (Some 0) 4096 8192
            (sample_installer no_code) with
    | Ok (_, s) => s
    | _ => sample_installer no_code
    end.

(** ** Derived notions for the reference-map decoder *)

Definition oop_type_of (is_oop : bool) : OopTypes :=
  if is_oop then oop_value else value_value.

(** The entries [create_oop_map] makes for the CPU registers, in the order of
    the loop: none when the register map is NULL. *)
Definition register_entries (register_map : option BitMap) : list (VMReg * OopTypes) :=
  match register_map with
  | Some register_map =>
      map (fun i => (Register_as_VMReg (as_Register i), oop_type_of (bit_set register_map i)))
        (seqZ 0 NUM_CPU_REGS)
  | None => []
  end.

(** The entries it makes for the stack slots of the frame map. *)
Definition frame_entries (frame_map : BitMap) : list (VMReg * OopTypes) :=
  map (fun i => (stack2reg (i * 2), oop_type_of (bit_set frame_map i)))
    (seqZ 0 (bitmap_size frame_map)).

(** What the register loop needs of a register map to run through: a first
    word to read, and, in a build with assertions, no bit set for a register
    outside [OOP_ALLOWED]. *)
Definition register_map_ok (cfg : VMConfig) (register_map : option BitMap) : Prop :=
  match register_map with
  | Some register_map =>
      words register_map <> [] /\
      (ASSERT cfg = true ->
       forall i, 0 <= i < NUM_CPU_REGS -> bit_set register_map i = true ->
                 oop_allowed i = true)
  | None => True
  end.

(** The type of a location. *)
Definition location_type (loc : Location.t) : Location.Type_ :=
  match loc with
  | Location.new_reg_loc type _ | Location.new_stk_loc type _ => type
  end.

(** ** Sample inputs for the further properties *)

Definition sample_register_map : BitMap := {| words := [1] |}.
Definition sample_frame_map : BitMap := {| words := [2] |}.

(** The oop map for [rax] holding an oop and the second stack word (slot 2)
    holding one. *)
Definition sample_oop_map : OopMap :=
  {| om_frame_size := 24; om_arg_count := 0;
     om_entries := register_entries (Some sample_register_map)
                   ++ frame_entries sample_frame_map |}.

(** A [double] in [xmm3], translated in an empty store. *)
Definition xmm3_translated : Recorder :=
  {| sv_store := [LocationValue
                    (Location.new_reg_loc Location.dbl
                       (XMMRegister_as_VMReg (as_XMMRegister 3)))];
     objects := []; oop_recorder := [] |}.

(** ** Growth of the scope-value store *)

(** From a store of at least [n] scope values: none has been taken away,
    and those below index [n] are what they were. *)
Definition cells_kept (n : nat) (r r' : Recorder) : Prop :=
  (n <= length (sv_store r))%nat ->
  (length (sv_store r) <= length (sv_store r'))%nat /\
  forall p, (p < n)%nat -> sv_store r' !! p = sv_store r !! p.

(** The scope values of [s] are still there in [s'], unchanged, below the
    ones made since. *)
Definition store_grown {code} (s s' : CodeInstaller code) : Prop :=
  sv_store (_recorder s) `prefix_of` sv_store (_recorder s').

(** ** Derived notions for the value translator *)

(** The number of entries a field value adds to the field list of its
    virtual object: two for a two-slot value, and two for every element of a
    long array. *)
Definition field_slots (cfg : VMConfig) (isLongArray : bool) (field : Value) : nat :=
  if isLongArray || two_slot cfg field then 2 else 1.

(** The state of the store while the fields of a virtual object are
    translated: the object value at [sv], its klass constant at [klass], and
    [k] entries in its field list so far. *)
Definition object_under_construction (sv klass : ptr) (id : Z) (mirror : ScopeValue)
    (k : nat) (r : Recorder) : Prop :=
  (sv < length (sv_store r))%nat /\ (klass < sv)%nat /\
  sv_store r !! klass = Some mirror /\
  exists fields, sv_store r !! sv = Some (ObjectValue id klass fields) /\ length fields = k.


(** A value whose kind is an object or an array. *)
Definition object_kind (cfg : VMConfig) (v : Value) : bool :=
  match kindToBasicType cfg (Value_kind v) with
  | Some type => is_T type T_OBJECT || is_T type T_ARRAY
  | None => false
  end.

(** A value that lives in a CPU register or in a stack slot. *)
Definition in_cpu_register_or_stack (v : Value) : bool :=
  match v with
  | RegisterValue _ number => number <? 16
  | StackSlot _ _ _ => true
  | _ => false
  end.

(** The installer after a safepoint that mentions the cyclic virtual object,
    processed after the installation [stack_installed]. *)
Definition virtual_safepoint_recorded : CodeInstaller SampleCode :=
  Eval vm_compute in
    match dispatch_site (sample_config true) cyclic_heap 2
            (CompilationResult_Safepoint 20 (Some virtual_info)) stack_installed with
    | Ok (_, s) => s
    | _ => stack_installed
    end.



(** A [long] constant, translated in an empty store. *)
Definition long_constant_translated : Recorder :=
  {| sv_store := [ConstantIntValue 0; ConstantLongValue 6];
     objects := []; oop_recorder := [] |}.


Definition sample_monitor_translated : Recorder :=
  {| sv_store := [LocationValue
                    (Location.new_reg_loc Location.oop (Register_as_VMReg rax));
                  LocationValue (Location.new_stk_loc Location.lng 16)];
     objects := []; oop_recorder := [] |}.

Definition sample_monitor_value : MonitorValue :=
  {| mv_owner := 0%nat; mv_basic_lock := Location.new_stk_loc Location.lng 16;
     mv_eliminated := false |}.

(** An object in a stack slot, translated in an empty store. *)
Definition object_slot_translated : Recorder :=
  {| sv_store := [LocationValue (Location.new_stk_loc Location.oop 8)];
     objects := []; oop_recorder := [] |}.

(** ** Derived notions for the scope recorder and the sites *)

(** The object pools dumped by a sequence of recorder calls, in call order. *)
Fixpoint pools (events : list DebugEvent) : list (list ptr) :=
  match events with
  | [] => []
  | dump_object_pool objs :: rest => objs :: pools rest
  | _ :: rest => pools rest
  end.

(** Each pool extends the one dumped before it, and the first extends
    [low]. *)
Fixpoint pools_grow (low : list ptr) (ps : list (list ptr)) : Prop :=
  match ps with
  | [] => True
  | p :: rest => low `prefix_of` p /\ pools_grow p rest
  end.

(** The recorder calls of [record_scope] for the suspension point at [pc]. *)
Definition scope_event (pc : Z) (e : DebugEvent) : bool :=
  match e with
  | dump_object_pool _ => true
  | describe_scope pc' _ _ _ _ _ _ _ => pc' =? pc
  | _ => false
  end.

(** The protocol of the debug recorder: a suspension point is opened by
    [add_safepoint], scopes are described only for the open point and at its
    pc, [end_safepoint] closes it, and none is left open.  [open] is the pc of
    the open point, if there is one. *)
Fixpoint bracketed (open : option Z) (events : list DebugEvent) : bool :=
  match events with
  | [] => negb (is_some open)
  | add_safepoint pc _ _ :: rest =>
      negb (is_some open) && bracketed (Some pc) rest
  | dump_object_pool _ :: rest => is_some open && bracketed open rest
  | describe_scope pc _ _ _ _ _ _ _ :: rest =>
      match open with
      | Some pc' => (pc =? pc') && bracketed open rest
      | None => false
      end
  | end_safepoint pc :: rest =>
      match open with
      | Some pc' => (pc =? pc') && bracketed None rest
      | None => false
      end
  end.

(** The offset of the instruction after a call site, as [site_Call] works it
    out from the instruction it finds at the site. *)
Definition return_offset (cfg : VMConfig) {code} `{!NativeInst code} (c : code)
    (inst pc_offset : Z) : Z :=
  if is_call c inst || is_jump c inst then
    jint_add pc_offset (NativeCall_instruction_size cfg)
  else if is_mov_literal64 c inst then
    jint_add (jint_add pc_offset (NativeMovConstReg_instruction_size cfg)) 3
  else jint_add pc_offset (next_instruction_offset c inst).

(** The value of a field, or of several, is what it was. *)
Definition kept {S X} (f : S -> X) (s s' : S) : Prop := f s' = f s.

(** The recorder calls a site may add: none, or one suspension point, opened
    and closed at the same pc with its scopes in between. *)
Definition site_events (new : list DebugEvent) : Prop :=
  new = [] \/
  exists pc leaf oop_map body,
    new = add_safepoint pc leaf oop_map :: body ++ [end_safepoint pc] /\
    forallb (scope_event pc) body = true.

(** Two virtual objects, the first met in the caller's frame, both in the
    callee's. *)
Definition two_object_heap : JavaHeap :=
  [ {| vo_id := 1; vo_javaMirror := 500; vo_klass := 501; vo_values := [] |};
    {| vo_id := 2; vo_javaMirror := 500; vo_klass := 501; vo_values := [] |} ].

Definition outer_frame : BytecodeFrame :=
  {| caller := None; method := 1; bci := 4; values := [VirtualObject "a" 0];
     numLocals := 1; numStack := 0; numLocks := 0; rethrowException := false;
     duringCall := true; leafGraphId := -1 |}.

Definition inner_frame : BytecodeFrame :=
  {| caller := Some outer_frame; method := 2; bci := 9;
     values := [VirtualObject "a" 1; VirtualObject "a" 0];
     numLocals := 2; numStack := 0; numLocks := 0; rethrowException := false;
     duringCall := false; leafGraphId := 77 |}.

Definition pools_recorded : CodeInstaller SampleCode :=
  Eval vm_compute in
    match record_scope (sample_config true) two_object_heap 2 10 inner_frame
            (sample_installer no_code) with
    | Ok (_, s) => s
    | _ => sample_installer no_code
    end.

(** The part of [site_Call] between the debug information and the reset of
    the pending call type: the instruction is pointed at the stub or, for a
    method, at the resolution stub of the pending call type. *)
Definition patch_call (cfg : VMConfig) {code} `{!NativeInst code} (target : CallTarget)
    (debug_info : option DebugInfo) (c : code) (inst : Z) : M (CodeInstaller code) unit :=
  match target with
  | Long_target global_stub =>
      if is_call c inst then
        assert cfg (nativeCall_at c inst) "nativeCall_at" ;;
        patch (fun c => set_destination c inst (getStub cfg global_stub)) ;;
        instructions_relocate inst runtime_call_Relocation call32_operand
      else if is_mov_literal64 c inst then
        assert cfg (nativeMovConstReg_at c inst) "nativeMovConstReg_at" ;;
        patch (fun c => set_data c inst (getStub cfg global_stub)) ;;
        instructions_relocate inst runtime_call_Relocation imm_operand
      else
        assert cfg (nativeJump_at c inst) "nativeJump_at" ;;
        patch (fun c => set_jump_destination c inst (getStub cfg global_stub)) ;;
        instructions_relocate inst runtime_call_Relocation call32_operand
  | _ =>
      assert cfg (negb (is_Long_target target)) "unexpected JavaMethod" ;;
      assert cfg (bool_decide (is_Some debug_info)) "debug info expected" ;;
      let* next_call_type := gets _next_call_type in
      let* invoke_mark_pc := gets _invoke_mark_pc in
      if next_call_type =? MARK_INLINE_INVOKEVIRTUAL (marks cfg) then ret tt
      else if (next_call_type =? MARK_INVOKEVIRTUAL (marks cfg))
              || (next_call_type =? MARK_INVOKEINTERFACE (marks cfg)) then
        assert cfg (bool_decide (method_is_static target <> Some true))
          "cannot call static method with invokeinterface" ;;
        assert cfg (nativeCall_at c inst) "nativeCall_at" ;;
        patch (fun c => set_destination c inst (resolve_virtual_call_stub cfg)) ;;
        instructions_relocate inst (virtual_call_Relocation invoke_mark_pc)
          call32_operand
      else if next_call_type =? MARK_INVOKESTATIC (marks cfg) then
        assert cfg (bool_decide (method_is_static target <> Some false))
          "cannot call non-static method with invokestatic" ;;
        assert cfg (nativeCall_at c inst) "nativeCall_at" ;;
        patch (fun c => set_destination c inst (resolve_static_call_stub cfg)) ;;
        instructions_relocate inst static_call_type call32_operand
      else if next_call_type =? MARK_INVOKESPECIAL (marks cfg) then
        assert cfg (bool_decide (method_is_static target <> Some true))
          "cannot call static method with invokespecial" ;;
        assert cfg (nativeCall_at c inst) "nativeCall_at" ;;
        patch (fun c => set_destination c inst (resolve_opt_virtual_call_stub cfg)) ;;
        instructions_relocate inst opt_virtual_call_type call32_operand
      else fatal "invalid _next_call_type value"
  end.

(** A long constant patched into the instruction at offset 16. *)
Definition inlined_patched : CodeInstaller SampleCode :=
  Eval vm_compute in
    match site_DataPatch (sample_config true) 16 "j" 123 None 8 true
            (sample_installer no_code) with
    | Ok (_, s) => s
    | _ => sample_installer no_code
    end.

Lemma bind_Ok {S A B} (m : M S A) (k : A -> M S B) s b s' :
  bind m k s = Ok (b, s') ->
  exists a s1, m s = Ok (a, s1) /\ k a s1 = Ok (b, s').
Proof.
  unfold bind. destruct (m s) as [[a s1]| | |]; try discriminate.
  intros H. exists a, s1. split; [reflexivity | exact H].
Qed.

Lemma assert_Ok cfg {S} (p : bool) msg (s : S) u s' :
  assert cfg p msg s = Ok (u, s') -> s' = s /\ (ASSERT cfg = true -> p = true).
Proof.
  unfold assert, ret, fatal.
  destruct (ASSERT cfg), p; intros H; try discriminate;
    inversion H; subst; split; auto; discriminate.
Qed.

Lemma assert_true cfg {S} msg (s : S) : assert cfg true msg s = Ok (tt, s).
Proof. unfold assert, ret. destruct (ASSERT cfg); reflexivity. Qed.

Lemma assert_product cfg {S} p msg (s : S) :
  ASSERT cfg = false -> assert cfg p msg s = Ok (tt, s).
Proof. unfold assert, ret. intros ->. reflexivity. Qed.

Lemma assert_debug_false cfg {S} msg (s : S) :
  ASSERT cfg = true -> assert cfg false msg s = Fatal msg.
Proof. unfold assert, fatal. intros ->. reflexivity. Qed.

Section DecoderFacts.
Context (cfg : VMConfig) {S : Type}.

Lemma cpu_index_cases i :
  0 <= i < NUM_CPU_REGS ->
  i = 0 \/ i = 1 \/ i = 2 \/ i = 3 \/ i = 4 \/ i = 5 \/ i = 6 \/ i = 7 \/
  i = 8 \/ i = 9 \/ i = 10 \/ i = 11 \/ i = 12 \/ i = 13 \/ i = 14 \/ i = 15.
Proof. unfold NUM_CPU_REGS. simpl. lia. Qed.

Lemma get_hotspot_reg_cpu i (s : S) :
  0 <= i < NUM_CPU_REGS ->
  get_hotspot_reg cfg i s = Ok (Register_as_VMReg (as_Register i), s).
Proof.
  intros Hi. apply cpu_index_cases in Hi.
  unfold get_hotspot_reg, bind.
  repeat (destruct Hi as [-> | Hi]; [rewrite assert_true; reflexivity|]).
  subst. rewrite assert_true. reflexivity.
Qed.

Lemma is_bit_set_cpu bm i (s : S) :
  0 <= i < NUM_CPU_REGS -> words bm <> [] ->
  is_bit_set cfg bm i s = Ok (bit_set bm i, s).
Proof.
  intros Hi Hw. unfold is_bit_set, bit_set, bind.
  assert (Hq : Z.quot i MapWordBits = 0).
  { apply Z.quot_small. unfold NUM_CPU_REGS, MapWordBits in *. simpl in Hi. lia. }
  rewrite Hq. destruct (words bm) as [|w ws] eqn:E; [congruence|].
  simpl. rewrite assert_true. reflexivity.
Qed.
End DecoderFacts.

Lemma bind_Fatal {S A B} (m : M S A) (k : A -> M S B) s msg :
  bind m k s = Fatal msg ->
  m s = Fatal msg \/ exists a s1, m s = Ok (a, s1) /\ k a s1 = Fatal msg.
Proof.
  unfold bind. destruct (m s) as [[a s1]| | |]; try discriminate.
  - intros H. right. exists a, s1. auto.
  - intros H. left. inversion H. reflexivity.
Qed.

Lemma foldM_Fatal {S A B} (body : B -> A -> M S B) l b s msg :
  foldM body l b s = Fatal msg ->
  exists x b' s', x ∈ l /\ body b' x s' = Fatal msg.
Proof.
  revert b s. induction l as [|x l IH]; intros b s; simpl.
  - discriminate.
  - intros H. apply bind_Fatal in H as [H | (b1 & s1 & _ & H)].
    + exists x, b, s. split; [left | exact H].
    + destruct (IH _ _ H) as (y & b' & s' & Hy & Hb).
      exists y, b', s'. split; [right; exact Hy | exact Hb].
Qed.

Lemma foldM_first_Fatal {S A B} (body : B -> A -> M S B) l b s msg :
  (forall b x, x ∈ l -> (exists b', body b x s = Ok (b', s)) \/ body b x s = Fatal msg) ->
  (exists x, x ∈ l /\ forall b, body b x s = Fatal msg) ->
  foldM body l b s = Fatal msg.
Proof.
  revert b. induction l as [|x l IH]; intros b Hstep (y & Hy & Hbad).
  - inversion Hy.
  - simpl. unfold bind.
    destruct (Hstep b x) as [(b' & Hok) | Hf]; [left | |].
    + rewrite Hok. apply elem_of_cons in Hy as [->|Hy].
      * rewrite Hbad in Hok. discriminate.
      * apply IH.
        -- intros b0 x0 Hx0. apply Hstep. right. exact Hx0.
        -- exists y. split; [exact Hy | exact Hbad].
    + rewrite Hf. reflexivity.
Qed.

Section C6.
Context (cfg : VMConfig) {S : Type}.

Lemma is_bit_set_inv bm i (s : S) :
  0 <= i ->
  match is_bit_set cfg bm i s with
  | Ok (b, s') => s' = s /\ b = bit_set bm i
  | Fatal msg => msg = "unexpected index"%string
  | _ => True
  end.
Proof.
  intros Hi. unfold is_bit_set, bit_set, bind, assert.
  assert (Hq : 0 <= Z.quot i MapWordBits) by (apply Z.quot_pos; unfold MapWordBits; lia).
  destruct (ASSERT cfg); simpl.
  - destruct (_ && _); simpl; [|reflexivity].
    destruct (0 <=? _) eqn:E; [|lia].
    destruct (words bm !! _); simpl; auto.
  - destruct (0 <=? _) eqn:E; [|lia].
    destruct (words bm !! _); simpl; auto.
Qed.

Lemma bit_set_words bm i :
  bit_set bm i = true -> 0 <= i < NUM_CPU_REGS -> words bm <> [].
Proof.
  unfold bit_set. intros H Hi Hw. rewrite Hw in H. rewrite lookup_nil in H. discriminate.
Qed.

Lemma register_body_run rm map i (s : S) :
  0 <= i < NUM_CPU_REGS -> words rm <> [] ->
  register_body cfg rm map i s =
    if bit_set rm i then
      if ASSERT cfg && negb (oop_allowed i) then Fatal oop_assert_message
      else Ok (set_oop map (Register_as_VMReg (as_Register i)), s)
    else Ok (set_value map (Register_as_VMReg (as_Register i)), s).
Proof.
  intros Hi Hw. unfold register_body, bind.
  rewrite is_bit_set_cpu, get_hotspot_reg_cpu by assumption.
  destruct (bit_set rm i); [|reflexivity].
  unfold assert, ret, fatal. destruct (ASSERT cfg), (oop_allowed i); reflexivity.
Qed.

Lemma register_body_Fatal rm map i (s : S) :
  0 <= i < NUM_CPU_REGS ->
  register_body cfg rm map i s = Fatal oop_assert_message ->
  ASSERT cfg = true /\ bit_set rm i = true /\ oop_allowed i = false.
Proof.
  intros Hi. unfold register_body. intros H.
  apply bind_Fatal in H as [H | (b & s1 & Hb & H)].
  { pose proof (is_bit_set_inv rm i s (proj1 Hi)) as Hinv. rewrite H in Hinv. discriminate. }
  pose proof (is_bit_set_inv rm i s (proj1 Hi)) as Hinv. rewrite Hb in Hinv.
  destruct Hinv as [-> ->].
  cbv beta in H. unfold bind in H at 1.
  rewrite get_hotspot_reg_cpu in H by assumption.
  destruct (bit_set rm i); [|discriminate].
  unfold bind, assert, ret, fatal in H.
  destruct (ASSERT cfg), (oop_allowed i); try discriminate. auto.
Qed.
End C6.

Lemma frame_body_not_oop_Fatal cfg {S} fm map i (s : S) :
  0 <= i -> frame_body cfg fm map i s <> Fatal oop_assert_message.
Proof.
  intros Hi H. unfold frame_body in H.
  pose proof (is_bit_set_inv cfg fm i s Hi) as Hinv.
  apply bind_Fatal in H as [H | (b & s1 & Hb & H)].
  - rewrite H in Hinv. discriminate.
  - cbv beta in H. destruct b; discriminate.
Qed.

(** C6 (as amended): decoding a reference map stops with the assertion
    "this register may never be an oop" exactly when the build has assertions
    (ASSERT) and a bit is set for a CPU register outside the allowed subset.
    So a debug build fails on such a bit, no build reaches the error when every
    set register bit is allowed, and a product build, where the assertion is
    compiled out, never reports it. *)
Theorem C6_oop_assert cfg {S} tfs pc rm fm (s : S) :
  create_oop_map cfg tfs pc (Some rm) fm s = Fatal oop_assert_message <->
  (ASSERT cfg = true /\
   exists i, 0 <= i < NUM_CPU_REGS /\ bit_set rm i = true /\ oop_allowed i = false).
Proof.
  split.
  - unfold create_oop_map. intros H.
    apply bind_Fatal in H as [H | (map & s1 & _ & H)].
    + apply foldM_Fatal in H as (x & b & s' & Hx & H).
      apply elem_of_seqZ in Hx.
      apply register_body_Fatal in H as (Ha & Hb & Hc); [|lia].
      split; [exact Ha|]. exists x. split; [lia | auto].
    + destruct fm as [fm|]; [|discriminate].
      apply foldM_Fatal in H as (x & b & s' & Hx & H).
      apply elem_of_seqZ in Hx.
      apply frame_body_not_oop_Fatal in H; [contradiction | lia].
  - intros (Hassert & i & Hi & Hset & Hbad).
    pose proof (bit_set_words _ _ Hset Hi) as Hw.
    unfold create_oop_map, bind.
    rewrite (foldM_first_Fatal (register_body cfg rm) _ _ s oop_assert_message);
      [reflexivity | |].
    + intros b x Hx. apply elem_of_seqZ in Hx.
      rewrite register_body_run by (assumption || lia).
      destruct (bit_set rm x); [|left; eauto].
      destruct (ASSERT cfg && negb (oop_allowed x)); [right; reflexivity | left; eauto].
    + exists i. split; [apply elem_of_seqZ; lia|].
      intros b. rewrite register_body_run by assumption.
      rewrite Hset, Hassert, Hbad. reflexivity.
Qed.

Lemma C6_product_build_counterexample :
  bit_set {| words := [16] |} 4 = true /\ oop_allowed 4 = false /\
  exists map,
    create_oop_map (sample_config false) 24 0
      (Some {| words := [16] |}) (Some {| words := [] |}) tt = Ok (map, tt) /\
    (Register_as_VMReg rsp, oop_value) ∈ om_entries map.
Proof.
  split; [reflexivity|]. split; [reflexivity|].
  eexists. split; [vm_compute; reflexivity|].
  vm_compute. do 4 right. left.
Qed.

Lemma C6_oop_assert_witness :
  create_oop_map (sample_config true) 24 0
    (Some {| words := [16] |}) (Some {| words := [] |}) tt = Fatal oop_assert_message.
Proof.
  apply (proj2 (C6_oop_assert (sample_config true) 24 0 {| words := [16] |}
                  (Some {| words := [] |}) tt)).
  split; [reflexivity|]. exists 4. split; [vm_compute; intuition discriminate|].
  split; reflexivity.
Defined.



Lemma ObjectValue_id_lt store p id :
  ObjectValue_id store p = Some id -> (p < length store)%nat.
Proof.
  unfold ObjectValue_id. destruct (store !! p) eqn:E; [|discriminate].
  intros _. eapply lookup_lt_Some; eauto.
Qed.

Lemma extends_refl r : extends r r.
Proof. split; [lia | auto | reflexivity]. Qed.

Lemma extends_trans r1 r2 r3 : extends r1 r2 -> extends r2 r3 -> extends r1 r3.
Proof.
  intros [L1 I1 O1] [L2 I2 O2]. split.
  - lia.
  - intros p Hp. rewrite I2 by lia. apply I1, Hp.
  - etransitivity; eauto.
Qed.

Lemma grows_refl r : grows r r.
Proof. split; [apply extends_refl | auto]. Qed.

Lemma grows_trans r1 r2 r3 : grows r1 r2 -> grows r2 r3 -> grows r1 r3.
Proof. intros [E1 W1] [E2 W2]. split; [eapply extends_trans; eauto | auto]. Qed.

Lemma objects_wf_extends r r' :
  objects r' = objects r -> extends r r' -> objects_wf r -> objects_wf r'.
Proof.
  intros Ho [L I _] Hwf. unfold objects_wf in *. rewrite Ho.
  eapply Forall_impl; [exact Hwf|]. intros p [id Hid]. simpl in *.
  exists id. rewrite I; [exact Hid | eapply ObjectValue_id_lt; eauto].
Qed.

Lemma growing_ret {A} (a : A) : growing (ret a).
Proof. intros r a' r' H. inversion H. apply grows_refl. Qed.

Lemma growing_fatal {A} msg : growing (@fatal Recorder A msg).
Proof. intros r a r' H. discriminate. Qed.

Lemma growing_undefined {A} msg : growing (@undefined Recorder A msg).
Proof. intros r a r' H. discriminate. Qed.

Lemma growing_out_of_fuel {A} : growing (@out_of_fuel Recorder A).
Proof. intros r a r' H. discriminate. Qed.

Lemma growing_bind {A B} (m : M Recorder A) (k : A -> M Recorder B) :
  growing m -> (forall a, growing (k a)) -> growing (bind m k).
Proof.
  intros Hm Hk r b r' H. apply bind_Ok in H as (a & r1 & H1 & H2).
  eapply grows_trans; [eapply Hm | eapply Hk]; eauto.
Qed.

Lemma growing_get : growing get.
Proof. intros r a r' H. inversion H. apply grows_refl. Qed.

Lemma growing_assert cfg p msg : growing (assert cfg p msg).
Proof.
  unfold assert. destruct (ASSERT cfg); [destruct p|];
    auto using growing_ret, growing_fatal.
Qed.

Lemma ObjectValue_id_app store v p :
  (p < length store)%nat -> ObjectValue_id (store ++ [v]) p = ObjectValue_id store p.
Proof. intros Hp. unfold ObjectValue_id. rewrite lookup_app_l by exact Hp. reflexivity. Qed.

Lemma new_sv_extends v r : 
  extends r {| sv_store := sv_store r ++ [v]; objects := objects r;
               oop_recorder := oop_recorder r |}.
Proof.
  split; simpl.
  - rewrite length_app. lia.
  - intros p Hp. apply ObjectValue_id_app, Hp.
  - reflexivity.
Qed.

Lemma growing_new_sv v : growing (new_sv v).
Proof.
  intros r p r' H. unfold new_sv in H. inversion H; subst. split.
  - apply new_sv_extends.
  - apply objects_wf_extends; [reflexivity | apply new_sv_extends].
Qed.

Lemma growing_find_index klass : growing (find_index klass).
Proof.
  intros r a r' H. unfold find_index in H.
  destruct (bool_decide _); inversion H; subst; [apply grows_refl|].
  assert (E : extends r {| sv_store := sv_store r; objects := objects r;
                           oop_recorder := oop_recorder r ++ [klass] |}).
  { split; simpl; [lia | auto | reflexivity]. }
  split; [exact E | apply objects_wf_extends; [reflexivity | exact E]].
Qed.

Lemma ObjectValue_id_insert store sv id klass fields fields' p :
  store !! sv = Some (ObjectValue id klass fields) ->
  ObjectValue_id (<[sv := ObjectValue id klass fields']> store) p = ObjectValue_id store p.
Proof.
  intros Hsv. unfold ObjectValue_id.
  destruct (decide (sv = p)) as [->|Hne].
  - rewrite list_lookup_insert_eq by (eapply lookup_lt_Some; eauto).
    rewrite Hsv. reflexivity.
  - rewrite list_lookup_insert_ne by exact Hne. reflexivity.
Qed.

Lemma growing_field_values_append sv x : growing (field_values_append sv x).
Proof.
  intros r a r' H. unfold field_values_append in H.
  destruct (sv_store r !! sv) as [[| | | |id klass fields]|] eqn:E; try discriminate.
  inversion H; subst; clear H.
  match goal with |- grows r ?r1 => assert (Ex : extends r r1) end.
  { split; simpl.
    - rewrite length_insert. lia.
    - intros p _. eapply ObjectValue_id_insert; eauto.
    - reflexivity. }
  split; [exact Ex | apply objects_wf_extends; [reflexivity | exact Ex]].
Qed.

Lemma growing_for_each {A} (l : list A) (body : A -> M Recorder unit) :
  (forall x, growing (body x)) -> growing (for_each l body).
Proof.
  intros Hb. induction l as [|x l IH]; simpl.
  - apply growing_ret.
  - apply growing_bind; auto.
Qed.

(** Allocating an object value and registering it. *)
Lemma growing_register {A} id klass (k : ptr -> M Recorder A) :
  (forall sv, growing (k sv)) ->
  growing (let* sv := new_sv (ObjectValue id klass []) in objects_append sv ;; k sv).
Proof.
  intros Hk r a r' H.
  apply bind_Ok in H as (sv & r1 & H1 & H).
  apply bind_Ok in H as (u & r2 & H2 & H).
  unfold new_sv in H1. inversion H1; subst; clear H1.
  unfold objects_append in H2. simpl in H2. inversion H2; subst; clear H2.
  eapply grows_trans; [|eapply Hk; eauto].
  split.
  - split; simpl.
    + rewrite length_app. lia.
    + intros p Hp. apply ObjectValue_id_app, Hp.
    + apply prefix_app_r. reflexivity.
  - unfold objects_wf. simpl. intros Hwf. apply Forall_app. split.
    + eapply Forall_impl; [exact Hwf|]. intros p [id' Hid]. simpl in *.
      exists id'. rewrite ObjectValue_id_app; [exact Hid | eapply ObjectValue_id_lt; eauto].
    + constructor; [|constructor]. exists id. unfold ObjectValue_id.
      rewrite lookup_app_r by lia. rewrite Nat.sub_diag. reflexivity.
Qed.

Ltac growing_step :=
  first
    [ apply growing_ret | apply growing_fatal | apply growing_undefined
    | apply growing_out_of_fuel | apply growing_get | apply growing_assert
    | apply growing_new_sv | apply growing_find_index
    | apply growing_field_values_append
    | apply growing_register; intros
    | apply growing_for_each; intros
    | apply growing_bind; [|intros]
    | match goal with
      | |- growing (match ?x with _ => _ end) => destruct x
      end ].

Section TranslatorFacts.
Context (cfg : VMConfig) (heap : JavaHeap).

Lemma growing_record_metadata_in_constant kind prim obj :
  growing (record_metadata_in_constant cfg kind prim obj).
Proof. unfold record_metadata_in_constant. repeat growing_step. Qed.

Lemma growing_Value_type v : growing (Value_type cfg v).
Proof. unfold Value_type. repeat growing_step. Qed.

Lemma growing_field_body translate isLongArray sv field :
  (forall v, growing (translate v)) ->
  growing (field_body cfg translate isLongArray sv field).
Proof.
  intros Ht. unfold field_body.
  apply growing_bind; [apply Ht|]. intros [value cur_second].
  repeat growing_step.
Qed.

Lemma growing_get_hotspot_value fuel v tfs :
  growing (get_hotspot_value cfg heap fuel v tfs).
Proof.
  revert v. induction fuel as [|fuel IH]; intros v; simpl.
  - apply growing_out_of_fuel.
  - destruct (is_ILLEGAL v); [repeat growing_step|].
    apply growing_bind; [apply growing_Value_type|]. intros type.
    destruct v; try apply growing_fatal.
    + repeat growing_step.
    + repeat growing_step.
    + apply growing_bind; [apply growing_record_metadata_in_constant|]. intros _.
      repeat growing_step.
    + destruct (heap !! address); [|apply growing_undefined].
      apply growing_bind; [apply growing_get|]. intros s.
      destruct (find_object _ _ _); [apply growing_ret|].
      apply growing_bind; [apply growing_new_sv|]. intros klass.
      apply growing_register. intros sv.
      apply growing_bind; [|intros; apply growing_ret].
      apply growing_for_each. intros field.
      apply growing_field_body. intros fv. apply IH.
Qed.
End TranslatorFacts.

Lemma find_object_stable store store' objs more id p :
  Forall (fun q => is_Some (ObjectValue_id store q)) objs ->
  (forall q, (q < length store)%nat -> ObjectValue_id store' q = ObjectValue_id store q) ->
  find_object store objs id = Some p ->
  find_object store' (objs ++ more) id = Some p.
Proof.
  intros Hwf Hids. induction Hwf as [|q objs [id' Hq] Hwf IH]; simpl.
  - discriminate.
  - rewrite Hids by (eapply ObjectValue_id_lt; eauto). rewrite Hq.
    destruct (id' =? id); auto.
Qed.

Lemma find_object_extends r r' id p :
  objects_wf r -> extends r r' ->
  find_object (sv_store r) (objects r) id = Some p ->
  find_object (sv_store r') (objects r') id = Some p.
Proof.
  intros Hwf [_ Hids [more ->]]. apply find_object_stable; assumption.
Qed.

Lemma find_object_register store objs id klass :
  Forall (fun q => is_Some (ObjectValue_id store q)) objs ->
  find_object store objs id = None ->
  find_object (store ++ [ObjectValue id klass []]) (objs ++ [length store]) id
  = Some (length store).
Proof.
  intros Hwf. induction Hwf as [|q objs [id' Hq] Hwf IH]; simpl.
  - intros _. unfold ObjectValue_id. rewrite lookup_app_r by lia.
    rewrite Nat.sub_diag. simpl. rewrite Z.eqb_refl. reflexivity.
  - rewrite Hq. rewrite ObjectValue_id_app by (eapply ObjectValue_id_lt; eauto).
    rewrite Hq. destruct (id' =? id); [discriminate | exact IH].
Qed.

Section Sharing.
Context (cfg : VMConfig) (heap : JavaHeap).

Lemma Value_type_Ok v r t r' : Value_type cfg v r = Ok (t, r') -> r' = r.
Proof.
  unfold Value_type. destruct (kindToBasicType cfg _); [|discriminate].
  intros H. inversion H. reflexivity.
Qed.

(** The first translation of a virtual object leaves its id registered with
    the pointer it returns. *)
Lemma get_hotspot_value_registers fuel kind address tfs r p second r' vo :
  objects_wf r -> heap !! address = Some vo ->
  get_hotspot_value cfg heap fuel (VirtualObject kind address) tfs r = Ok ((p, second), r') ->
  second = None /\
  find_object (sv_store r') (objects r') (vo_id vo) = Some p.
Proof.
  intros Hwf Hvo H. destruct fuel as [|fuel]; [discriminate|].
  simpl in H. apply bind_Ok in H as (t & r0 & Ht & H).
  apply Value_type_Ok in Ht. subst r0. rewrite Hvo in H.
  apply bind_Ok in H as (s & r0 & Hs & H). unfold get in Hs. injection Hs as <- <-.
  destruct (find_object (sv_store r) (objects r) (vo_id vo)) as [obj|] eqn:Hfind.
  - unfold ret in H. injection H as <- <- <-. auto.
  - apply bind_Ok in H as (klass & r1 & Hk & H).
    unfold new_sv in Hk. injection Hk as <- <-.
    apply bind_Ok in H as (sv & r2 & Hsv & H).
    unfold new_sv in Hsv. injection Hsv as <- <-.
    apply bind_Ok in H as (u & r3 & Hap & H).
    unfold objects_append in Hap. injection Hap as <- <-.
    apply bind_Ok in H as (u' & r4 & Hloop & H).
    unfold ret in H. injection H as <- <- <-. split; [reflexivity|].
    simpl in Hloop.
    match type of Hloop with for_each _ _ ?r3 = _ => set (r3' := r3) in * end.
    assert (Hwf3 : objects_wf r3').
    { unfold objects_wf, r3'. simpl. apply Forall_app. split.
      - eapply Forall_impl; [exact Hwf|]. intros q [id' Hq]. simpl in *. exists id'.
        rewrite !ObjectValue_id_app; [exact Hq | eapply ObjectValue_id_lt; eauto |].
        rewrite length_app. apply ObjectValue_id_lt in Hq. lia.
      - constructor; [|constructor]. exists (vo_id vo). unfold ObjectValue_id.
        rewrite lookup_app_r by lia. rewrite Nat.sub_diag. reflexivity. }
    assert (Hg : grows r3' r4).
    { eapply (growing_for_each _ _); [|exact Hloop].
      intros field. apply growing_field_body. intros fv.
      apply growing_get_hotspot_value. }
    apply (find_object_extends r3' r4); [exact Hwf3 | apply Hg |].
    unfold r3'. simpl.
    apply find_object_register.
    + eapply Forall_impl; [exact Hwf|]. intros q [id' Hq]. simpl in *. exists id'.
      rewrite ObjectValue_id_app; [exact Hq | eapply ObjectValue_id_lt; eauto].
    + clear -Hfind Hwf. revert Hfind. unfold objects_wf in Hwf.
      induction Hwf as [|q objs [id' Hq] Hwf IH]; simpl; [auto|].
      rewrite Hq. rewrite ObjectValue_id_app by (eapply ObjectValue_id_lt; eauto).
      rewrite Hq. destruct (id' =? vo_id vo); [discriminate | exact IH].
Qed.

(** A later translation of the same id, in any state grown from there, finds
    the object value and allocates nothing. *)
Lemma get_hotspot_value_hit fuel kind address tfs r p vo :
  heap !! address = Some vo ->
  is_Some (kindToBasicType cfg kind) ->
  find_object (sv_store r) (objects r) (vo_id vo) = Some p ->
  get_hotspot_value cfg heap (S fuel) (VirtualObject kind address) tfs r = Ok ((p, None), r).
Proof.
  intros Hvo [t Ht] Hfind. simpl. unfold bind, Value_type. simpl. rewrite Ht. simpl.
  rewrite Hvo. simpl. rewrite Hfind. reflexivity.
Qed.
End Sharing.

(** *** Termination *)


Lemma halts_weaken {A} (P : Recorder -> Prop) (m : M Recorder A) :
  halts (fun _ => True) m -> halts P m.
Proof. intros H r _. apply H. exact I. Qed.

Lemma halts_bind {A B} (P Q : Recorder -> Prop) (m : M Recorder A) (k : A -> M Recorder B) :
  halts P m ->
  (forall r a r', P r -> m r = Ok (a, r') -> Q r') ->
  (forall a, halts Q (k a)) ->
  halts P (bind m k).
Proof.
  intros Hm Hpost Hk r HP. unfold bind.
  destruct (m r) as [[a r']| | |] eqn:E; try discriminate.
  - eapply Hk, Hpost; eauto.
  - exfalso. eapply Hm; eauto.
Qed.

Lemma halts_bind_any {A B} (m : M Recorder A) (k : A -> M Recorder B) :
  halts (fun _ => True) m -> (forall a, halts (fun _ => True) (k a)) ->
  halts (fun _ => True) (bind m k).
Proof. intros Hm Hk. eapply halts_bind with (Q := fun _ => True); eauto. Qed.

Lemma halts_ret {A} P (a : A) : halts P (ret a).
Proof. intros r _. discriminate. Qed.
Lemma halts_fatal {A} P msg : halts P (@fatal Recorder A msg).
Proof. intros r _. discriminate. Qed.
Lemma halts_undefined {A} P msg : halts P (@undefined Recorder A msg).
Proof. intros r _. discriminate. Qed.
Lemma halts_get P : halts P get.
Proof. intros r _. discriminate. Qed.
Lemma halts_new_sv P v : halts P (new_sv v).
Proof. intros r _. discriminate. Qed.
Lemma halts_objects_append P p : halts P (objects_append p).
Proof. intros r _. discriminate. Qed.
Lemma halts_assert cfg P p msg : halts P (assert cfg p msg).
Proof. unfold assert. destruct (ASSERT cfg); [destruct p|]; intros r _; discriminate. Qed.
Lemma halts_find_index P k : halts P (find_index k).
Proof. intros r _. unfold find_index. destruct (bool_decide _); discriminate. Qed.
Lemma halts_field_values_append P sv x : halts P (field_values_append sv x).
Proof.
  intros r _. unfold field_values_append.
  destruct (sv_store r !! sv) as [[| | | |]|]; discriminate.
Qed.

Ltac halts_step :=
  first
    [ apply halts_ret | apply halts_fatal | apply halts_undefined
    | apply halts_get | apply halts_assert | apply halts_new_sv
    | apply halts_find_index | apply halts_field_values_append
    | apply halts_objects_append
    | apply halts_bind_any; [|intros]
    | match goal with
      | |- halts _ (match ?x with _ => _ end) => destruct x
      end ].

Lemma halts_for_each {A} (Q : Recorder -> Prop) (l : list A) (body : A -> M Recorder unit) :
  (forall x, halts Q (body x)) ->
  (forall x r u r', Q r -> body x r = Ok (u, r') -> Q r') ->
  halts Q (for_each l body).
Proof.
  intros Hh Hq. induction l as [|x l IH]; simpl.
  - apply halts_ret.
  - eapply halts_bind; [apply Hh | | intros; apply IH]. intros r a r'. apply Hq.
Qed.

Lemma filter_length_le {A} (P Q : A -> Prop) `{!forall x, Decision (P x)}
    `{!forall x, Decision (Q x)} (l : list A) :
  (forall x, Q x -> P x) -> (length (filter Q l) <= length (filter P l))%nat.
Proof.
  intros HQP. induction l as [|x l IH]; simpl; [lia|].
  rewrite !filter_cons. destruct (decide (Q x)) as [q|]; destruct (decide (P x)) as [|np];
    simpl; try lia. exfalso. apply np, HQP, q.
Qed.

Lemma filter_length_lt {A} (P Q : A -> Prop) `{!forall x, Decision (P x)}
    `{!forall x, Decision (Q x)} (l : list A) y :
  (forall x, Q x -> P x) -> y ∈ l -> P y -> ~ Q y ->
  (length (filter Q l) < length (filter P l))%nat.
Proof.
  intros HQP Hy Py nQy. induction l as [|x l IH]; [inversion Hy|].
  rewrite !filter_cons. apply elem_of_cons in Hy as [<-|Hy].
  - destruct (decide (Q y)); [contradiction|]. destruct (decide (P y)); [|contradiction].
    simpl. pose proof (filter_length_le P Q l HQP). lia.
  - specialize (IH Hy).
    destruct (decide (Q x)) as [q|]; destruct (decide (P x)) as [|np]; simpl; try lia.
    exfalso. apply np, HQP, q.
Qed.

Section Termination.
Context (cfg : VMConfig) (heap : JavaHeap).

Lemma unseen_grows r r' :
  objects_wf r -> extends r r' ->
  (length (unseen heap r') <= length (unseen heap r))%nat.
Proof.
  intros Hwf Hext. unfold unseen. apply filter_length_le. intros vo Hnone. cbv beta.
  destruct (find_object (sv_store r) (objects r) (vo_id vo)) as [p|] eqn:E; [|reflexivity].
  rewrite (find_object_extends r r' _ p Hwf Hext E) in Hnone. discriminate.
Qed.


Lemma budget_grows n r r' : grows r r' -> budget heap n r -> budget heap n r'.
Proof.
  intros [Hext Hwf] [Hw Hn]. split; [auto|].
  pose proof (unseen_grows r r' Hw Hext). lia.
Qed.

Lemma halts_record_metadata_in_constant P kind prim obj :
  halts P (record_metadata_in_constant cfg kind prim obj).
Proof.
  apply halts_weaken. unfold record_metadata_in_constant. repeat halts_step.
Qed.

Lemma halts_field_body n translate isLongArray sv field :
  (forall v, halts (budget heap n) (translate v)) ->
  halts (budget heap n) (field_body cfg translate isLongArray sv field).
Proof.
  intros Ht. unfold field_body.
  eapply halts_bind with (Q := fun _ => True); [apply Ht | auto |].
  intros [value cur_second]. repeat halts_step.
Qed.

Lemma unseen_register r vo klass :
  objects_wf r -> vo ∈ heap ->
  find_object (sv_store r) (objects r) (vo_id vo) = None ->
  let r1 := {| sv_store := sv_store r ++ [klass];
               objects := objects r; oop_recorder := oop_recorder r |} in
  let r3 := {| sv_store := sv_store r1 ++ [ObjectValue (vo_id vo) (length (sv_store r)) []];
               objects := objects r ++ [length (sv_store r1)];
               oop_recorder := oop_recorder r |} in
  objects_wf r3 /\ (length (unseen heap r3) < length (unseen heap r))%nat.
Proof.
  intros Hwf Hin Hnone r1 r3.
  assert (Hwf1 : Forall (fun q => is_Some (ObjectValue_id (sv_store r1) q)) (objects r)).
  { eapply Forall_impl; [exact Hwf|]. intros q [id' Hq]. simpl in *. exists id'.
    rewrite ObjectValue_id_app; [exact Hq | eapply ObjectValue_id_lt; eauto]. }
  assert (Hnone1 : find_object (sv_store r1) (objects r) (vo_id vo) = None).
  { clear -Hnone Hwf. revert Hnone. unfold objects_wf in Hwf. simpl.
    induction Hwf as [|q objs [id' Hq] Hwf IH]; simpl; [auto|].
    rewrite Hq. rewrite ObjectValue_id_app by (eapply ObjectValue_id_lt; eauto).
    rewrite Hq. destruct (id' =? vo_id vo); [discriminate | exact IH]. }
  assert (Hfound : find_object (sv_store r3) (objects r3) (vo_id vo)
                   = Some (length (sv_store r1))).
  { apply find_object_register; assumption. }
  assert (Hext : extends r r3).
  { split; simpl.
    - rewrite !length_app. lia.
    - intros q Hq. rewrite !ObjectValue_id_app; [reflexivity | exact Hq |].
      rewrite length_app. lia.
    - apply prefix_app_r. reflexivity. }
  split.
  - unfold objects_wf. simpl. apply Forall_app. split.
    + eapply Forall_impl; [exact Hwf1|]. intros q [id' Hq]. simpl in *. exists id'.
      rewrite ObjectValue_id_app; [exact Hq | eapply ObjectValue_id_lt; eauto].
    + constructor; [|constructor]. exists (vo_id vo). unfold ObjectValue_id.
      rewrite lookup_app_r by lia. rewrite Nat.sub_diag. reflexivity.
  - unfold unseen. eapply filter_length_lt with (y := vo); [|exact Hin|exact Hnone|].
    + intros x Hx. cbv beta.
      destruct (find_object (sv_store r) (objects r) (vo_id x)) as [p|] eqn:E;
        [|reflexivity].
      rewrite (find_object_extends r r3 _ p Hwf Hext E) in Hx. discriminate.
    + rewrite Hfound. discriminate.
Qed.

Lemma get_hotspot_value_halts fuel v tfs :
  halts (budget heap fuel) (get_hotspot_value cfg heap fuel v tfs).
Proof.
  revert v. induction fuel as [|fuel IH]; intros v.
  - intros r [_ Hn]. lia.
  - simpl. destruct (is_ILLEGAL v); [apply halts_weaken; repeat halts_step|].
    eapply halts_bind with (Q := budget heap (S fuel)).
    { apply halts_weaken. unfold Value_type. repeat halts_step. }
    { intros r t r' HP Ht. apply Value_type_Ok in Ht. subst. exact HP. }
    intros type. destruct v; try apply halts_fatal.
    + apply halts_weaken. repeat halts_step.
    + apply halts_weaken. repeat halts_step.
    + apply halts_weaken. apply halts_bind_any.
      { apply halts_record_metadata_in_constant. }
      intros _. repeat halts_step.
    + destruct (heap !! address) as [vo|] eqn:Hvo; [|apply halts_undefined].
      intros r [Hwf Hn]. unfold bind at 1. unfold get at 1.
      destruct (find_object (sv_store r) (objects r) (vo_id vo)) eqn:Hfind; [discriminate|].
      unfold bind, new_sv, objects_append. simpl.
      destruct (unseen_register r vo
                  (ConstantOopWriteValue (Some (JavaObject (vo_javaMirror vo))))
                  Hwf (list_elem_of_lookup_2 _ _ _ Hvo) Hfind) as [Hwf3 Hlt].
      simpl in Hwf3, Hlt.
      match goal with
      | |- match for_each ?l ?body ?r3 with _ => _ end <> _ =>
          assert (Hh : for_each l body r3 <> OutOfFuel)
      end.
      { apply (halts_for_each (budget heap fuel)).
        - intros field. apply halts_field_body. intros fv. apply IH.
        - intros field r0 u r0' Hb Hrun. eapply budget_grows; [|exact Hb].
          eapply growing_field_body; [|exact Hrun].
          intros fv. apply growing_get_hotspot_value.
        - split; [exact Hwf3 | lia]. }
      destruct (for_each _ _ _) as [[u r4]| | |]; try discriminate. contradiction.
Qed.

Lemma unseen_length r : (length (unseen heap r) <= length heap)%nat.
Proof. unfold unseen. apply length_filter. Qed.
End Termination.

(** ** Virtual objects: sharing and termination *)

Lemma find_object_Some store objs id p :
  find_object store objs id = Some p -> ObjectValue_id store p = Some id.
Proof.
  induction objs as [|q objs IH]; simpl; [discriminate|].
  destruct (ObjectValue_id store q) as [id'|] eqn:E; [|exact IH].
  destruct (id' =? id) eqn:Eid; [|exact IH].
  intros H. injection H as <-. apply Z.eqb_eq in Eid. congruence.
Qed.

Section MonitorFacts.
Context (cfg : VMConfig) (heap : JavaHeap).

Lemma growing_get_monitor_value fuel v tfs :
  growing (get_monitor_value cfg heap fuel v tfs).
Proof.
  unfold get_monitor_value. destruct v; try apply growing_fatal.
  apply growing_bind; [apply growing_get_hotspot_value|]. intros [owner_value second].
  apply growing_bind; [apply growing_assert|]. intros _.
  apply growing_bind; [apply growing_get_hotspot_value|]. intros [lock second'].
  repeat growing_step.
Qed.

(** The value loop of [record_scope] only grows the translation state:
    every state of one scope-recording pass extends the earlier ones. *)
Lemma growing_record_values fuel tfs lc ec i rest acc :
  growing (record_values cfg heap fuel tfs lc ec i rest acc).
Proof.
  remember (length rest) as n eqn:Hn.
  revert i rest acc Hn. induction n as [n IH] using lt_wf_ind. intros i rest acc Hn.
  destruct rest as [|value rest']; simpl; [apply growing_ret|].
  apply growing_bind.
  - destruct (i <? lc); [|destruct (i <? jint_add lc ec)].
    + apply growing_bind; [apply growing_get_hotspot_value|].
      intros [first second]. apply growing_ret.
    + apply growing_bind; [apply growing_get_hotspot_value|].
      intros [first second]. apply growing_ret.
    + apply growing_bind; [apply growing_get_monitor_value|]. intros m. apply growing_ret.
  - intros [acc' second]. destruct second as [s|].
    + destruct rest' as [|next rest'']; [repeat growing_step|].
      apply growing_bind; [apply growing_assert|]. intros _.
      eapply IH; [|reflexivity]. subst n. simpl. lia.
    + eapply IH; [|reflexivity]. subst n. simpl. lia.
Qed.
End MonitorFacts.

(** C3 (as amended): within one scope-recording pass, that is for one
    seen-objects array, a virtual-object id is translated once.  The first
    translation returns a pointer to an object value of that id; from any
    later state of the pass, translating a virtual object of the same id
    returns that very pointer, reports no second slot and leaves the store
    and the array as they are.  Translation ends on every heap, cyclic or
    not, with fuel one above the number of heap cells: the object value is
    registered before its fields are translated. *)
Theorem C3_virtual_object_shared_within_pass
    cfg heap fuel kind address tfs r p second r1 vo :
  objects_wf r ->
  heap !! address = Some vo ->
  get_hotspot_value cfg heap fuel (VirtualObject kind address) tfs r
    = Ok ((p, second), r1) ->
  ObjectValue_id (sv_store r1) p = Some (vo_id vo) /\
  (forall r2 kind' address' vo' fuel',
      extends r1 r2 ->
      heap !! address' = Some vo' -> vo_id vo' = vo_id vo ->
      is_Some (kindToBasicType cfg kind') ->
      get_hotspot_value cfg heap (S fuel') (VirtualObject kind' address') tfs r2
        = Ok ((p, None), r2)) /\
  (forall value tfs' r0,
      objects_wf r0 ->
      get_hotspot_value cfg heap (S (length heap)) value tfs' r0 <> OutOfFuel).
Proof.
  intros Hwf Hvo Hrun.
  destruct (get_hotspot_value_registers cfg heap _ _ _ _ _ _ _ _ _ Hwf Hvo Hrun)
    as [_ Hfind].
  pose proof (growing_get_hotspot_value cfg heap _ _ _ _ _ _ Hrun) as [_ Hwf1].
  specialize (Hwf1 Hwf).
  split; [eapply find_object_Some; exact Hfind|]. split.
  - intros r2 kind' address' vo' fuel' Hext Hvo' Hid Hkind.
    apply get_hotspot_value_hit with (vo := vo'); [exact Hvo' | exact Hkind |].
    rewrite Hid. eapply find_object_extends; eauto.
  - intros value tfs' r0 Hwf0. apply get_hotspot_value_halts.
    split; [exact Hwf0|]. pose proof (unseen_length heap r0). lia.
Qed.

Lemma C3_virtual_object_shared_within_pass_witness :
  ObjectValue_id (sv_store cyclic_translated) 1 = Some 7 /\
  (forall r2 kind' address' vo' fuel',
      extends cyclic_translated r2 ->
      cyclic_heap !! address' = Some vo' -> vo_id vo' = 7 ->
      is_Some (kindToBasicType (sample_config true) kind') ->
      get_hotspot_value (sample_config true) cyclic_heap (S fuel')
        (VirtualObject kind' address') 24 r2 = Ok ((1%nat, None), r2)) /\
  (forall value tfs' r0,
      objects_wf r0 ->
      get_hotspot_value (sample_config true) cyclic_heap 2 value tfs' r0 <> OutOfFuel).
Proof.
  apply (C3_virtual_object_shared_within_pass (sample_config true) cyclic_heap 2
           "a"%char 0%nat 24 empty_recorder 1%nat None cyclic_translated
           {| vo_id := 7; vo_javaMirror := 500; vo_klass := 501;
              vo_values := [VirtualObject "a" 0; Constant "i" 5 None] |}).
  - constructor.
  - reflexivity.
  - vm_compute. reflexivity.
Defined.

Lemma C3_once_per_installation_counterexample :
  exists s',
    install (sample_config true) cyclic_heap 2 two_safepoints (Some 0) 4096 8192
      (sample_installer no_code) = Ok (tt, s') /\
    object_values_of (sv_store (_recorder s')) 7 = [1%nat; 4%nat].
Proof. eexists. split; vm_compute; reflexivity. Qed.

(** ** Wide values in the value loop *)

Lemma ret_Ok {S A} (a : A) (s : S) b s' : ret a s = Ok (b, s') -> b = a /\ s' = s.
Proof. unfold ret. intros H. injection H as <- <-. auto. Qed.

Ltac inv_ok :=
  repeat match goal with
  | H : bind _ _ _ = Ok _ |- _ =>
      let a := fresh "a" in let s := fresh "s" in let Ha := fresh "Hrun" in
      apply bind_Ok in H as (a & s & Ha & H);
      repeat match type of a with (_ * _)%type => destruct a as [a ?] end
  | H : ret _ _ = Ok _ |- _ => unfold ret in H; simplify_eq
  | H : fatal _ _ = Ok _ |- _ => discriminate H
  | H : undefined _ _ = Ok _ |- _ => discriminate H
  | H : ShouldNotReachHere _ = Ok _ |- _ => discriminate H
  | H : out_of_fuel _ = Ok _ |- _ => discriminate H
  | H : assert _ _ _ _ = Ok _ |- _ => apply assert_Ok in H as [? ?]; simplify_eq
  | H : (if ?b then _ else _) _ = Ok _ |- _ => destruct b eqn:?
  | H : (match ?x with _ => _ end) _ = Ok _ |- _ => destruct x eqn:?
  end.


Section WideValues.
Context (cfg : VMConfig) (heap : JavaHeap).

Lemma Value_type_kind v r t r' :
  Value_type cfg v r = Ok (t, r') -> kindToBasicType cfg (Value_kind v) = Some t /\ r' = r.
Proof.
  unfold Value_type. destruct (kindToBasicType cfg _); [|discriminate].
  intros H. injection H as <- <-. auto.
Qed.

(** The translator reports a second slot exactly for the two-slot values. *)
Lemma get_hotspot_value_second fuel v tfs r first second r' :
  get_hotspot_value cfg heap fuel v tfs r = Ok ((first, second), r') ->
  is_some second = two_slot cfg v.
Proof.
  intros H. destruct fuel as [|fuel]; [discriminate|]. simpl in H.
  destruct v; simpl in H.
  - inv_ok. reflexivity.
  - apply bind_Ok in H as (t & r0 & Ht & H). apply Value_type_kind in Ht as [Ht ->].
    simpl in Ht. simpl. rewrite Ht.
    destruct (number <? 16); inv_ok;
      try (destruct (is_T t T_LONG); reflexivity); destruct (is_T t T_DOUBLE); reflexivity.
  - apply bind_Ok in H as (t & r0 & Ht & H). apply Value_type_kind in Ht as [Ht ->].
    simpl in Ht. simpl. rewrite Ht. inv_ok.
    destruct (is_T t T_DOUBLE || is_T t T_LONG); reflexivity.
  - apply bind_Ok in H as (t & r0 & Ht & H). apply Value_type_kind in Ht as [Ht ->].
    simpl in Ht. simpl. rewrite Ht.
    apply bind_Ok in H as (u & r1 & _ & H).
    destruct (is_int_like t) eqn:Ei.
    { inv_ok. destruct t; try discriminate; reflexivity. }
    destruct (is_T t T_LONG || is_T t T_DOUBLE) eqn:El.
    { inv_ok. simpl. rewrite orb_comm. symmetry. exact El. }
    rewrite orb_comm, El. inv_ok; reflexivity.
  - apply bind_Ok in H as (t & r0 & Ht & H). apply Value_type_kind in Ht as [Ht ->].
    destruct (heap !! address); [|discriminate].
    apply bind_Ok in H as (s & r1 & _ & H).
    destruct (find_object _ _ _); inv_ok; reflexivity.
  - inv_ok.
  - inv_ok.
Qed.
End WideValues.

Section ValueLoop.
Context (cfg : VMConfig) (heap : JavaHeap).

Lemma is_ILLEGAL_true v : is_ILLEGAL v = true -> v = ILLEGAL.
Proof. destruct v; try discriminate. reflexivity. Qed.

Lemma get_monitor_value_Ok fuel v tfs r m r' :
  get_monitor_value cfg heap fuel v tfs r = Ok (m, r') -> two_slot cfg v = false.
Proof. destruct v; try discriminate. reflexivity. Qed.

Lemma count_add_local acc first second :
  scope_values_count (add_local acc first second)
  = (scope_values_count acc + (if is_some second then 2 else 1))%nat.
Proof.
  unfold scope_values_count, add_local. simpl.
  destruct second; simpl; rewrite ?length_app; simpl; lia.
Qed.

Lemma count_add_expression acc first second :
  scope_values_count (add_expression acc first second)
  = (scope_values_count acc + (if is_some second then 2 else 1))%nat.
Proof.
  unfold scope_values_count, add_expression. simpl.
  destruct second; simpl; rewrite ?length_app; simpl; lia.
Qed.

Lemma count_add_monitor acc m :
  scope_values_count (add_monitor acc m) = (scope_values_count acc + 1)%nat.
Proof. unfold scope_values_count, add_monitor. simpl. rewrite length_app. simpl. lia. Qed.

Lemma count_add_scope_value lc ec i acc first second :
  scope_values_count (add_scope_value lc ec i acc first second)
  = (scope_values_count acc + (if is_some second then 2 else 1))%nat.
Proof.
  unfold add_scope_value.
  destruct (i <? lc); [apply count_add_local | apply count_add_expression].
Qed.

(** One turn of the loop, read off a run that returned. *)
Lemma record_values_turn fuel tfs lc ec i value rest acc r out r' :
  record_values cfg heap fuel tfs lc ec i (value :: rest) acc r = Ok (out, r') ->
  exists acc1 second r1,
    (if (i <? lc) || (i <? jint_add lc ec) then
       exists first,
         get_hotspot_value cfg heap fuel value tfs r = Ok ((first, second), r1) /\
         acc1 = add_scope_value lc ec i acc first second
     else
       exists m,
         get_monitor_value cfg heap fuel value tfs r = Ok (m, r1) /\
         acc1 = add_monitor acc m /\ second = None) /\
    match second with
    | Some _ =>
        match rest with
        | [] => ASSERT cfg = false /\ out = acc1 /\ r' = r1
        | next :: rest' =>
            (ASSERT cfg = true -> next = ILLEGAL) /\
            record_values cfg heap fuel tfs lc ec (i + 2) rest' acc1 r1 = Ok (out, r')
        end
    | None => record_values cfg heap fuel tfs lc ec (i + 1) rest acc1 r1 = Ok (out, r')
    end.
Proof.
  intros H. simpl in H. apply bind_Ok in H as ([acc1 second] & r1 & Hv & H).
  exists acc1, second, r1. split.
  - unfold add_scope_value. destruct (i <? lc); simpl.
    + apply bind_Ok in Hv as ([first second'] & r0 & Hg & Hv).
      unfold ret in Hv. simplify_eq. eauto.
    + destruct (i <? jint_add lc ec).
      * apply bind_Ok in Hv as ([first second'] & r0 & Hg & Hv).
        unfold ret in Hv. simplify_eq. eauto.
      * apply bind_Ok in Hv as (m & r0 & Hg & Hv).
        unfold ret in Hv. simplify_eq. eauto.
  - destruct second as [s|]; [|exact H].
    destruct rest as [|next rest'].
    + apply bind_Ok in H as (u & r2 & Ha & H). apply assert_Ok in Ha as [-> Ha].
      unfold ret in H. simplify_eq. split; [|auto].
      destruct (ASSERT cfg); [|reflexivity]. discriminate Ha. reflexivity.
    + apply bind_Ok in H as (u & r2 & Ha & H). apply assert_Ok in Ha as [-> Ha].
      split; [|exact H]. intros Hd. apply is_ILLEGAL_true, Ha, Hd.
Qed.

(** The second slot reported in one turn is that of a two-slot value. *)
Lemma record_values_turn_second fuel tfs lc ec i value acc r acc1 second r1 :
  (if (i <? lc) || (i <? jint_add lc ec) then
     exists first,
       get_hotspot_value cfg heap fuel value tfs r = Ok ((first, second), r1) /\
       acc1 = add_scope_value lc ec i acc first second
   else
     exists m,
       get_monitor_value cfg heap fuel value tfs r = Ok (m, r1) /\
       acc1 = add_monitor acc m /\ second = None) ->
  is_some second = two_slot cfg value /\
  scope_values_count acc1
  = (scope_values_count acc + (if is_some second then 2 else 1))%nat.
Proof.
  destruct (_ || _).
  - intros (first & Hg & ->). split.
    + eapply get_hotspot_value_second; eauto.
    + apply count_add_scope_value.
  - intros (m & Hg & -> & ->). split.
    + simpl. symmetry. eapply get_monitor_value_Ok; eauto.
    + apply count_add_monitor.
Qed.

(** A debug build that returns has checked the producer's invariant. *)
Lemma record_values_checks_placeholders fuel tfs lc ec i vs acc r out r' :
  ASSERT cfg = true ->
  record_values cfg heap fuel tfs lc ec i vs acc r = Ok (out, r') ->
  placeholders_ok cfg vs = true.
Proof.
  intros Hd. remember (length vs) as n eqn:Hn.
  revert i vs acc r Hn. induction n as [n IH] using lt_wf_ind. intros i vs acc r Hn H.
  destruct vs as [|value rest]; [reflexivity|].
  apply record_values_turn in H as (acc1 & second & r1 & Hturn & Hrest).
  apply record_values_turn_second in Hturn as [Hs _].
  simpl. rewrite <- Hs. destruct second as [s|]; simpl.
  - destruct rest as [|next rest']; [destruct Hrest; congruence|].
    destruct Hrest as [Hnext Hrest]. rewrite (Hnext Hd). simpl.
    eapply IH; [|reflexivity|exact Hrest]. subst n. simpl. lia.
  - eapply IH; [|reflexivity|exact Hrest]. subst n. simpl. lia.
Qed.

(** Under the producer's invariant every slot of the value list yields one
    entry: the placeholder's slot is taken by the second half of the value
    before it. *)
Lemma record_values_count fuel tfs lc ec i vs acc r out r' :
  placeholders_ok cfg vs = true ->
  record_values cfg heap fuel tfs lc ec i vs acc r = Ok (out, r') ->
  scope_values_count out = (scope_values_count acc + length vs)%nat.
Proof.
  remember (length vs) as n eqn:Hn.
  revert i vs acc r Hn. induction n as [n IH] using lt_wf_ind. intros i vs acc r Hn Hp H.
  destruct vs as [|value rest].
  - simpl in H. unfold ret in H. simplify_eq. simpl. lia.
  - apply record_values_turn in H as (acc1 & second & r1 & Hturn & Hrest).
    apply record_values_turn_second in Hturn as [Hs Hc].
    simpl in Hp. rewrite <- Hs in Hp. destruct second as [s|]; simpl in Hp, Hc.
    + destruct rest as [|next rest']; [discriminate|].
      apply andb_true_iff in Hp as [_ Hp]. destruct Hrest as [_ Hrest].
      assert (Hlt : (length rest' < n)%nat) by (subst n; simpl; lia).
      rewrite (IH _ Hlt _ _ _ _ eq_refl Hp Hrest), Hc. subst n. simpl. lia.
    + assert (Hlt : (length rest < n)%nat) by (subst n; simpl; lia).
      rewrite (IH _ Hlt _ _ _ _ eq_refl Hp Hrest), Hc. subst n. simpl. lia.
Qed.

(** C2: a two-slot value among the locals or expressions of a frame yields
    exactly two scope values, the second slot and then the primary; the entry
    after it in the producer's list is the ILLEGAL placeholder (checked by the
    debug build, the producer's invariant otherwise), and the loop goes on two
    entries further: the placeholder is not translated and adds no entry, so
    the loop ends with one entry per slot of the list. *)
Theorem C2_two_slot_value_skips_placeholder
    fuel tfs lc ec i value rest acc r out r' :
  two_slot cfg value = true ->
  (i <? lc) || (i <? jint_add lc ec) = true ->
  ASSERT cfg = true \/ placeholders_ok cfg (value :: rest) = true ->
  record_values cfg heap fuel tfs lc ec i (value :: rest) acc r = Ok (out, r') ->
  exists first second r1 rest',
    get_hotspot_value cfg heap fuel value tfs r = Ok ((first, Some second), r1) /\
    rest = ILLEGAL :: rest' /\
    record_values cfg heap fuel tfs lc ec (i + 2) rest'
      (add_scope_value lc ec i acc first (Some second)) r1 = Ok (out, r') /\
    scope_values_count (add_scope_value lc ec i acc first (Some second))
      = (scope_values_count acc + 2)%nat /\
    scope_values_count out = (scope_values_count acc + length (value :: rest))%nat.
Proof.
  intros Hwide Hpart Hinv Hrun.
  assert (Hp : placeholders_ok cfg (value :: rest) = true).
  { destruct Hinv as [Hd|Hp]; [|exact Hp].
    eapply record_values_checks_placeholders; eauto. }
  pose proof (record_values_count _ _ _ _ _ _ _ _ _ _ Hp Hrun) as Hcount.
  apply record_values_turn in Hrun as (acc1 & second & r1 & Hturn & Hrest).
  pose proof (record_values_turn_second _ _ _ _ _ _ _ _ _ _ _ Hturn) as [Hs Hc].
  rewrite Hpart in Hturn. destruct Hturn as (first & Hg & ->).
  rewrite Hwide in Hs. destruct second as [second|]; [|discriminate].
  simpl in Hp. rewrite Hwide in Hp.
  destruct rest as [|next rest']; [discriminate|].
  apply andb_true_iff in Hp as [Hnext _]. apply is_ILLEGAL_true in Hnext. subst next.
  destruct Hrest as [_ Hrest].
  exists first, second, r1, rest'. repeat split; auto.
Qed.
End ValueLoop.

Lemma C2_two_slot_value_skips_placeholder_witness :
  exists first second r1 rest',
    get_hotspot_value (sample_config false) [] 1 (RegisterValue "j" 0) 24 empty_recorder
      = Ok ((first, Some second), r1) /\
    [ILLEGAL; StackSlot "i" 0 false] = ILLEGAL :: rest' /\
    record_values (sample_config false) [] 1 24 2 1 (0 + 2) rest'
      (add_scope_value 2 1 0 no_scope_values first (Some second)) r1
      = Ok (scenario_lists, scenario_recorder) /\
    scope_values_count (add_scope_value 2 1 0 no_scope_values first (Some second))
      = (scope_values_count no_scope_values + 2)%nat /\
    scope_values_count scenario_lists
      = (scope_values_count no_scope_values
         + length (RegisterValue "j" 0 :: [ILLEGAL; StackSlot "i" 0 false]))%nat.
Proof.
  apply (C2_two_slot_value_skips_placeholder (sample_config false) [] 1 24 2 1 0
           (RegisterValue "j" 0) [ILLEGAL; StackSlot "i" 0 false]
           no_scope_values empty_recorder scenario_lists scenario_recorder).
  - reflexivity.
  - reflexivity.
  - right. reflexivity.
  - vm_compute. reflexivity.
Defined.


(** ** The scope recorder *)

Lemma frame_induction (P : BytecodeFrame -> Prop) :
  (forall frame, (forall c, caller frame = Some c -> P c) -> P frame) ->
  forall frame, P frame.
Proof.
  intros Hstep frame. remember (depth frame) as n eqn:Hn.
  revert frame Hn. induction n as [n IH] using lt_wf_ind. intros frame Hn.
  apply Hstep. intros c Hc. apply (IH (depth c)); [|reflexivity].
  subst n. unfold depth. destruct frame as [c0 m b vs nl ns nk re dc lg].
  simpl in *. subst. simpl. lia.
Qed.

Lemma described_app e1 e2 : described (e1 ++ e2) = described e1 ++ described e2.
Proof.
  induction e1 as [|e e1 IH]; [reflexivity|].
  destruct e; simpl; rewrite ?IH; reflexivity.
Qed.

Lemma oop_maps_app e1 e2 : oop_maps (e1 ++ e2) = oop_maps e1 ++ oop_maps e2.
Proof.
  induction e1 as [|e e1 IH]; [reflexivity|].
  destruct e; simpl; rewrite ?IH; reflexivity.
Qed.

Section ScopeRecorder.
Context (cfg : VMConfig) (heap : JavaHeap) {code : Type} `{!NativeInst code}.

Lemma on_recorder_Ok {A} (m : M Recorder A) (s : CodeInstaller code) a s' :
  on_recorder m s = Ok (a, s') ->
  exists r', m (_recorder s) = Ok (a, r') /\ s' = with_recorder r' s.
Proof.
  unfold on_recorder. destruct (m (_recorder s)) as [[a' r']| | |]; try discriminate.
  intros H. simplify_eq. eauto.
Qed.

Lemma record_scope_unfold fuel pc_offset frame :
  record_scope (code := code) cfg heap fuel pc_offset frame =
  (match caller frame with
   | Some caller_frame => record_scope cfg heap fuel pc_offset caller_frame
   | None => ret tt
   end ;;
   assert cfg (jint_add (jint_add (numLocals frame) (numStack frame)) (numLocks frame)
               =? Z.of_nat (length (values frame))) "unexpected values length" ;;
   let* tfs := gets _total_frame_size in
   let* lists := on_recorder
       (record_values cfg heap fuel tfs (numLocals frame) (numStack frame) 0
          (values frame) {| locals := []; expressions := []; monitors := [] |}) in
   let* objs := gets (fun s => objects (_recorder s)) in
   debug_event (dump_object_pool objs) ;;
   debug_event (describe_scope pc_offset (method frame) (bci frame) (reexecute_of frame)
                  (rethrowException frame)
                  (locals lists) (expressions lists) (monitors lists))).
Proof.
  destruct frame as [c m b vs nl ns nk re dc lg]. simpl. unfold reexecute_of. simpl.
  destruct ((b =? -1) || (b =? -2)); reflexivity.
Qed.

(** The recorder calls made by [record_scope]: for each frame of the chain,
    outermost first, an object-pool dump and a scope description. *)
Lemma record_scope_events fuel pc_offset frame (s s' : CodeInstaller code) :
  record_scope cfg heap fuel pc_offset frame s = Ok (tt, s') ->
  same_installation s s' /\
  exists new,
    _debug_recorder s' = _debug_recorder s ++ new /\
    described new = map (summary_of pc_offset) (rev (chain frame)) /\
    oop_maps new = [].
Proof.
  revert s s'. induction frame as [frame IH] using frame_induction. intros s s'.
  rewrite record_scope_unfold. intros H.
  apply bind_Ok in H as (u & s1 & Hcaller & H).
  assert (Hc : same_installation s s1 /\
               exists new, _debug_recorder s1 = _debug_recorder s ++ new /\
                 described new = map (summary_of pc_offset)
                                   (rev (match caller frame with
                                         | Some c => chain c | None => [] end)) /\
                 oop_maps new = []).
  { destruct (caller frame) as [c|] eqn:Ec.
    - destruct u. apply (IH c eq_refl) in Hcaller. exact Hcaller.
    - unfold ret in Hcaller. simplify_eq. split; [repeat split|].
      exists []. rewrite app_nil_r. auto. }
  clear Hcaller. destruct Hc as (Hsame & new & Hnew & Hdesc & Hmaps).
  apply bind_Ok in H as (u1 & s2 & Ha & H). apply assert_Ok in Ha as [-> _].
  apply bind_Ok in H as (tfs & s3 & Ht & H). unfold gets in Ht. simplify_eq.
  apply bind_Ok in H as (lists & s4 & Hv & H).
  apply on_recorder_Ok in Hv as (r' & _ & ->).
  apply bind_Ok in H as (objs & s5 & Ho & H). unfold gets in Ho. simplify_eq.
  apply bind_Ok in H as (u2 & s6 & Hd & H).
  unfold debug_event, modify in Hd, H. simplify_eq. simpl.
  split.
  - destruct Hsame as (? & ? & ? & ? & ? & ? & ?). repeat split; assumption.
  - eexists. split.
    + rewrite Hnew. rewrite <- !app_assoc. reflexivity.
    + rewrite !described_app, !oop_maps_app, Hdesc, Hmaps. simpl.
      replace (chain frame) with
        (frame :: match caller frame with Some c => chain c | None => [] end)
        by (destruct frame; reflexivity).
      simpl. rewrite map_app. simpl. auto.
Qed.

(** For a position chain of depth n the scope recorder describes exactly n
    scopes, each caller before its callee. *)
Lemma record_scope_chain fuel pc_offset frame (s s' : CodeInstaller code) :
  record_scope cfg heap fuel pc_offset frame s = Ok (tt, s') ->
  exists new,
    _debug_recorder s' = _debug_recorder s ++ new /\
    length (described new) = depth frame /\
    described new = map (summary_of pc_offset) (rev (chain frame)).
Proof.
  intros H. apply record_scope_events in H as (_ & new & Hnew & Hdesc & _).
  exists new. split; [exact Hnew|]. split; [|exact Hdesc].
  rewrite Hdesc, length_map, length_rev. reflexivity.
Qed.

(** C10: the flag handed to [describe_scope] for a frame is true exactly
    when its bci is neither -1 nor -2 and it is not during a call; the
    configuration's bytecode tables ([java_code_at],
    [bytecode_should_reexecute]) do not occur in it. *)
Theorem C10_reexecute_flag fuel pc_offset frame (s s' : CodeInstaller code) :
  record_scope cfg heap fuel pc_offset frame s = Ok (tt, s') ->
  exists new,
    _debug_recorder s' = _debug_recorder s ++ new /\
    map ss_reexecute (described new)
    = map (fun f => negb ((bci f =? -1) || (bci f =? -2)) && negb (duringCall f))
          (rev (chain frame)) /\
    forall f, f ∈ chain frame ->
      (negb ((bci f =? -1) || (bci f =? -2)) && negb (duringCall f) = true
       <-> bci f <> -1 /\ bci f <> -2 /\ duringCall f = false).
Proof.
  intros H. apply record_scope_events in H as (_ & new & Hnew & Hdesc & _).
  exists new. split; [exact Hnew|]. split.
  - rewrite Hdesc, map_map. reflexivity.
  - intros f _. rewrite andb_true_iff, !negb_true_iff, orb_false_iff.
    rewrite !Z.eqb_neq. tauto.
Qed.
End ScopeRecorder.

(** ** Sites: frame size and oop maps *)

Lemma foldM_invariant {S A B} (inv : B -> S -> Prop) (body : B -> A -> M S B) l :
  (forall b x s b' s', inv b s -> body b x s = Ok (b', s') -> inv b' s') ->
  forall b s b' s', inv b s -> foldM body l b s = Ok (b', s') -> inv b' s'.
Proof.
  intros Hbody. induction l as [|x l IH]; intros b s b' s' Hinv H; simpl in H.
  - unfold ret in H. simplify_eq. exact Hinv.
  - apply bind_Ok in H as (b1 & s1 & H1 & H). eapply IH; [|exact H]. eauto.
Qed.

Section SiteFacts.
Context (cfg : VMConfig) (heap : JavaHeap) {code : Type} `{!NativeInst code}.

Lemma is_bit_set_Ok {S} bm i (s : S) b s' : is_bit_set cfg bm i s = Ok (b, s') -> s' = s.
Proof. unfold is_bit_set. intros H. inv_ok. reflexivity. Qed.

Lemma get_hotspot_reg_Ok {S} i (s : S) reg s' :
  get_hotspot_reg cfg i s = Ok (reg, s') -> s' = s.
Proof. unfold get_hotspot_reg. intros H. inv_ok; reflexivity. Qed.

(** The decoder leaves the installer alone and makes the map with the frame
    size it is given. *)
Lemma create_oop_map_Ok {S} tfs pcount rm fm (s : S) map s' :
  create_oop_map cfg tfs pcount rm fm s = Ok (map, s') ->
  s' = s /\ om_frame_size map = tfs.
Proof.
  unfold create_oop_map. intros H.
  apply bind_Ok in H as (map1 & s1 & H1 & H).
  assert (Hinv1 : s1 = s /\ om_frame_size map1 = tfs).
  { destruct rm as [rm|]; [|unfold ret in H1; simplify_eq; auto].
    revert H1. apply (foldM_invariant (fun m s0 => s0 = s /\ om_frame_size m = tfs));
      [|auto].
    intros b x s0 b' s0' [-> Hb] Hrun. unfold register_body in Hrun.
    apply bind_Ok in Hrun as (o & s2 & Ho & Hrun). apply is_bit_set_Ok in Ho. subst s2.
    apply bind_Ok in Hrun as (reg & s2 & Hr & Hrun). apply get_hotspot_reg_Ok in Hr.
    subst s2. inv_ok; auto. }
  destruct Hinv1 as [-> Hm1]. destruct fm as [fm|]; [|discriminate].
  revert H. apply (foldM_invariant (fun m s0 => s0 = s /\ om_frame_size m = tfs));
    [|auto].
  intros b x s0 b' s0' [-> Hb] Hrun. unfold frame_body in Hrun.
  apply bind_Ok in Hrun as (o & s2 & Ho & Hrun). apply is_bit_set_Ok in Ho. subst s2.
  inv_ok; auto.
Qed.

Lemma site_effect_refl (s : CodeInstaller code) : site_effect s s.
Proof. split; [reflexivity|]. exists []. rewrite app_nil_r. split; [reflexivity|constructor]. Qed.

Lemma site_effect_trans (s1 s2 s3 : CodeInstaller code) :
  site_effect s1 s2 -> site_effect s2 s3 -> site_effect s1 s3.
Proof.
  intros (T1 & n1 & E1 & F1) (T2 & n2 & E2 & F2). split; [congruence|].
  exists (n1 ++ n2). split.
  - rewrite E2, E1, app_assoc. reflexivity.
  - rewrite oop_maps_app. apply Forall_app. split; [exact F1|].
    rewrite T1 in F2. exact F2.
Qed.

Lemma keeps_ret {A} (a : A) : keeps (code := code) (ret a).
Proof. intros s a' s' H. unfold ret in H. simplify_eq. apply site_effect_refl. Qed.

Lemma keeps_fatal {A} msg : keeps (@fatal (CodeInstaller code) A msg).
Proof. intros s a s' H. discriminate. Qed.

Lemma keeps_undefined {A} msg : keeps (@undefined (CodeInstaller code) A msg).
Proof. intros s a s' H. discriminate. Qed.

Lemma keeps_bind {A B} (m : M (CodeInstaller code) A) (k : A -> M (CodeInstaller code) B) :
  keeps m -> (forall a, keeps (k a)) -> keeps (bind m k).
Proof.
  intros Hm Hk s b s' H. apply bind_Ok in H as (a & s1 & H1 & H2).
  eapply site_effect_trans; [eapply Hm | eapply Hk]; eauto.
Qed.

Lemma keeps_assert p msg : keeps (code := code) (assert cfg p msg).
Proof.
  unfold assert. destruct (ASSERT cfg); [destruct p|]; auto using keeps_ret, keeps_fatal.
Qed.

Lemma keeps_guarantee p msg : keeps (code := code) (guarantee p msg).
Proof. unfold guarantee. destruct p; auto using keeps_ret, keeps_fatal. Qed.

Lemma keeps_gets {A} (f : CodeInstaller code -> A) : keeps (gets f).
Proof. intros s a s' H. unfold gets in H. simplify_eq. apply site_effect_refl. Qed.

Lemma keeps_modify (f : CodeInstaller code -> CodeInstaller code) :
  (forall s, _total_frame_size (f s) = _total_frame_size s /\
             _debug_recorder (f s) = _debug_recorder s) ->
  keeps (modify f).
Proof.
  intros Hf s a s' H. unfold modify in H. simplify_eq. destruct (Hf s) as [Ht Hd].
  split; [exact Ht|]. exists []. rewrite app_nil_r. split; [exact Hd|constructor].
Qed.

Lemma keeps_on_recorder {A} (m : M Recorder A) : keeps (code := code) (on_recorder m).
Proof.
  intros s a s' H. apply on_recorder_Ok in H as (r' & _ & ->).
  split; [reflexivity|]. exists []. rewrite app_nil_r. split; [reflexivity|constructor].
Qed.

Lemma keeps_debug_event e :
  oop_maps [e] = [] -> keeps (code := code) (debug_event e).
Proof.
  intros He s a s' H. unfold debug_event, modify in H. simplify_eq.
  split; [reflexivity|]. exists [e]. split; [reflexivity|]. rewrite He. constructor.
Qed.

Lemma keeps_record_scope fuel pc_offset frame :
  keeps (code := code) (record_scope cfg heap fuel pc_offset frame).
Proof.
  intros s [] s' H. apply record_scope_events in H as (Hsame & new & Hnew & _ & Hmaps).
  split; [apply Hsame|]. exists new. split; [exact Hnew|]. rewrite Hmaps. constructor.
Qed.

(** Registering a suspension point: the oop map is made with the frame size
    of the installer. *)
Lemma keeps_add_safepoint {A} pc_offset leaf rm fm (k : M (CodeInstaller code) A) :
  keeps k ->
  keeps (let* tfs := gets _total_frame_size in
         let* pcount := gets _parameter_count in
         let* map := create_oop_map cfg tfs pcount rm fm in
         debug_event (add_safepoint pc_offset leaf map) ;; k).
Proof.
  intros Hk s a s' H.
  apply bind_Ok in H as (tfs & s1 & H1 & H). unfold gets in H1. injection H1 as <- <-.
  apply bind_Ok in H as (pcount & s2 & H2 & H). unfold gets in H2. injection H2 as <- <-.
  apply bind_Ok in H as (map & s3 & H3 & H). apply create_oop_map_Ok in H3 as [-> Hmap].
  apply bind_Ok in H as (u & s4 & H4 & H). unfold debug_event, modify in H4.
  injection H4 as _ <-.
  eapply site_effect_trans; [|eapply Hk; exact H].
  split; [reflexivity|]. eexists. split; [reflexivity|]. simpl. constructor; auto.
Qed.
End SiteFacts.

Ltac keeps_step :=
  first
    [ apply keeps_ret | apply keeps_fatal | apply keeps_undefined
    | apply keeps_assert | apply keeps_guarantee | apply keeps_gets
    | apply keeps_on_recorder | apply keeps_record_scope
    | apply keeps_add_safepoint
    | apply keeps_debug_event; reflexivity
    | apply keeps_modify; intros; split; reflexivity
    | apply keeps_bind; [|intros]
    | match goal with
      | |- keeps (match ?x with _ => _ end) => destruct x
      end ].

Lemma to_jint_small z : - 2 ^ 31 <= z < 2 ^ 31 -> to_jint z = z.
Proof. intros Hz. unfold to_jint. rewrite Z.mod_small; lia. Qed.

Lemma to_jint_add_r a b : to_jint (a + to_jint b) = to_jint (a + b).
Proof.
  unfold to_jint.
  replace (a + ((b + 2 ^ 31) mod 2 ^ 32 - 2 ^ 31) + 2 ^ 31)
    with (a + (b + 2 ^ 31) mod 2 ^ 32) by lia.
  rewrite Z.add_mod_idemp_r by lia. f_equal. f_equal. lia.
Qed.

Lemma to_jint_add_word f w :
  - 2 ^ 31 <= f < 2 ^ 31 -> 0 < w < 2 ^ 32 -> to_jint (f + w) <> f.
Proof.
  intros Hf Hw. unfold to_jint. intros H.
  assert (Hm : (f + w + 2 ^ 31) mod 2 ^ 32 = f + 2 ^ 31) by lia.
  pose proof (Z.div_mod (f + w + 2 ^ 31) (2 ^ 32) ltac:(lia)) as Hd.
  rewrite Hm in Hd. lia.
Qed.

Section FrameSize.
Context (cfg : VMConfig) (heap : JavaHeap) {code : Type} `{!NativeInst code}.

Lemma keeps_site_Safepoint fuel pc_offset debug_info :
  keeps (code := code) (site_Safepoint cfg heap fuel pc_offset debug_info).
Proof. unfold site_Safepoint, new_objects. repeat keeps_step. Qed.

Lemma keeps_site_Call fuel pc_offset target debug_info :
  keeps (code := code) (site_Call cfg heap fuel pc_offset target debug_info).
Proof.
  unfold site_Call, decode_call, call_debug_info, new_objects. repeat keeps_step.
Qed.

Lemma keeps_site_DataPatch pc_offset kind prim obj alignment inlined :
  keeps (code := code) (site_DataPatch cfg pc_offset kind prim obj alignment inlined).
Proof. unfold site_DataPatch, constants_set_end. repeat keeps_step. Qed.

Lemma keeps_site_Mark pc_offset id references :
  keeps (code := code) (site_Mark cfg pc_offset id references).
Proof. unfold site_Mark, array_at. repeat keeps_step. Qed.

Lemma keeps_dispatch_site fuel site :
  keeps (code := code) (dispatch_site cfg heap fuel site).
Proof.
  destruct site; simpl;
    auto using keeps_site_Call, keeps_site_Safepoint, keeps_site_DataPatch,
               keeps_site_Mark, keeps_fatal.
Qed.

Lemma keeps_for_each {A} (l : list A) (body : A -> M (CodeInstaller code) unit) :
  (forall x, keeps (body x)) -> keeps (for_each l body).
Proof.
  intros Hb. induction l as [|x l IH]; simpl; [apply keeps_ret|].
  apply keeps_bind; auto.
Qed.

Lemma get_hotspot_value_StackSlot fuel kind offset addFrameSize tfs r first second r' :
  get_hotspot_value cfg heap fuel (StackSlot kind offset addFrameSize) tfs r
    = Ok ((first, second), r') ->
  exists type,
    sv_store r' !! first
    = Some (LocationValue
              (Location.new_stk_loc type
                 (if addFrameSize then jint_add offset tfs else offset))).
Proof.
  intros H. destruct fuel as [|fuel]; [discriminate|]. simpl in H.
  apply bind_Ok in H as (t & r0 & Ht & H). apply Value_type_Ok in Ht. subst r0.
  apply bind_Ok in H as (p & r1 & Hp & H). unfold new_sv in Hp. unfold ret in H.
  simplify_eq. simpl. eexists. rewrite lookup_app_r by lia.
  rewrite Nat.sub_diag. reflexivity.
Qed.
End FrameSize.

(** ** The site dispatcher *)

Lemma for_each_Ok {S A} (l : list A) (body : A -> M S unit) s u s' :
  for_each l body s = Ok (u, s') ->
  forall x, x ∈ l -> exists s1 s2, body x s1 = Ok (tt, s2).
Proof.
  revert s. induction l as [|y l IH]; intros s H x Hx; [inversion Hx|].
  simpl in H. apply bind_Ok in H as ([] & s1 & Hy & H).
  apply elem_of_cons in Hx as [->|Hx]; [eauto | eapply IH; eauto].
Qed.

Ltac inv_site :=
  repeat match goal with
  | H : bind _ _ _ = Ok _ |- _ =>
      let a := fresh "a" in let s := fresh "s" in let Ha := fresh "Hrun" in
      apply bind_Ok in H as (a & s & Ha & H)
  | H : ret _ _ = Ok _ |- _ => unfold ret in H; simplify_eq
  | H : gets _ _ = Ok _ |- _ => unfold gets in H; simplify_eq
  | H : modify _ _ = Ok _ |- _ => unfold modify in H; simplify_eq
  | H : instruction_address _ _ = Ok _ |- _ =>
      unfold instruction_address, gets in H; simplify_eq
  | H : current_code _ = Ok _ |- _ => unfold current_code, gets in H; simplify_eq
  | H : patch _ _ = Ok _ |- _ => unfold patch, modify in H; simplify_eq
  | H : instructions_relocate _ _ _ _ = Ok _ |- _ =>
      unfold instructions_relocate, modify in H; simplify_eq
  | H : debug_event _ _ = Ok _ |- _ => unfold debug_event, modify in H; simplify_eq
  | H : fatal _ _ = Ok _ |- _ => discriminate H
  | H : undefined _ _ = Ok _ |- _ => discriminate H
  | H : ShouldNotReachHere _ = Ok _ |- _ => discriminate H
  | H : assert _ _ _ _ = Ok _ |- _ => apply assert_Ok in H as [? ?]; simplify_eq
  | H : guarantee _ _ _ = Ok _ |- _ => unfold guarantee in H
  | H : (if ?b then _ else _) _ = Ok _ |- _ => destruct b eqn:?
  end.

Section Dispatcher.
Context (cfg : VMConfig) (heap : JavaHeap) {code : Type} `{!NativeInst code}.

(** *** Marks *)

Lemma site_Mark_unknown pc_offset id references (s : CodeInstaller code) :
  id ∉ known_mark_ids (marks cfg) ->
  site_Mark cfg pc_offset (Some id) references s = Fatal "ShouldNotReachHere".
Proof.
  intros Hid. unfold known_mark_ids in Hid. rewrite !not_elem_of_cons in Hid.
  unfold site_Mark, bind, instruction_address, gets.
  repeat match goal with
         | H : _ /\ _ |- _ => destruct H
         | H : id <> ?x |- _ => rewrite (proj2 (Z.eqb_neq id x) H); clear H
         end.
  reflexivity.
Qed.

(** C8: a mark whose id has no case in the switch stops the installer with
    a fatal report; an installation whose sites contain such a mark never
    returns normally. *)
Theorem C8_unknown_mark_is_fatal pc_offset id references :
  id ∉ known_mark_ids (marks cfg) ->
  (forall s : CodeInstaller code,
      site_Mark cfg pc_offset (Some id) references s = Fatal "ShouldNotReachHere") /\
  (forall fuel comp_result params insts_begin consts_begin (s0 s' : CodeInstaller code),
      CompilationResult_Mark pc_offset (Some id) references ∈ sites comp_result ->
      install cfg heap fuel comp_result params insts_begin consts_begin s0
      <> Ok (tt, s')).
Proof.
  intros Hid. split; [intros s; apply site_Mark_unknown, Hid|].
  intros fuel comp_result params ib cb s0 s' Hin Hrun.
  unfold install, initialize_buffer in Hrun.
  apply bind_Ok in Hrun as (u & s1 & _ & Hrun).
  apply bind_Ok in Hrun as (u1 & s2 & _ & Hrun).
  apply bind_Ok in Hrun as (u2 & s3 & _ & Hrun).
  destruct (for_each_Ok _ _ _ _ _ Hrun _ Hin) as (sa & sb & Hsite).
  unfold dispatch_site in Hsite.
  rewrite site_Mark_unknown in Hsite by exact Hid. discriminate.
Qed.

Lemma site_Mark_invoke pc_offset id references (s s' : CodeInstaller code) :
  id ∈ invoke_mark_ids (marks cfg) ->
  id ∉ entry_mark_ids (marks cfg) ->
  site_Mark cfg pc_offset (Some id) references s = Ok (tt, s') ->
  _next_call_type s' = id /\
  _invoke_mark_pc s' = insts_start (_buffer s) + pc_offset.
Proof.
  intros Hin Hout. unfold entry_mark_ids in Hout. rewrite !not_elem_of_cons in Hout.
  unfold site_Mark. intros H.
  apply bind_Ok in H as (inst & s1 & Hi & H).
  unfold instruction_address, gets in Hi. injection Hi as <- <-.
  repeat match goal with
         | H : _ /\ _ |- _ => destruct H
         | H : id <> ?x |- _ => rewrite (proj2 (Z.eqb_neq id x) H) in *; clear H
         end.
  assert (Hsix : (id =? MARK_INVOKEVIRTUAL (marks cfg))
                 || (id =? MARK_INVOKEINTERFACE (marks cfg))
                 || (id =? MARK_INLINE_INVOKEVIRTUAL (marks cfg))
                 || (id =? MARK_INVOKE_INVALID (marks cfg))
                 || (id =? MARK_INVOKESPECIAL (marks cfg))
                 || (id =? MARK_INVOKESTATIC (marks cfg)) = true).
  { unfold invoke_mark_ids in Hin. rewrite !elem_of_cons in Hin.
    rewrite !orb_true_iff, !Z.eqb_eq. rewrite elem_of_nil in Hin. tauto. }
  rewrite Hsix in H.
  inv_site; simpl; split; reflexivity.
Qed.
End Dispatcher.

Section Calls.
Context (cfg : VMConfig) (heap : JavaHeap) {code : Type} `{!NativeInst code}.

Lemma decode_call_Ok pc_offset target inst c (s : CodeInstaller code) next s' :
  decode_call cfg pc_offset target inst c s = Ok (next, s') -> s' = s.
Proof. unfold decode_call. intros H. inv_site; reflexivity. Qed.

Lemma call_debug_info_Ok fuel next debug_info (s s' : CodeInstaller code) :
  call_debug_info cfg heap fuel next debug_info s = Ok (tt, s') -> same_installation s s'.
Proof.
  unfold call_debug_info. intros H.
  destruct debug_info as [di|]; [|inv_site; repeat split].
  destruct (bytecodePosition di) as [frame|]; [|discriminate].
  apply bind_Ok in H as (tfs & s1 & H1 & H). unfold gets in H1. injection H1 as <- <-.
  apply bind_Ok in H as (pcount & s2 & H2 & H). unfold gets in H2. injection H2 as <- <-.
  apply bind_Ok in H as (map & s3 & H3 & H). apply create_oop_map_Ok in H3 as [-> _].
  apply bind_Ok in H as (u & s4 & H4 & H). unfold debug_event, modify in H4.
  injection H4 as _ <-.
  apply bind_Ok in H as (u' & s5 & H5 & H). unfold new_objects, modify in H5.
  injection H5 as _ <-.
  apply record_scope_events in H as [Hsame _].
  destruct Hsame as (? & ? & ? & ? & ? & ? & ?). repeat split; assumption.
Qed.


(** C5: a call site whose target is installed code has its instruction
    pointed at the verified entry point of that code with
    [set_jump_destination], gets one runtime-call relocation, and returns:
    nothing is added to the debug recorder (no [add_safepoint], no scope) and
    no scope value is made, whether or not the site carries debug info.  The
    debug build requires the instruction to be a jump; a site with a jump
    there does return. *)
Theorem C5_call_to_installed_code fuel pc_offset verified_entry_point debug_info
    (s : CodeInstaller code) :
  let inst := insts_start (_buffer s) + pc_offset in
  let c := mem (_buffer s) in
  (forall s',
      site_Call cfg heap fuel pc_offset (HotSpotInstalledCode verified_entry_point)
        debug_info s = Ok (tt, s') ->
      mem (_buffer s') = set_jump_destination c inst verified_entry_point /\
      relocs (_buffer s')
      = relocs (_buffer s) ++ [relocate inst runtime_call_Relocation call32_operand] /\
      _debug_recorder s' = _debug_recorder s /\
      _recorder s' = _recorder s /\
      (ASSERT cfg = true -> is_jump c inst = true)) /\
  (is_jump c inst = true ->
   nativeJump_at c inst = true ->
   NativeCall_instruction_size cfg = NativeJump_instruction_size cfg ->
   exists s',
     site_Call cfg heap fuel pc_offset (HotSpotInstalledCode verified_entry_point)
       debug_info s = Ok (tt, s')).
Proof.
  intros inst c. split.
  - intros s' H. unfold site_Call in H.
    apply bind_Ok in H as (inst' & s1 & H1 & H).
    unfold instruction_address, gets in H1. injection H1 as <- <-.
    apply bind_Ok in H as (c' & s2 & H2 & H).
    unfold current_code, gets in H2. injection H2 as <- <-.
    apply bind_Ok in H as (next & s3 & H3 & H). apply decode_call_Ok in H3. subst s3.
    apply bind_Ok in H as (u1 & s4 & H4 & H). apply assert_Ok in H4 as [-> Hjump].
    apply bind_Ok in H as (u2 & s5 & H5 & H). apply assert_Ok in H5 as [-> _].
    apply bind_Ok in H as (u3 & s6 & H6 & H). unfold patch, modify in H6.
    injection H6 as _ <-.
    unfold instructions_relocate, modify in H. injection H as <-.
    simpl. repeat split; auto.
  - intros Hjump Hnative Hsize. eexists. unfold site_Call, bind.
    unfold instruction_address, current_code, gets, decode_call. fold inst c.
    rewrite Hjump, orb_true_r. unfold bind. apply Z.eqb_eq in Hsize. rewrite Hsize.
    rewrite assert_true. unfold ret. rewrite Hnative, !assert_true.
    unfold patch, instructions_relocate, modify. reflexivity.
Qed.

(** C4 (as amended): an invocation mark sets the pending call type to its
    id; a call site whose target is not installed code leaves it invalid when
    it returns; a call site whose target is a Java method returns only if it
    found one of the five valid call types pending. *)
Theorem C4_pending_call_type pc_offset (s s' : CodeInstaller code) :
  (forall id references,
      id ∈ invoke_mark_ids (marks cfg) -> id ∉ entry_mark_ids (marks cfg) ->
      site_Mark cfg pc_offset (Some id) references s = Ok (tt, s') ->
      _next_call_type s' = id) /\
  (forall fuel target debug_info,
      is_installed_code target = false ->
      site_Call cfg heap fuel pc_offset target debug_info s = Ok (tt, s') ->
      _next_call_type s' = MARK_INVOKE_INVALID (marks cfg)) /\
  (forall fuel resolved is_static debug_info,
      site_Call cfg heap fuel pc_offset (JavaMethod resolved is_static) debug_info s
        = Ok (tt, s') ->
      _next_call_type s ∈ valid_call_types (marks cfg)).
Proof.
  split; [|split].
  - intros id references Hin Hout H. eapply site_Mark_invoke; eauto.
  - intros fuel target debug_info Htarget H. unfold site_Call in H.
    apply bind_Ok in H as (inst & s1 & _ & H).
    apply bind_Ok in H as (c & s2 & _ & H).
    apply bind_Ok in H as (next & s3 & _ & H).
    destruct target; try discriminate.
    + apply bind_Ok in H as (u1 & s4 & _ & H). apply bind_Ok in H as (u2 & s5 & _ & H).
      apply bind_Ok in H as (u3 & s6 & H6 & H). unfold modify in H6. injection H6 as _ <-.
      destruct debug_info; inv_site; reflexivity.
    + apply bind_Ok in H as (u1 & s4 & _ & H). apply bind_Ok in H as (u2 & s5 & _ & H).
      apply bind_Ok in H as (u3 & s6 & H6 & H). unfold modify in H6. injection H6 as _ <-.
      destruct debug_info; inv_site; reflexivity.
  - intros fuel resolved is_static debug_info H. unfold site_Call in H.
    apply bind_Ok in H as (inst & s1 & H1 & H).
    unfold instruction_address, gets in H1. injection H1 as <- <-.
    apply bind_Ok in H as (c & s2 & H2 & H).
    unfold current_code, gets in H2. injection H2 as <- <-.
    apply bind_Ok in H as (next & s3 & H3 & H). apply decode_call_Ok in H3. subst s3.
    apply bind_Ok in H as ([] & s4 & H4 & H).
    apply call_debug_info_Ok in H4 as (_ & _ & Hnext & _).
    apply bind_Ok in H as (u2 & s5 & H5 & _).
    apply bind_Ok in H5 as (u3 & s6 & H6 & H5). apply assert_Ok in H6 as [-> _].
    apply bind_Ok in H5 as (u4 & s7 & H7 & H5). apply assert_Ok in H7 as [-> _].
    apply bind_Ok in H5 as (nct & s8 & H8 & H5). unfold gets in H8. injection H8 as <- <-.
    apply bind_Ok in H5 as (imp & s9 & H9 & H5). unfold gets in H9. injection H9 as <- <-.
    rewrite Hnext in H5. unfold valid_call_types. rewrite !elem_of_cons.
    destruct (_next_call_type s =? MARK_INLINE_INVOKEVIRTUAL (marks cfg)) eqn:E1;
      [apply Z.eqb_eq in E1; auto|].
    destruct ((_next_call_type s =? MARK_INVOKEVIRTUAL (marks cfg))
              || (_next_call_type s =? MARK_INVOKEINTERFACE (marks cfg))) eqn:E2;
      [apply orb_true_iff in E2 as [E2|E2]; apply Z.eqb_eq in E2; auto|].
    destruct (_next_call_type s =? MARK_INVOKESTATIC (marks cfg)) eqn:E3;
      [apply Z.eqb_eq in E3; auto|].
    destruct (_next_call_type s =? MARK_INVOKESPECIAL (marks cfg)) eqn:E4;
      [apply Z.eqb_eq in E4; auto 6|].
    discriminate.
Qed.
End Calls.


(** ** Scopes recorded for a site *)

Section SiteScopes.
Context (cfg : VMConfig) (heap : JavaHeap) {code : Type} `{!NativeInst code}.

Lemma safepoint_scopes fuel pc leaf rm fm frame (s s' : CodeInstaller code) :
  (let* tfs := gets _total_frame_size in
   let* pcount := gets _parameter_count in
   let* map := create_oop_map cfg tfs pcount rm fm in
   debug_event (add_safepoint pc leaf map) ;;
   new_objects ;;
   record_scope cfg heap fuel pc frame) s = Ok (tt, s') ->
  scopes_appended pc frame s s'.
Proof.
  intros H.
  apply bind_Ok in H as (tfs & s1 & H1 & H). unfold gets in H1. injection H1 as <- <-.
  apply bind_Ok in H as (pcount & s2 & H2 & H). unfold gets in H2. injection H2 as <- <-.
  apply bind_Ok in H as (map & s3 & H3 & H). apply create_oop_map_Ok in H3 as [-> _].
  apply bind_Ok in H as (u & s4 & H4 & H). unfold debug_event, modify in H4.
  injection H4 as _ <-.
  apply bind_Ok in H as (u' & s5 & H5 & H). unfold new_objects, modify in H5.
  injection H5 as _ <-.
  apply record_scope_events in H as (_ & new & Hnew & Hdesc & _). simpl in Hnew.
  exists (add_safepoint pc leaf map :: new). split.
  - rewrite Hnew, <- app_assoc. reflexivity.
  - simpl. exact Hdesc.
Qed.

Lemma scopes_appended_event pc frame e (s s1 : CodeInstaller code) :
  described [e] = [] ->
  scopes_appended pc frame s s1 ->
  scopes_appended pc frame s (with_debug_recorder (_debug_recorder s1 ++ [e]) s1).
Proof.
  intros He (new & Hnew & Hdesc). exists (new ++ [e]). split.
  - simpl. rewrite Hnew, app_assoc. reflexivity.
  - rewrite described_app, He, app_nil_r. exact Hdesc.
Qed.

Lemma scopes_appended_same pc frame (s s1 s2 : CodeInstaller code) :
  _debug_recorder s2 = _debug_recorder s1 ->
  scopes_appended pc frame s s1 -> scopes_appended pc frame s s2.
Proof. intros Heq (new & Hnew & Hdesc). exists new. rewrite Heq. auto. Qed.

Lemma site_Safepoint_scopes fuel pc_offset debug_info frame (s s' : CodeInstaller code) :
  bytecodePosition debug_info = Some frame ->
  site_Safepoint cfg heap fuel pc_offset (Some debug_info) s = Ok (tt, s') ->
  scopes_appended pc_offset frame s s'.
Proof.
  intros Hframe H. unfold site_Safepoint in H.
  apply bind_Ok in H as (u & s1 & H1 & H). apply assert_Ok in H1 as [-> _].
  rewrite Hframe in H.
  apply bind_Ok in H as (tfs & s1 & H1 & H). unfold gets in H1. injection H1 as <- <-.
  apply bind_Ok in H as (pcount & s2 & H2 & H). unfold gets in H2. injection H2 as <- <-.
  apply bind_Ok in H as (map & s3 & H3 & H). apply create_oop_map_Ok in H3 as [-> _].
  apply bind_Ok in H as (u1 & s4 & H4 & H). unfold debug_event, modify in H4.
  injection H4 as _ <-.
  apply bind_Ok in H as (u2 & s5 & H5 & H). unfold new_objects, modify in H5.
  injection H5 as _ <-.
  apply bind_Ok in H as ([] & s6 & H6 & H).
  apply record_scope_events in H6 as (_ & new & Hnew & Hdesc & _). simpl in Hnew.
  unfold debug_event, modify in H. injection H as <-.
  exists (add_safepoint pc_offset (-1) map :: new ++ [end_safepoint pc_offset]). split.
  - simpl. rewrite Hnew, <- !app_assoc. reflexivity.
  - simpl. rewrite described_app, app_nil_r. exact Hdesc.
Qed.

Lemma site_Call_scopes fuel pc_offset target debug_info frame (s s' : CodeInstaller code) :
  is_installed_code target = false ->
  bytecodePosition debug_info = Some frame ->
  site_Call cfg heap fuel pc_offset target (Some debug_info) s = Ok (tt, s') ->
  exists next_pc_offset, scopes_appended next_pc_offset frame s s'.
Proof.
  intros Htarget Hframe H. unfold site_Call in H.
  apply bind_Ok in H as (inst & s1 & H1 & H).
  unfold instruction_address, gets in H1. injection H1 as <- <-.
  apply bind_Ok in H as (c & s2 & H2 & H).
  unfold current_code, gets in H2. injection H2 as <- <-.
  apply bind_Ok in H as (next & s3 & H3 & H). apply decode_call_Ok in H3. subst s3.
  exists next.
  assert (Hrest : exists s1 s2,
            scopes_appended next frame s s1 /\
            _debug_recorder s2 = _debug_recorder s1 /\
            s' = with_debug_recorder
                   (_debug_recorder
                      (with_next_call_type (MARK_INVOKE_INVALID (marks cfg)) s2)
                    ++ [end_safepoint next])
                   (with_next_call_type (MARK_INVOKE_INVALID (marks cfg)) s2)).
  { destruct target; try discriminate.
    - apply bind_Ok in H as ([] & s1 & H1 & H).
      unfold call_debug_info in H1. rewrite Hframe in H1.
      apply safepoint_scopes in H1.
      apply bind_Ok in H as (u2 & s2 & H2 & H).
      apply bind_Ok in H as (u3 & s3 & H3 & H). unfold modify in H3. injection H3 as _ <-.
      unfold debug_event, modify in H. injection H as <-.
      exists s1, s2. split; [exact H1|]. split; [|reflexivity].
      inv_site; reflexivity.
    - apply bind_Ok in H as ([] & s1 & H1 & H).
      unfold call_debug_info in H1. rewrite Hframe in H1.
      apply safepoint_scopes in H1.
      apply bind_Ok in H as (u2 & s2 & H2 & H).
      apply bind_Ok in H as (u3 & s3 & H3 & H). unfold modify in H3. injection H3 as _ <-.
      unfold debug_event, modify in H. injection H as <-.
      exists s1, s2. split; [exact H1|]. split; [|reflexivity].
      inv_site; reflexivity. }
  destruct Hrest as (s1 & s2 & Hscopes & Hsame & ->).
  apply scopes_appended_event; [reflexivity|].
  eapply scopes_appended_same; [|exact Hscopes]. simpl. exact Hsame.
Qed.

(** C1 (as amended): for every safepoint site, and every call site whose
    target is not installed code, that carries debug info with a position
    chain of depth n, the scope recorder describes exactly n scopes, each
    caller before its callee; the chain the runtime reads from the debug-info
    table, entered at the scope described last, runs from the innermost frame
    to the outermost. *)
Theorem C1_site_records_scope_chain fuel site debug_info frame
    (s s' : CodeInstaller code) :
  records_scopes site = true ->
  site_debug_info site = Some debug_info ->
  bytecodePosition debug_info = Some frame ->
  dispatch_site cfg heap fuel site s = Ok (tt, s') ->
  exists pc new,
    _debug_recorder s' = _debug_recorder s ++ new /\
    length (described new) = depth frame /\
    described new = map (summary_of pc) (rev (chain frame)) /\
    scope_chain new = map (summary_of pc) (chain frame).
Proof.
  intros Hrec Hinfo Hframe H.
  assert (Hs : exists pc, scopes_appended pc frame s s').
  { destruct site; try discriminate; simpl in Hrec, Hinfo, H; subst.
    - eapply site_Call_scopes; eauto. apply negb_true_iff, Hrec.
    - eexists. eapply site_Safepoint_scopes; eauto. }
  destruct Hs as (pc & new & Hnew & Hdesc). exists pc, new.
  split; [exact Hnew|]. split; [|split; [exact Hdesc|]].
  - rewrite Hdesc, length_map, length_rev. reflexivity.
  - unfold scope_chain. rewrite Hdesc, <- map_rev, rev_involutive. reflexivity.
Qed.
End SiteScopes.

Lemma C1_site_records_scope_chain_witness :
  exists pc new,
    _debug_recorder chain_safepoint_recorded
    = _debug_recorder (sample_installer no_code) ++ new /\
    length (described new) = depth frame_C /\
    described new = map (summary_of pc) (rev (chain frame_C)) /\
    scope_chain new = map (summary_of pc) (chain frame_C).
Proof.
  apply (C1_site_records_scope_chain (sample_config true) [] 1
           (CompilationResult_Safepoint 10 (Some chain_info)) chain_info frame_C
           (sample_installer no_code) chain_safepoint_recorded).
  - reflexivity.
  - reflexivity.
  - reflexivity.
  - vm_compute. reflexivity.
Defined.

Lemma C1_installed_code_counterexample :
  records_scopes (CompilationResult_Call 16 (HotSpotInstalledCode 99999) (Some chain_info))
  = false /\
  depth frame_C = 3%nat /\
  exists s',
    dispatch_site (sample_config true) [] 1
      (CompilationResult_Call 16 (HotSpotInstalledCode 99999) (Some chain_info))
      (sample_installer jump_code) = Ok (tt, s') /\
    described (_debug_recorder s') = [].
Proof.
  split; [reflexivity|]. split; [reflexivity|].
  eexists. split; vm_compute; reflexivity.
Qed.

(** ** Out-of-line constants *)

Lemma align_size_up_spec size alignment :
  0 < alignment ->
  align_size_up size alignment mod alignment = 0 /\
  size <= align_size_up size alignment < size + alignment.
Proof.
  intros Ha. unfold align_size_up. split; [apply Z.mod_mul; lia|].
  pose proof (Z.div_mod (size + alignment - 1) alignment ltac:(lia)) as Hd.
  pose proof (Z.mod_pos_bound (size + alignment - 1) alignment Ha) as Hb.
  lia.
Qed.

Lemma align_size_up_power_of_two size k :
  0 <= k -> align_size_up size (2 ^ k) = align_size_up_mask size (2 ^ k).
Proof.
  intros Hk. unfold align_size_up, align_size_up_mask.
  rewrite <- Z.ldiff_land.
  replace (2 ^ k - 1) with (Z.ones k) by (rewrite Z.ones_equiv; lia).
  rewrite Z.ldiff_ones_r by exact Hk.
  rewrite Z.shiftr_div_pow2, Z.shiftl_mul_pow2 by exact Hk.
  rewrite Z.ones_equiv. do 2 f_equal. lia.
Qed.

Lemma out_of_line_kind typeChar :
  existsb (Ascii.eqb typeChar) ["f"; "j"; "d"]%char = true ->
  existsb (Ascii.eqb typeChar) ["z"; "b"; "s"; "c"; "i"]%char = false.
Proof.
  simpl. rewrite !orb_false_r, !orb_true_iff, !Ascii.eqb_eq.
  intros [->|[->| ->]]; reflexivity.
Qed.

Section DataPatch.
Context (cfg : VMConfig) {code : Type} `{!NativeInst code}.

(** C7 (as amended): for a constant of kind float, long or double that is
    not inlined and asks for a positive alignment, the constant is written in
    the constants section at an offset that is a multiple of the alignment
    (the alignment being at most that of the section, else the installer
    stops), and the displacement stored in the instruction is the address of
    the constant minus the address of the next instruction, truncated to 32
    bits: when it fits, as the debug build asserts, the next instruction's
    address plus the displacement is the address of the constant. *)
Theorem C7_constant_out_of_line pc_offset typeChar primitive object alignment
    (s s' : CodeInstaller code) :
  existsb (Ascii.eqb typeChar) ["f"; "j"; "d"]%char = true ->
  0 < alignment ->
  let size := consts_end (_buffer s) - consts_start (_buffer s) in
  0 <= size -> size + alignment <= 2 ^ 31 ->
  site_DataPatch cfg pc_offset typeChar primitive object alignment false s = Ok (tt, s') ->
  let instruction := insts_start (_buffer s) + pc_offset in
  let c := mem (_buffer s) in
  let operand := locate_operand c instruction disp32_operand in
  let next_instruction := locate_next_instruction c instruction in
  exists offset,
    alignment <= constants_alignment cfg /\
    size <= offset < size + alignment /\
    offset mod alignment = 0 /\
    let dest := consts_start (_buffer s) + offset in
    let disp := to_jint (dest - next_instruction) in
    mem (_buffer s') = store_jint (store_jlong c dest primitive) operand disp /\
    consts_end (_buffer s') = dest + BytesPerLong /\
    relocs (_buffer s')
    = relocs (_buffer s)
      ++ [relocate instruction (section_word_Relocation dest) disp32_operand] /\
    (- 2 ^ 31 <= dest - next_instruction < 2 ^ 31 -> next_instruction + disp = dest) /\
    (ASSERT cfg = true -> next_instruction + disp = dest).
Proof.
  intros Hkind Halign size Hsize Hfit H instruction c operand next_instruction.
  unfold site_DataPatch in H.
  apply bind_Ok in H as (inst & s1 & H1 & H).
  unfold instruction_address, gets in H1. injection H1 as <- <-.
  rewrite (out_of_line_kind _ Hkind), Hkind in H.
  apply bind_Ok in H as (u & s2 & H2 & H). apply on_recorder_Ok in H2 as (r' & _ & ->).
  apply bind_Ok in H as (c' & s3 & H3 & H).
  unfold current_code, gets in H3. injection H3 as <- <-.
  apply bind_Ok in H as (size' & s4 & H4 & H).
  unfold gets in H4. injection H4 as <- <-. simpl in H.
  fold size in H. rewrite (to_jint_small size) in H by lia.
  apply bind_Ok in H as (aligned & s5 & H5 & H).
  assert (Ha : (0 <? alignment) = true) by (apply Z.ltb_lt; exact Halign).
  rewrite Ha in H5.
  apply bind_Ok in H5 as (u1 & s6 & H6 & H5). unfold guarantee in H6.
  destruct (alignment <=? constants_alignment cfg) eqn:Hle; [|discriminate].
  unfold ret in H6, H5. injection H6 as _ <-. injection H5 as <- <-.
  destruct (align_size_up_spec size alignment Halign) as [Hmod Hrange].
  rewrite (to_jint_small (align_size_up size alignment)) in H by lia.
  exists (align_size_up size alignment).
  split; [apply Z.leb_le; exact Hle|]. split; [exact Hrange|]. split; [exact Hmod|].
  apply bind_Ok in H as (dest & s7 & H7 & H). unfold gets in H7. injection H7 as <- <-.
  simpl in H.
  apply bind_Ok in H as (u2 & s8 & H8 & H). unfold constants_set_end in H8.
  apply bind_Ok in H8 as (limit & s9 & H9 & H8). unfold gets in H9. injection H9 as <- <-.
  apply bind_Ok in H8 as (u3 & s10 & H10 & H8). unfold guarantee in H10.
  match type of H10 with
  | context [if ?b then _ else _] => destruct b; [|discriminate]
  end.
  unfold ret in H10. injection H10 as _ <-.
  unfold modify in H8. injection H8 as _ <-.
  apply bind_Ok in H as (u4 & s11 & H11 & H). unfold patch, modify in H11.
  injection H11 as _ <-.
  apply bind_Ok in H as (u5 & s12 & H12 & H). apply assert_Ok in H12 as [-> Hdisp].
  apply bind_Ok in H as (u6 & s13 & H13 & H). unfold patch, modify in H13.
  injection H13 as _ <-.
  unfold instructions_relocate, modify in H. injection H as <-. simpl.
  fold c instruction operand next_instruction.
  repeat split; try reflexivity.
  - intros Hd. rewrite to_jint_small by exact Hd. lia.
  - intros Hdebug. specialize (Hdisp Hdebug). simpl in Hdisp.
    apply Z.eqb_eq in Hdisp. fold c instruction next_instruction in Hdisp.
    rewrite <- Hdisp. lia.
Qed.
End DataPatch.

(** ** Computations that respect a relation on states *)

Section Respects.
Context {S : Type} (R : S -> S -> Prop) `{!PreOrder R}.

Lemma respects_ret {A} (a : A) : respects R (ret a).
Proof. intros s a' s' H. unfold ret in H. simplify_eq. reflexivity. Qed.

Lemma respects_fatal {A} msg : respects R (@fatal S A msg).
Proof. intros s a s' H. discriminate. Qed.

Lemma respects_undefined {A} why : respects R (@undefined S A why).
Proof. intros s a s' H. discriminate. Qed.

Lemma respects_out_of_fuel {A} : respects R (@out_of_fuel S A).
Proof. intros s a s' H. discriminate. Qed.

Lemma respects_ShouldNotReachHere {A} : respects R (@ShouldNotReachHere S A).
Proof. intros s a s' H. discriminate. Qed.

Lemma respects_get : respects R get.
Proof. intros s a s' H. unfold get in H. simplify_eq. reflexivity. Qed.

Lemma respects_gets {A} (f : S -> A) : respects R (gets f).
Proof. intros s a s' H. unfold gets in H. simplify_eq. reflexivity. Qed.

Lemma respects_modify (f : S -> S) : (forall s, R s (f s)) -> respects R (modify f).
Proof. intros Hf s a s' H. unfold modify in H. simplify_eq. apply Hf. Qed.

Lemma respects_bind {A B} (m : M S A) (k : A -> M S B) :
  respects R m -> (forall a, respects R (k a)) -> respects R (bind m k).
Proof.
  intros Hm Hk s b s' H. apply bind_Ok in H as (a & s1 & H1 & H2).
  etransitivity; [eapply Hm | eapply Hk]; eauto.
Qed.

Lemma respects_assert cfg p msg : respects R (assert cfg p msg).
Proof.
  unfold assert. destruct (ASSERT cfg); [destruct p|];
    auto using respects_ret, respects_fatal.
Qed.

Lemma respects_guarantee p msg : respects R (guarantee p msg).
Proof. unfold guarantee. destruct p; auto using respects_ret, respects_fatal. Qed.

Lemma respects_for_each {A} (l : list A) (body : A -> M S unit) :
  (forall x, respects R (body x)) -> respects R (for_each l body).
Proof.
  intros Hb. induction l as [|x l IH]; simpl; [apply respects_ret|].
  apply respects_bind; auto.
Qed.

Lemma respects_foldM {A B} (body : B -> A -> M S B) (l : list A) b :
  (forall b x, respects R (body b x)) -> respects R (foldM body l b).
Proof.
  intros Hb. revert b. induction l as [|x l IH]; intros b; simpl; [apply respects_ret|].
  apply respects_bind; auto.
Qed.
End Respects.

Ltac respects_step :=
  first
    [ apply respects_ret | apply respects_fatal | apply respects_undefined
    | apply respects_out_of_fuel | apply respects_ShouldNotReachHere
    | apply respects_get | apply respects_gets
    | apply respects_assert | apply respects_guarantee
    | apply respects_bind; [..|intros]
    | match goal with
      | |- respects _ (match ?x with _ => _ end) => destruct x
      end ];
  try (apply _).

Section InstallerRelations.
Context (cfg : VMConfig) (heap : JavaHeap) {code : Type} `{!NativeInst code}.
Context (R : CodeInstaller code -> CodeInstaller code -> Prop) `{!PreOrder R}.

(** The decoder leaves the installer alone. *)
Lemma respects_create_oop_map tfs pcount rm fm :
  respects R (create_oop_map cfg tfs pcount rm fm).
Proof. intros s m s' H. apply create_oop_map_Ok in H as [-> _]. reflexivity. Qed.

Lemma respects_decode_call pc_offset target inst c :
  respects R (decode_call cfg pc_offset target inst c).
Proof. intros s m s' H. apply decode_call_Ok in H as ->. reflexivity. Qed.

(** The scope recorder respects a relation that its two kinds of steps
    respect: a run of the value loop on the translation state, and a call on
    the debug recorder. *)
Lemma respects_record_scope fuel pc_offset frame :
  (forall tfs lc ec vs acc,
      respects R (on_recorder (record_values cfg heap fuel tfs lc ec 0 vs acc))) ->
  (forall e, respects R (debug_event e)) ->
  respects R (record_scope cfg heap fuel pc_offset frame).
Proof.
  intros Hvalues Hevent. induction frame as [frame IH] using frame_induction.
  rewrite record_scope_unfold.
  apply respects_bind; [apply _ | |].
  { destruct (caller frame) as [c|] eqn:Ec; [apply (IH c eq_refl) | apply respects_ret, _]. }
  intros _. repeat first [apply Hvalues | apply Hevent | respects_step].
Qed.
End InstallerRelations.

Ltac installer_unfold :=
  unfold site_Safepoint, site_Call, call_debug_info, site_DataPatch, site_Mark,
    constants_set_end, offsets_set_value, array_at, new_objects, patch,
    instructions_relocate, instruction_address, current_code.

(** One step through an installer computation; [solve_modify] proves that a
    field update is in the relation, [solve_special] handles the steps that
    depend on the relation. *)
Ltac installer_step solve_special solve_modify :=
  first
    [ solve_special
    | apply respects_create_oop_map; apply _
    | apply respects_decode_call; apply _
    | apply respects_modify; intros; solve_modify
    | respects_step ].


(** ** Stack slots are recorded with the frame size of the installer *)

#[local] Instance stays_preorder : PreOrder stays.
Proof.
  split.
  - intros r. split; [auto|]. intros p id klass fields H.
    exists []. rewrite app_nil_r. exact H.
  - intros r1 r2 r3 [L12 O12] [L23 O23]. split; [auto|].
    intros p id klass fields H. apply O12 in H as [m1 H]. apply O23 in H as [m2 H].
    exists (m1 ++ m2). rewrite app_assoc. exact H.
Qed.

Lemma stack_location_stays r r' p offset :
  stays r r' -> stack_location_at (sv_store r) p offset ->
  stack_location_at (sv_store r') p offset.
Proof. intros [Hloc _] [type H]. exists type. apply Hloc, H. Qed.

Lemma fields_record_stays heap total r r' q :
  stays r r' -> fields_record heap total (sv_store r) q ->
  fields_record heap total (sv_store r') q.
Proof.
  intros Hstays (vo & klass & fields & Hvo & Hq & Hslots).
  destruct (proj2 Hstays _ _ _ _ Hq) as [more Hq'].
  exists vo, klass, (fields ++ more). split; [exact Hvo|]. split; [exact Hq'|].
  intros kind offset Hin. destruct (Hslots kind offset Hin) as (x & Hx & Hat).
  exists x. split; [apply elem_of_app; auto|].
  eapply stack_location_stays; eauto.
Qed.

#[local] Instance translated_preorder heap total : PreOrder (translated heap total).
Proof.
  split.
  - intros r. split; [reflexivity | auto].
  - intros r1 r2 r3 [S12 O12] [S23 O23]. split; [etransitivity; eauto|].
    intros q Hq. destruct (O23 q Hq) as [Hq2|Hq3]; [|auto].
    destruct (O12 q Hq2) as [Hq1|Hq2']; [auto|].
    right. eapply fields_record_stays; eauto.
Qed.

Lemma translated_stays {A} heap total (m : M Recorder A) :
  respects (translated heap total) m -> respects stays m.
Proof. intros Hm r a r' H. apply (Hm r a r' H). Qed.

Lemma stays_new_sv v : respects stays (new_sv v).
Proof.
  intros r p r' H. unfold new_sv in H. simplify_eq. split; simpl.
  - intros q loc Hq. apply lookup_app_l_Some, Hq.
  - intros q id klass fields Hq. exists [].
    rewrite app_nil_r. apply lookup_app_l_Some, Hq.
Qed.

Lemma stays_field_values_append sv x : respects stays (field_values_append sv x).
Proof.
  intros r u r' H. unfold field_values_append in H.
  destruct (sv_store r !! sv) as [[| | | |id klass fields]|] eqn:Hsv; try discriminate.
  simplify_eq. split; simpl.
  - intros q loc Hq. rewrite list_lookup_insert_ne by congruence. exact Hq.
  - intros q id' klass' fields' Hq. destruct (decide (q = sv)) as [->|Hne].
    + rewrite Hsv in Hq. simplify_eq. exists [x].
      apply list_lookup_insert_eq. eapply lookup_lt_Some, Hsv.
    + exists []. rewrite app_nil_r, list_lookup_insert_ne by congruence. exact Hq.
Qed.

(** A step that leaves the seen-objects array alone. *)
Lemma translated_same_objects {A} heap total (m : M Recorder A) :
  respects stays m ->
  (forall r a r', m r = Ok (a, r') -> objects r' = objects r) ->
  respects (translated heap total) m.
Proof.
  intros Hstays Hobjects r a r' H. split; [eapply Hstays, H|].
  intros q Hq. rewrite (Hobjects _ _ _ H) in Hq. auto.
Qed.

Lemma translated_new_sv heap total v : respects (translated heap total) (new_sv v).
Proof.
  apply translated_same_objects; [apply stays_new_sv|].
  intros r p r' H. unfold new_sv in H. simplify_eq. reflexivity.
Qed.

Lemma translated_find_index heap total klass :
  respects (translated heap total) (find_index klass).
Proof.
  intros r u r' H. unfold find_index in H.
  destruct (bool_decide _); simplify_eq; [reflexivity|].
  split; [|auto]. split; simpl; [auto|].
  intros p id k fields Hp. exists []. rewrite app_nil_r. exact Hp.
Qed.

Lemma translated_field_values_append heap total sv x :
  respects (translated heap total) (field_values_append sv x).
Proof.
  apply translated_same_objects; [apply stays_field_values_append|].
  intros r u r' H. unfold field_values_append in H.
  destruct (sv_store r !! sv) as [[| | | |id klass fields]|]; try discriminate.
  simplify_eq. reflexivity.
Qed.

Lemma field_values_append_cell sv x r u r' id klass fields :
  field_values_append sv x r = Ok (u, r') ->
  sv_store r !! sv = Some (ObjectValue id klass fields) ->
  sv_store r' !! sv = Some (ObjectValue id klass (fields ++ [x])).
Proof.
  intros H Hsv. unfold field_values_append in H. rewrite Hsv in H. simplify_eq.
  simpl. apply list_lookup_insert_eq. eapply lookup_lt_Some, Hsv.
Qed.

Lemma for_each_done {S A} (I : list A -> S -> Prop) (body : A -> M S unit) l :
  (forall done x s s', I done s -> body x s = Ok (tt, s') -> I (done ++ [x]) s') ->
  forall done s s', I done s -> for_each l body s = Ok (tt, s') -> I (done ++ l) s'.
Proof.
  intros Hbody. induction l as [|x l IH]; intros done s s' HI H; simpl in H.
  - unfold ret in H. simplify_eq. rewrite app_nil_r. exact HI.
  - apply bind_Ok in H as ([] & s1 & Hx & H).
    replace (done ++ x :: l) with ((done ++ [x]) ++ l) by (rewrite <- app_assoc; reflexivity).
    eapply IH; [|exact H]. eapply Hbody; eauto.
Qed.

Ltac in_list :=
  repeat first [apply list_elem_of_here | apply list_elem_of_further].

Ltac translated_step :=
  first
    [ apply translated_new_sv | apply translated_find_index
    | apply translated_field_values_append | respects_step ].

Section StackSlots.
Context (cfg : VMConfig) (heap : JavaHeap).

Lemma translated_record_metadata_in_constant total kind prim obj :
  respects (translated heap total) (record_metadata_in_constant cfg kind prim obj).
Proof. unfold record_metadata_in_constant. repeat translated_step. Qed.

Lemma translated_field_body total translate isLongArray sv field :
  (forall v, respects (translated heap total) (translate v)) ->
  respects (translated heap total) (field_body cfg translate isLongArray sv field).
Proof.
  intros Ht. unfold field_body.
  apply respects_bind; [apply _ | apply Ht |]. intros [value cur_second].
  repeat translated_step.
Qed.

(** The loop body appends the translated field value to the fields of the
    object value under construction. *)
Lemma field_body_appends translate isLongArray sv field r r' :
  field_body cfg translate isLongArray sv field r = Ok (tt, r') ->
  exists value second r1,
    translate field r = Ok ((value, second), r1) /\
    stays r1 r' /\
    forall id klass fields,
      sv_store r1 !! sv = Some (ObjectValue id klass fields) ->
      exists more,
        sv_store r' !! sv = Some (ObjectValue id klass (fields ++ more)) /\
        value ∈ more.
Proof.
  intros H. unfold field_body in H.
  apply bind_Ok in H as ([value cur_second] & r1 & Ht & H).
  exists value, cur_second, r1. split; [exact Ht|].
  apply bind_Ok in H as ([value' cur_second'] & r2 & Hpad & H).
  apply bind_Ok in H as ([] & r3 & H1 & H2).
  assert (Hcases :
    stays r1 r2 /\
    (forall id klass fields,
        sv_store r1 !! sv = Some (ObjectValue id klass fields) ->
        sv_store r2 !! sv = Some (ObjectValue id klass fields)) /\
    (value' = value \/ cur_second' = Some value)).
  { destruct cur_second as [second|].
    - unfold ret in Hpad. simplify_eq. split; [reflexivity|]. auto.
    - destruct isLongArray.
      + apply bind_Ok in Hpad as (zero & r0 & Hz & Hpad).
        assert (Hr : r2 = r0 /\ (value' = value \/ cur_second' = Some value)).
        { destruct (VM_LITTLE_ENDIAN cfg); unfold ret in Hpad; simplify_eq; auto. }
        destruct Hr as [-> Hv]. split; [eapply stays_new_sv, Hz|]. split; [|exact Hv].
        intros id klass fields Hsv. unfold new_sv in Hz. simplify_eq. simpl.
        apply lookup_app_l_Some, Hsv.
      + unfold ret in Hpad. simplify_eq. split; [reflexivity|]. auto. }
  destruct Hcases as (Hstays & Hcell & Hvalue). split.
  - etransitivity; [exact Hstays|]. etransitivity; [|eapply stays_field_values_append, H2].
    destruct cur_second' as [second'|]; [eapply stays_field_values_append, H1|].
    unfold ret in H1. simplify_eq. reflexivity.
  - intros id klass fields Hsv. apply Hcell in Hsv.
    destruct cur_second' as [second'|].
    + apply (field_values_append_cell _ _ _ _ _ _ _ _ H1) in Hsv.
      apply (field_values_append_cell _ _ _ _ _ _ _ _ H2) in Hsv.
      rewrite <- app_assoc in Hsv. eexists. split; [exact Hsv|].
      destruct Hvalue as [->|Hv]; [|simplify_eq]; in_list.
    + unfold ret in H1. simplify_eq.
      apply (field_values_append_cell _ _ _ _ _ _ _ _ H2) in Hsv.
      eexists. split; [exact Hsv|]. destruct Hvalue as [->|Hv]; [in_list|discriminate].
Qed.

(** The translation of a value loses nothing, and every object value it
    registers has its stack-slot fields recorded with the frame size that the
    translation was given. *)
Lemma translated_get_hotspot_value fuel v tfs :
  respects (translated heap tfs) (get_hotspot_value cfg heap fuel v tfs).
Proof.
  revert v. induction fuel as [|fuel IH]; intros v; simpl.
  - apply respects_out_of_fuel.
  - destruct (is_ILLEGAL v); [repeat translated_step|].
    apply respects_bind; [apply _ | unfold Value_type; repeat translated_step |].
    intros type.
    destruct v; try apply respects_fatal.
    + repeat translated_step.
    + repeat translated_step.
    + apply respects_bind; [apply _ | apply translated_record_metadata_in_constant |].
      intros _. repeat translated_step.
    + destruct (heap !! address) as [vo|] eqn:Hvo; [|apply respects_undefined].
      intros r res r' H.
      apply bind_Ok in H as (s & r0 & Hs & H). unfold get in Hs. simplify_eq.
      destruct (find_object _ _ _).
      { unfold ret in H. simplify_eq. reflexivity. }
      apply bind_Ok in H as (klass & r1 & Hk & H).
      apply bind_Ok in H as (sv & r2 & Hsv & H).
      apply bind_Ok in H as (u & r3 & Ha & H).
      apply bind_Ok in H as ([] & r4 & Hloop & H). unfold ret in H. simplify_eq.
      pose proof (translated_new_sv heap tfs _ _ _ _ Hk) as T1.
      pose proof (translated_new_sv heap tfs _ _ _ _ Hsv) as T2.
      assert (Hcell : sv_store r3 !! sv = Some (ObjectValue (vo_id vo) klass [])).
      { unfold new_sv in Hsv. unfold objects_append in Ha. simplify_eq. simpl.
        apply list_lookup_middle. reflexivity. }
      assert (S23 : stays r2 r3 /\ objects r3 = objects r2 ++ [sv]).
      { unfold objects_append in Ha. simplify_eq. split; [|reflexivity].
        split; simpl; [auto|]. intros p id k fields Hp. exists [].
        rewrite app_nil_r. exact Hp. }
      destruct S23 as [S23 O23].
      pose proof (respects_for_each (translated heap tfs) _ _
                    (fun field => translated_field_body tfs _ _ sv field IH)
                    _ _ _ Hloop) as [S34 O34].
      assert (Hsv' : fields_record heap tfs (sv_store r') sv).
      { assert (Hinv : exists fields,
                  sv_store r' !! sv = Some (ObjectValue (vo_id vo) klass fields) /\
                  forall kind offset,
                    StackSlot kind offset true ∈ [] ++ vo_values vo ->
                    exists x, x ∈ fields /\
                              stack_location_at (sv_store r') x (to_jint (offset + tfs))).
        { revert Hloop.
          apply (for_each_done
                   (fun done ra => exists fields,
                      sv_store ra !! sv = Some (ObjectValue (vo_id vo) klass fields) /\
                      forall kind offset,
                        StackSlot kind offset true ∈ done ->
                        exists x, x ∈ fields /\
                                  stack_location_at (sv_store ra) x (to_jint (offset + tfs)))).
          - intros done field ra rb (fields & Hobj & Hslots) Hbody.
            apply field_body_appends in Hbody as (value & second & rm & Ht & Hmb & Happ).
            pose proof (translated_stays _ _ _ (IH field) _ _ _ Ht) as Ham.
            destruct (proj2 Ham _ _ _ _ Hobj) as [more1 Hobj1].
            destruct (Happ _ _ _ Hobj1) as (more2 & Hobj2 & Hvalue).
            eexists. split; [exact Hobj2|].
            intros k o Hin. apply elem_of_app in Hin as [Hin|Hin].
            + destruct (Hslots k o Hin) as (x & Hx & Hat). exists x.
              split; [rewrite <- app_assoc; apply elem_of_app; auto|].
              eapply stack_location_stays; [exact Hmb|].
              eapply stack_location_stays; [exact Ham|]. exact Hat.
            + apply list_elem_of_singleton in Hin. subst field.
              apply get_hotspot_value_StackSlot in Ht as [t Ht]. exists value.
              split; [apply elem_of_app; auto|].
              eapply stack_location_stays; [exact Hmb|]. exists t. exact Ht.
          - exists []. split; [exact Hcell|]. intros k o Hin. inversion Hin. }
        destruct Hinv as (fields & Hobj & Hslots).
        exists vo, klass, fields. split; [eapply list_elem_of_lookup_2, Hvo|]. auto. }
      split.
      * etransitivity; [apply T1|]. etransitivity; [apply T2|].
        etransitivity; [exact S23 | exact S34].
      * intros q Hq. destruct (O34 q Hq) as [Hq3|Hq4]; [|auto].
        rewrite O23 in Hq3. apply elem_of_app in Hq3 as [Hq2|Hq3].
        -- left. destruct T1 as [_ O1]. destruct T2 as [_ O2].
           unfold new_sv in Hk, Hsv. simplify_eq. exact Hq2.
        -- apply list_elem_of_singleton in Hq3. subst q. auto.
Qed.
End StackSlots.

Lemma monitor_records_stays total r r' owner lockData m :
  stays r r' -> monitor_records total (sv_store r) owner lockData m ->
  monitor_records total (sv_store r') owner lockData m.
Proof.
  intros Hstays [Ho Hl]. split; [|exact Hl].
  intros kind offset Hk. eapply stack_location_stays; eauto.
Qed.

Lemma slots_record_stays total r r' lc ec i vs ls es ms ls' es' ms' :
  stays r r' -> ls ++ es ⊆ ls' ++ es' -> ms ⊆ ms' ->
  slots_record total (sv_store r) lc ec i vs ls es ms ->
  slots_record total (sv_store r') lc ec i vs ls' es' ms'.
Proof.
  intros Hstays Hl Hm [Hslots Hmons]. split.
  - intros n kind offset Hn Hi. destruct (Hslots n kind offset Hn Hi) as (p & Hp & Hat).
    exists p. split; [apply Hl, Hp|]. eapply stack_location_stays; eauto.
  - intros n kind owner lockData eliminated Hn Hi.
    destruct (Hmons n kind owner lockData eliminated Hn Hi) as (m & Hin & Hrec).
    exists m. split; [apply Hm, Hin|]. eapply monitor_records_stays; eauto.
Qed.

#[local] Instance lists_kept_preorder : PreOrder lists_kept.
Proof.
  split.
  - intros acc. repeat split; reflexivity.
  - intros a b c (L1 & E1 & M1) (L2 & E2 & M2).
    repeat split; etransitivity; eauto.
Qed.

Lemma lists_kept_scope_values acc out :
  lists_kept acc out -> locals acc ++ expressions acc ⊆ locals out ++ expressions out.
Proof.
  intros (L & E & _) p Hp. apply elem_of_app in Hp as [Hp|Hp]; apply elem_of_app; auto.
Qed.

Lemma lists_kept_add_scope_value lc ec i acc first second :
  lists_kept acc (add_scope_value lc ec i acc first second) /\
  first ∈ locals (add_scope_value lc ec i acc first second)
          ++ expressions (add_scope_value lc ec i acc first second).
Proof.
  unfold add_scope_value, lists_kept.
  destruct (i <? lc); simpl; (split; [repeat split; try reflexivity|]).
  - intros p Hp. apply elem_of_app. left. destruct second; simpl; [apply elem_of_app|]; auto.
  - apply elem_of_app. left. apply elem_of_app. right. in_list.
  - intros p Hp. apply elem_of_app. left. destruct second; simpl; [apply elem_of_app|]; auto.
  - apply elem_of_app. right. apply elem_of_app. right. in_list.
Qed.

Lemma lists_kept_add_monitor acc m :
  lists_kept acc (add_monitor acc m) /\ m ∈ monitors (add_monitor acc m).
Proof.
  unfold add_monitor, lists_kept. simpl. split; [repeat split; try reflexivity|].
  - intros p Hp. apply elem_of_app. auto.
  - apply elem_of_app. right. in_list.
Qed.

Section ValueLists.
Context (cfg : VMConfig) (heap : JavaHeap).

Lemma translated_get_monitor_value fuel v tfs :
  respects (translated heap tfs) (get_monitor_value cfg heap fuel v tfs).
Proof.
  unfold get_monitor_value. destruct v; try apply respects_fatal.
  apply respects_bind; [apply _ | apply translated_get_hotspot_value |].
  intros [owner_value second].
  apply respects_bind; [apply _ | apply respects_assert, _ |]. intros _.
  apply respects_bind; [apply _ | apply translated_get_hotspot_value |].
  intros [lock second']. repeat translated_step.
Qed.

(** The monitor value is made of the translations of the owner and of the
    lock data, both made with the frame size given. *)
Lemma get_monitor_value_records fuel kind owner lockData eliminated tfs r m r' :
  get_monitor_value cfg heap fuel (code_MonitorValue kind owner lockData eliminated) tfs r
    = Ok (m, r') ->
  monitor_records tfs (sv_store r') owner lockData m.
Proof.
  intros H. unfold get_monitor_value in H.
  apply bind_Ok in H as ([owner_value second] & r1 & Ho & H).
  apply bind_Ok in H as (u1 & r2 & H1 & H). apply assert_Ok in H1 as [-> _].
  apply bind_Ok in H as ([lock second'] & r2 & Hl & H).
  apply bind_Ok in H as (u2 & r3 & H2 & H). apply assert_Ok in H2 as [-> _].
  apply bind_Ok in H as (s & r3 & H3 & H). unfold get in H3. injection H3 as <- <-.
  apply bind_Ok in H as (u3 & r3 & H3 & H). apply assert_Ok in H3 as [-> _].
  destruct (is_location (sv_store r2) lock) as [loc|] eqn:Hloc; [|discriminate].
  unfold ret in H. simplify_eq. split; simpl.
  - intros k o ->. apply get_hotspot_value_StackSlot in Ho.
    eapply stack_location_stays; [|exact Ho].
    eapply translated_stays; [apply translated_get_hotspot_value | exact Hl].
  - intros k o ->. apply get_hotspot_value_StackSlot in Hl as [type Hl].
    exists type. unfold is_location in Hloc. rewrite Hl in Hloc. simplify_eq. reflexivity.
Qed.

(** One turn of the loop loses nothing, and what it appends records the
    value it has translated. *)
Lemma record_values_turn_records fuel tfs lc ec i value acc r acc1 second r1 :
  (if (i <? lc) || (i <? jint_add lc ec) then
     exists first,
       get_hotspot_value cfg heap fuel value tfs r = Ok ((first, second), r1) /\
       acc1 = add_scope_value lc ec i acc first second
   else
     exists m,
       get_monitor_value cfg heap fuel value tfs r = Ok (m, r1) /\
       acc1 = add_monitor acc m /\ second = None) ->
  translated heap tfs r r1 /\ lists_kept acc acc1 /\
  slots_record tfs (sv_store r1) lc ec i [value]
    (locals acc1) (expressions acc1) (monitors acc1).
Proof.
  unfold slots_record, is_scope_value. destruct (_ || _) eqn:Hi.
  - intros (first & Hg & ->).
    destruct (lists_kept_add_scope_value lc ec i acc first second) as [Hkept Hfirst].
    split; [eapply translated_get_hotspot_value, Hg|]. split; [exact Hkept|]. split.
    + intros [|n] k o Hn Hrange; [|destruct n; discriminate]. simpl in Hn. simplify_eq.
      exists first. split; [exact Hfirst|].
      apply get_hotspot_value_StackSlot in Hg. exact Hg.
    + intros [|n] k o l e Hn Hrange; [|destruct n; discriminate].
      rewrite Z.add_0_r in Hrange. congruence.
  - intros (m & Hg & -> & ->).
    destruct (lists_kept_add_monitor acc m) as [Hkept Hm].
    split; [eapply translated_get_monitor_value, Hg|]. split; [exact Hkept|]. split.
    + intros [|n] k o Hn Hrange; [|destruct n; discriminate].
      rewrite Z.add_0_r in Hrange. congruence.
    + intros [|n] k o l e Hn Hrange; [|destruct n; discriminate]. simpl in Hn. simplify_eq.
      exists m. split; [exact Hm|]. eapply get_monitor_value_records, Hg.
Qed.

(** The value loop loses nothing and only appends to its lists. *)
Lemma record_values_translated fuel tfs lc ec i vs acc r out r' :
  record_values cfg heap fuel tfs lc ec i vs acc r = Ok (out, r') ->
  translated heap tfs r r' /\ lists_kept acc out.
Proof.
  remember (length vs) as n eqn:Hn.
  revert i vs acc r Hn. induction n as [n IH] using lt_wf_ind. intros i vs acc r Hn H.
  destruct vs as [|value rest].
  - simpl in H. unfold ret in H. simplify_eq. split; reflexivity.
  - apply record_values_turn in H as (acc1 & second & r1 & Hturn & Hrest).
    apply record_values_turn_records in Hturn as (T1 & K1 & _).
    assert (Hgo : forall j vs', (length vs' < n)%nat ->
              record_values cfg heap fuel tfs lc ec j vs' acc1 r1 = Ok (out, r') ->
              translated heap tfs r r' /\ lists_kept acc out).
    { intros j vs' Hlt Hrun. destruct (IH _ Hlt _ _ _ _ eq_refl Hrun) as [T2 K2].
      split; etransitivity; eauto. }
    destruct second as [s|].
    + destruct rest as [|next rest'].
      * destruct Hrest as (_ & -> & ->). auto.
      * destruct Hrest as [_ Hrest]. eapply Hgo; [|exact Hrest]. subst n. simpl. lia.
    + eapply Hgo; [|exact Hrest]. subst n. simpl. lia.
Qed.

(** Under the producer's invariant no stack slot and no monitor is taken for
    a placeholder: each is translated, with the frame size given to the
    loop, and what is made for it is in the lists that the loop returns. *)
Lemma record_values_records fuel tfs lc ec i vs acc r out r' :
  placeholders_ok cfg vs = true ->
  record_values cfg heap fuel tfs lc ec i vs acc r = Ok (out, r') ->
  slots_record tfs (sv_store r') lc ec i vs (locals out) (expressions out) (monitors out).
Proof.
  remember (length vs) as n eqn:Hn.
  revert i vs acc r Hn. induction n as [n IH] using lt_wf_ind. intros i vs acc r Hn Hp H.
  destruct vs as [|value rest].
  - split; intros; discriminate.
  - apply record_values_turn in H as (acc1 & second & r1 & Hturn & Hrest).
    pose proof (record_values_turn_second _ _ _ _ _ _ _ _ _ _ _ _ _ Hturn) as [Hs _].
    apply record_values_turn_records in Hturn as (T1 & K1 & Hhere).
    simpl in Hp. rewrite <- Hs in Hp.
    assert (Hgo : forall k vs', (length vs' < n)%nat ->
              placeholders_ok cfg vs' = true ->
              record_values cfg heap fuel tfs lc ec (i + Z.of_nat (Datatypes.S k)) vs' acc1 r1
                = Ok (out, r') ->
              (forall m v, (value :: rest) !! m = Some v -> is_ILLEGAL v = false ->
                           m = O \/ exists m', m = (Datatypes.S k + m')%nat /\ vs' !! m' = Some v) ->
              slots_record tfs (sv_store r') lc ec i (value :: rest)
                (locals out) (expressions out) (monitors out)).
    { intros k vs' Hlt Hp' Hrun Hidx.
      pose proof (IH _ Hlt _ _ _ _ eq_refl Hp' Hrun) as [Hslots Hmons].
      apply record_values_translated in Hrun as [T2 K2].
      pose proof (slots_record_stays _ _ _ _ _ _ _ _ _ _ _ _ _
                    (proj1 T2) (lists_kept_scope_values _ _ K2) (proj2 (proj2 K2)) Hhere)
        as [Hslot0 Hmon0].
      split.
      - intros m kind offset Hm Hrange.
        destruct (Hidx _ _ Hm eq_refl) as [->|(m' & -> & Hm')].
        + apply (Hslot0 O kind offset); [exact Hm | exact Hrange].
        + apply (Hslots m' kind offset Hm'). rewrite <- Hrange. f_equal. lia.
      - intros m kind owner lockData eliminated Hm Hrange.
        destruct (Hidx _ _ Hm eq_refl) as [->|(m' & -> & Hm')].
        + apply (Hmon0 O kind owner lockData eliminated); [exact Hm | exact Hrange].
        + apply (Hmons m' kind owner lockData eliminated Hm'). rewrite <- Hrange. f_equal. lia. }
    destruct second as [s|]; simpl in Hp.
    + destruct rest as [|next rest']; [discriminate|].
      apply andb_true_iff in Hp as [Hnext Hp]. destruct Hrest as [_ Hrest].
      apply (Hgo 1%nat rest'); [subst n; simpl; lia | exact Hp | |].
      * replace (i + Z.of_nat 2) with (i + 2) by lia. exact Hrest.
      * intros [|[|m]] v Hm Hv; [auto | |right; exists m; auto].
        simpl in Hm. simplify_eq. congruence.
    + apply (Hgo 0%nat rest); [subst n; simpl; lia | exact Hp | |].
      * replace (i + Z.of_nat 1) with (i + 1) by lia. exact Hrest.
      * intros [|m] v Hm Hv; [auto | right; exists m; auto].
Qed.
End ValueLists.

Lemma for_each_elem {S A} (R : S -> S -> Prop) `{!PreOrder R} (l : list A)
    (body : A -> M S unit) x s s' :
  (forall y, respects R (body y)) ->
  for_each l body s = Ok (tt, s') -> x ∈ l ->
  exists s1 s2, R s s1 /\ body x s1 = Ok (tt, s2) /\ R s2 s'.
Proof.
  intros Hbody. revert s. induction l as [|y l IH]; intros s H Hx; [inversion Hx|].
  simpl in H. apply bind_Ok in H as ([] & s1 & Hy & H).
  apply elem_of_cons in Hx as [->|Hx].
  - exists s, s1. split; [reflexivity|]. split; [exact Hy|].
    eapply (respects_for_each R); eauto.
  - destruct (IH _ H Hx) as (sa & sb & Ha & Hrun & Hb). exists sa, sb.
    split; [|auto]. etransitivity; [eapply Hbody, Hy | exact Ha].
Qed.

#[local] Instance sites_effect_preorder {code} heap : PreOrder (@sites_effect code heap).
Proof.
  split.
  - intros s. split; [reflexivity|]. split; [reflexivity|]. exists [].
    rewrite app_nil_r. split; [reflexivity|]. intros objs q H. inversion H.
  - intros s1 s2 s3 (T12 & S12 & n1 & E1 & P1) (T23 & S23 & n2 & E2 & P2).
    split; [congruence|]. split; [etransitivity; eauto|]. exists (n1 ++ n2).
    split; [rewrite E2, E1, app_assoc; reflexivity|].
    intros objs q Hin Hq. apply elem_of_app in Hin as [Hin|Hin].
    + eapply fields_record_stays; [exact S23|]. eapply P1; eauto.
    + rewrite <- T12. eapply P2; eauto.
Qed.

Lemma sites_effect_same {code} heap (s s' : CodeInstaller code) :
  _total_frame_size s' = _total_frame_size s ->
  sv_store (_recorder s') = sv_store (_recorder s) ->
  _debug_recorder s' = _debug_recorder s ->
  sites_effect heap s s'.
Proof.
  intros Ht Hr Hd. split; [exact Ht|]. split.
  - split; rewrite Hr; [auto|]. intros p id klass fields Hp.
    exists []. rewrite app_nil_r. exact Hp.
  - exists []. rewrite app_nil_r. split; [exact Hd|]. intros objs q H. inversion H.
Qed.

Lemma frame_records_kept {code} heap total (s s' : CodeInstaller code) f :
  sites_effect heap s s' ->
  frame_records total (sv_store (_recorder s)) (_debug_recorder s) f ->
  frame_records total (sv_store (_recorder s')) (_debug_recorder s') f.
Proof.
  intros (_ & Hstays & new & Hnew & _) (pc & ls & es & ms & Hin & Hslots).
  exists pc, ls, es, ms. split.
  - rewrite Hnew. apply elem_of_app. auto.
  - eapply slots_record_stays; [exact Hstays | reflexivity | reflexivity | exact Hslots].
Qed.

Section ScopesOfSites.
Context (cfg : VMConfig) (heap : JavaHeap) {code : Type} `{!NativeInst code}.

Lemma sites_effect_on_recorder {A} (m : M Recorder A) :
  respects stays m -> respects (sites_effect (code := code) heap) (on_recorder m).
Proof.
  intros Hm s a s' H. apply on_recorder_Ok in H as (r' & Hrun & ->).
  split; [reflexivity|]. split; [eapply Hm, Hrun|]. exists [].
  rewrite app_nil_r. split; [reflexivity|]. intros objs q H. inversion H.
Qed.

(** A call on the debug recorder that dumps no object pool. *)
Lemma sites_effect_debug_event e :
  match e with dump_object_pool _ => False | _ => True end ->
  respects (sites_effect (code := code) heap) (debug_event e).
Proof.
  intros He s a s' H. unfold debug_event, modify in H. simplify_eq.
  split; [reflexivity|]. split; [reflexivity|]. exists [e]. split; [reflexivity|].
  intros objs q Hin. apply list_elem_of_singleton in Hin. subst e. destruct He.
Qed.

(** The scope recorder hands the frame size of the installer to the value
    loop of every frame of the chain: the stack slots of each frame are
    recorded with it, and so are those in the fields of every object value
    that has been registered by the time the object pool is dumped. *)
Lemma record_scope_records fuel pc_offset frame (s s' : CodeInstaller code) :
  record_scope cfg heap fuel pc_offset frame s = Ok (tt, s') ->
  _total_frame_size s' = _total_frame_size s /\
  translated heap (_total_frame_size s) (_recorder s) (_recorder s') /\
  exists new,
    _debug_recorder s' = _debug_recorder s ++ new /\
    (forall objs q,
        dump_object_pool objs ∈ new -> q ∈ objs ->
        q ∈ objects (_recorder s) \/
        fields_record heap (_total_frame_size s) (sv_store (_recorder s')) q) /\
    (forall f,
        f ∈ chain frame ->
        ASSERT cfg = true \/ placeholders_ok cfg (values f) = true ->
        frame_records (_total_frame_size s) (sv_store (_recorder s')) new f).
Proof.
  revert s s'. induction frame as [frame IH] using frame_induction. intros s s'.
  rewrite record_scope_unfold. intros H.
  apply bind_Ok in H as ([] & s1 & Hcaller & H).
  assert (Hc : _total_frame_size s1 = _total_frame_size s /\
               translated heap (_total_frame_size s) (_recorder s) (_recorder s1) /\
               exists new,
                 _debug_recorder s1 = _debug_recorder s ++ new /\
                 (forall objs q,
                     dump_object_pool objs ∈ new -> q ∈ objs ->
                     q ∈ objects (_recorder s) \/
                     fields_record heap (_total_frame_size s) (sv_store (_recorder s1)) q) /\
                 (forall f,
                     f ∈ match caller frame with Some c => chain c | None => [] end ->
                     ASSERT cfg = true \/ placeholders_ok cfg (values f) = true ->
                     frame_records (_total_frame_size s) (sv_store (_recorder s1)) new f)).
  { destruct (caller frame) as [c|] eqn:Ec.
    - apply (IH c eq_refl) in Hcaller. exact Hcaller.
    - unfold ret in Hcaller. simplify_eq. split; [reflexivity|]. split; [reflexivity|].
      exists []. rewrite app_nil_r. split; [reflexivity|].
      split; [intros objs q Hin; inversion Hin | intros f Hin; inversion Hin]. }
  destruct Hc as (Ht1 & T1 & new1 & Hnew1 & Hpools1 & Hframes1).
  apply bind_Ok in H as (u1 & s2 & Ha & H). apply assert_Ok in Ha as [-> _].
  apply bind_Ok in H as (tfs & s2 & Hg & H). unfold gets in Hg. injection Hg as <- <-.
  apply bind_Ok in H as (lists & s2 & Hvalues & H).
  apply on_recorder_Ok in Hvalues as (r2 & Hvalues & ->).
  apply bind_Ok in H as (objs & s3 & Hg & H). unfold gets in Hg. injection Hg as <- <-.
  apply bind_Ok in H as (u2 & s3 & Hd & H). unfold debug_event, modify in Hd, H.
  injection Hd as _ <-. injection H as <-. simpl. rewrite Ht1 in Hvalues.
  pose proof (record_values_translated _ _ _ _ _ _ _ _ _ _ _ _ Hvalues) as [T2 K2].
  assert (T : translated heap (_total_frame_size s) (_recorder s) r2)
    by (etransitivity; eauto).
  split; [exact Ht1|]. split; [exact T|].
  eexists. split; [rewrite Hnew1, <- !app_assoc; reflexivity|]. split.
  - intros os q Hin Hq. apply elem_of_app in Hin as [Hin|Hin].
    + destruct (Hpools1 os q Hin Hq) as [Hq0|Hq1]; [auto|].
      right. eapply fields_record_stays; [apply T2 | exact Hq1].
    + apply elem_of_cons in Hin as [Hin|Hin].
      * injection Hin as ->. apply (proj2 T q Hq).
      * apply list_elem_of_singleton in Hin. discriminate.
  - intros f Hin Hp. simpl in Hin.
    replace (chain frame)
      with (frame :: match caller frame with Some c => chain c | None => [] end) in Hin
      by (destruct frame; reflexivity).
    apply elem_of_cons in Hin as [->|Hin].
    + exists pc_offset, (locals lists), (expressions lists), (monitors lists). split.
      * apply elem_of_app. right. in_list.
      * eapply record_values_records; [|exact Hvalues].
        destruct Hp as [Hd|Hp]; [|exact Hp].
        eapply record_values_checks_placeholders; eauto.
    + destruct (Hframes1 f Hin Hp) as (pc & ls & es & ms & He & Hslots).
      exists pc, ls, es, ms. split; [apply elem_of_app; auto|].
      eapply slots_record_stays; [apply T2 | reflexivity | reflexivity | exact Hslots].
Qed.

(** The scopes of a site: the objects array is fresh, so every object value
    of a pool dumped has been made for this site. *)
Lemma scopes_recorded fuel pc_offset frame (s s' : CodeInstaller code) :
  (new_objects ;; record_scope cfg heap fuel pc_offset frame) s = Ok (tt, s') ->
  sites_effect heap s s' /\
  forall f,
    f ∈ chain frame ->
    ASSERT cfg = true \/ placeholders_ok cfg (values f) = true ->
    frame_records (_total_frame_size s) (sv_store (_recorder s')) (_debug_recorder s') f.
Proof.
  intros H. apply bind_Ok in H as (u & s1 & Hn & H).
  unfold new_objects, modify in Hn. injection Hn as _ <-.
  apply record_scope_records in H as (Ht & [Hstays _] & new & Hnew & Hpools & Hframes).
  simpl in *. split.
  - split; [exact Ht|]. split; [exact Hstays|]. exists new. split; [exact Hnew|].
    intros objs q Hin Hq. destruct (Hpools objs q Hin Hq) as [Hq0|Hq1]; [|exact Hq1].
    inversion Hq0.
  - intros f Hin Hp. destruct (Hframes f Hin Hp) as (pc & ls & es & ms & He & Hslots).
    exists pc, ls, es, ms. split; [|exact Hslots]. rewrite Hnew. apply elem_of_app. auto.
Qed.

Lemma sites_effect_scopes_last fuel pc_offset frame :
  respects (sites_effect (code := code) heap)
    (new_objects ;; record_scope cfg heap fuel pc_offset frame).
Proof. intros s [] s' H. apply scopes_recorded in H. apply H. Qed.

Lemma sites_effect_scopes {A} fuel pc_offset frame (k : M (CodeInstaller code) A) :
  respects (sites_effect heap) k ->
  respects (sites_effect heap)
    (new_objects ;; record_scope cfg heap fuel pc_offset frame ;; k).
Proof.
  intros Hk s a s' H.
  apply bind_Ok in H as (u & s1 & Hn & H). apply bind_Ok in H as ([] & s2 & Hr & H).
  etransitivity; [|eapply Hk, H].
  apply (sites_effect_scopes_last fuel pc_offset frame s tt).
  unfold bind. rewrite Hn. exact Hr.
Qed.

Ltac sites_step :=
  installer_step
    ltac:(first [ apply sites_effect_scopes
                | apply sites_effect_scopes_last
                | apply sites_effect_debug_event; exact I
                | apply sites_effect_on_recorder;
                  apply (translated_stays heap 0),
                    translated_record_metadata_in_constant ])
    ltac:(apply sites_effect_same; reflexivity).

Lemma sites_effect_dispatch_site fuel site :
  respects (sites_effect (code := code) heap) (dispatch_site cfg heap fuel site).
Proof.
  destruct site; simpl;
    unfold site_Safepoint, site_Call, call_debug_info, site_DataPatch, site_Mark,
      constants_set_end, offsets_set_value, array_at, patch,
      instructions_relocate, instruction_address, current_code;
    repeat sites_step.
Qed.

Lemma site_Safepoint_frames fuel pc_offset debug_info frame (s s' : CodeInstaller code) :
  bytecodePosition debug_info = Some frame ->
  site_Safepoint cfg heap fuel pc_offset (Some debug_info) s = Ok (tt, s') ->
  forall f,
    f ∈ chain frame ->
    ASSERT cfg = true \/ placeholders_ok cfg (values f) = true ->
    frame_records (_total_frame_size s) (sv_store (_recorder s')) (_debug_recorder s') f.
Proof.
  intros Hframe H. unfold site_Safepoint in H.
  apply bind_Ok in H as (u & s1 & H1 & H). apply assert_Ok in H1 as [-> _].
  rewrite Hframe in H.
  apply bind_Ok in H as (tfs & s1 & H1 & H). unfold gets in H1. injection H1 as <- <-.
  apply bind_Ok in H as (pcount & s2 & H2 & H). unfold gets in H2. injection H2 as <- <-.
  apply bind_Ok in H as (map & s3 & H3 & H). apply create_oop_map_Ok in H3 as [-> _].
  apply bind_Ok in H as (u1 & s4 & H4 & H). unfold debug_event, modify in H4.
  injection H4 as _ <-.
  apply bind_Ok in H as (u2 & s5 & Hn & H). apply bind_Ok in H as ([] & s6 & Hr & H).
  assert (Hblock : (new_objects ;; record_scope cfg heap fuel pc_offset frame)
                     (with_debug_recorder
                        (_debug_recorder s ++ [add_safepoint pc_offset (-1) map]) s)
                   = Ok (tt, s6))
    by (unfold bind; rewrite Hn; exact Hr).
  apply scopes_recorded in Hblock as [_ Hframes].
  apply (sites_effect_debug_event (end_safepoint pc_offset) I) in H.
  intros f Hin Hp. eapply frame_records_kept; [exact H|]. apply (Hframes f Hin Hp).
Qed.

Lemma call_debug_info_frames fuel next debug_info frame (s s' : CodeInstaller code) :
  bytecodePosition debug_info = Some frame ->
  call_debug_info cfg heap fuel next (Some debug_info) s = Ok (tt, s') ->
  forall f,
    f ∈ chain frame ->
    ASSERT cfg = true \/ placeholders_ok cfg (values f) = true ->
    frame_records (_total_frame_size s) (sv_store (_recorder s')) (_debug_recorder s') f.
Proof.
  intros Hframe H. unfold call_debug_info in H. rewrite Hframe in H.
  apply bind_Ok in H as (tfs & s1 & H1 & H). unfold gets in H1. injection H1 as <- <-.
  apply bind_Ok in H as (pcount & s2 & H2 & H). unfold gets in H2. injection H2 as <- <-.
  apply bind_Ok in H as (map & s3 & H3 & H). apply create_oop_map_Ok in H3 as [-> _].
  apply bind_Ok in H as (u1 & s4 & H4 & H). unfold debug_event, modify in H4.
  injection H4 as _ <-.
  apply scopes_recorded in H as [_ Hframes]. exact Hframes.
Qed.

Lemma site_Call_frames fuel pc_offset target debug_info frame (s s' : CodeInstaller code) :
  is_installed_code target = false ->
  bytecodePosition debug_info = Some frame ->
  site_Call cfg heap fuel pc_offset target (Some debug_info) s = Ok (tt, s') ->
  forall f,
    f ∈ chain frame ->
    ASSERT cfg = true \/ placeholders_ok cfg (values f) = true ->
    frame_records (_total_frame_size s) (sv_store (_recorder s')) (_debug_recorder s') f.
Proof.
  intros Htarget Hframe H. unfold site_Call in H.
  apply bind_Ok in H as (inst & s1 & H1 & H).
  unfold instruction_address, gets in H1. injection H1 as <- <-.
  apply bind_Ok in H as (c & s2 & H2 & H).
  unfold current_code, gets in H2. injection H2 as <- <-.
  apply bind_Ok in H as (next & s3 & H3 & H). apply decode_call_Ok in H3. subst s3.
  assert (Hrest : exists s1,
            call_debug_info cfg heap fuel next (Some debug_info) s = Ok (tt, s1) /\
            sites_effect heap s1 s').
  { destruct target; try discriminate;
      apply bind_Ok in H as ([] & s1 & H1 & H); exists s1; (split; [exact H1|]);
      match type of H with
      | ?m _ = _ =>
          assert (Hm : respects (sites_effect (code := code) heap) m)
            by (unfold patch, instructions_relocate; repeat sites_step)
      end;
      apply Hm in H; exact H. }
  destruct Hrest as (s1 & Hinfo & Hrest).
  intros f Hin Hp. eapply frame_records_kept; [exact Hrest|].
  eapply call_debug_info_frames; eauto.
Qed.

Lemma site_frames fuel site debug_info frame (s s' : CodeInstaller code) :
  records_scopes site = true ->
  site_debug_info site = Some debug_info ->
  bytecodePosition debug_info = Some frame ->
  dispatch_site cfg heap fuel site s = Ok (tt, s') ->
  forall f,
    f ∈ chain frame ->
    ASSERT cfg = true \/ placeholders_ok cfg (values f) = true ->
    frame_records (_total_frame_size s) (sv_store (_recorder s')) (_debug_recorder s') f.
Proof.
  intros Hrec Hinfo Hframe H.
  destruct site; try discriminate; simpl in Hrec, Hinfo, H; subst.
  - eapply site_Call_frames; eauto. apply negb_true_iff, Hrec.
  - eapply site_Safepoint_frames; eauto.
Qed.
End ScopesOfSites.

Lemma stack_location_total store p offset t :
  stack_location_at store p (to_jint (offset + to_jint t)) ->
  stack_location_at store p (to_jint (offset + t)).
Proof. rewrite to_jint_add_r. auto. Qed.

Lemma fields_record_total heap t store q :
  fields_record heap (to_jint t) store q -> fields_record heap t store q.
Proof.
  intros (vo & klass & fields & Hvo & Hq & Hslots). exists vo, klass, fields.
  split; [exact Hvo|]. split; [exact Hq|]. intros kind offset Hin.
  destruct (Hslots kind offset Hin) as (x & Hx & Hat).
  exists x. split; [exact Hx|]. apply stack_location_total, Hat.
Qed.

Lemma frame_records_total t store events f :
  frame_records (to_jint t) store events f -> frame_records t store events f.
Proof.
  intros (pc & ls & es & ms & Hin & Hslots & Hmons). exists pc, ls, es, ms.
  split; [exact Hin|]. split.
  - intros n kind offset Hn Hi. destruct (Hslots n kind offset Hn Hi) as (p & Hp & Hat).
    exists p. split; [exact Hp|]. apply stack_location_total, Hat.
  - intros n kind owner lockData eliminated Hn Hi.
    destruct (Hmons n kind owner lockData eliminated Hn Hi) as (m & Hm & Ho & Hl).
    exists m. split; [exact Hm|]. split.
    + intros k o Hk. apply stack_location_total, (Ho k o Hk).
    + intros k o Hk. destruct (Hl k o Hk) as [type Ht]. exists type.
      rewrite Ht, to_jint_add_r. reflexivity.
Qed.

Section TotalFrameSize.
Context (cfg : VMConfig) (heap : JavaHeap) {code : Type} `{!NativeInst code}.

(** C9: the installer works with the declared frame size plus one word,
    never with the declared size.  [initialize_fields] stores the sum in
    [_total_frame_size], no site changes it, and every oop map handed to
    [add_safepoint] is made with it.  The translator records a stack slot
    with the add-frame-size flag at its offset plus the frame size it is
    handed, and the scope recorder hands it [_total_frame_size] for every
    value of every frame: in the scope described for a frame of a site, a
    local or an expression that is such a stack slot is a stack location at
    the offset of the slot plus the declared frame size plus one word, and so
    are the owner and the lock of a monitor; and in every object pool dumped,
    so are the fields of each object value that are such stack slots in its
    virtual object (all in 32-bit arithmetic).  A release build does not
    check the placeholders after two-slot values, so there the producer's
    invariant is assumed for the frame. *)
Theorem C9_total_frame_size fuel comp_result params insts_begin consts_begin
    (s0 s' : CodeInstaller code) :
  install cfg heap fuel comp_result params insts_begin consts_begin s0 = Ok (tt, s') ->
  0 < HeapWordSize cfg < 2 ^ 32 ->
  - 2 ^ 31 <= frameSize comp_result < 2 ^ 31 ->
  let total := jint_add (frameSize comp_result) (HeapWordSize cfg) in
  _total_frame_size s' = total /\
  total <> frameSize comp_result /\
  (frameSize comp_result + HeapWordSize cfg < 2 ^ 31 ->
   total = frameSize comp_result + HeapWordSize cfg) /\
  Forall (fun map => om_frame_size map = total) (oop_maps (_debug_recorder s')) /\
  (forall fuel' kind offset r first second r',
      get_hotspot_value cfg heap fuel' (StackSlot kind offset true) total r
        = Ok ((first, second), r') ->
      exists type,
        sv_store r' !! first
        = Some (LocationValue
                  (Location.new_stk_loc type
                     (to_jint (offset + frameSize comp_result + HeapWordSize cfg))))) /\
  (forall site debug_info frame f,
      site ∈ sites comp_result ->
      records_scopes site = true ->
      site_debug_info site = Some debug_info ->
      bytecodePosition debug_info = Some frame ->
      f ∈ chain frame ->
      ASSERT cfg = true \/ placeholders_ok cfg (values f) = true ->
      frame_records (frameSize comp_result + HeapWordSize cfg)
        (sv_store (_recorder s')) (_debug_recorder s') f) /\
  (forall objs q,
      dump_object_pool objs ∈ _debug_recorder s' -> q ∈ objs ->
      fields_record heap (frameSize comp_result + HeapWordSize cfg)
        (sv_store (_recorder s')) q).
Proof.
  intros Hrun Hword Hframe total. unfold install in Hrun.
  apply bind_Ok in Hrun as (u & s1 & Hfields & Hrun).
  assert (Hs1 : _total_frame_size s1 = total).
  { unfold initialize_fields in Hfields.
    apply bind_Ok in Hfields as (u1 & s2 & H1 & Hfields).
    apply bind_Ok in Hfields as (u2 & s3 & H2 & H3).
    unfold modify in H2, H3. simplify_eq. reflexivity. }
  unfold initialize_buffer in Hrun.
  apply bind_Ok in Hrun as (u1 & s2 & H1 & Hrun).
  apply bind_Ok in Hrun as (u2 & s3 & H2 & Hrun).
  unfold modify in H1, H2. simplify_eq.
  pose proof (keeps_for_each _ _ (keeps_dispatch_site cfg heap fuel) _ _ _ Hrun)
    as (Htotal & new & Hnew & Hmaps).
  pose proof (respects_for_each (sites_effect heap) _ _
                (sites_effect_dispatch_site cfg heap fuel) _ _ _ Hrun)
    as (_ & _ & new' & Hnew' & Hpools).
  simpl in Htotal, Hnew, Hmaps, Hnew', Hpools.
  split; [congruence|]. split; [apply to_jint_add_word; assumption|].
  split; [intros Hsum; apply to_jint_small; lia|]. split; [|split; [|split]].
  - rewrite Hnew. rewrite Hs1 in Hmaps. exact Hmaps.
  - intros fuel' kind offset r first second r' Hv.
    apply get_hotspot_value_StackSlot in Hv as [type Hv]. exists type.
    rewrite Hv. unfold total, jint_add. rewrite to_jint_add_r.
    do 4 f_equal. lia.
  - intros site debug_info frame f Hsite Hrec Hinfo Hpos Hf Hp.
    destruct (for_each_elem (sites_effect heap) _ _ site _ _
                (sites_effect_dispatch_site cfg heap fuel) Hrun Hsite)
      as (sa & sb & Ha & Hsite_run & Hb).
    apply frame_records_total. eapply frame_records_kept; [exact Hb|].
    pose proof (site_frames cfg heap fuel site debug_info frame sa sb
                  Hrec Hinfo Hpos Hsite_run f Hf Hp) as Hrecords.
    destruct Ha as [Hta _]. rewrite Hta in Hrecords. simpl in Hrecords.
    rewrite Hs1 in Hrecords. exact Hrecords.
  - intros objs q Hin Hq. apply fields_record_total.
    rewrite Hnew' in Hin. rewrite Hs1 in Hpools. exact (Hpools objs q Hin Hq).
Qed.
End TotalFrameSize.

(** The sample installation: the local at offset 8 is recorded at 32, the
    field at 40 of the virtual object at 64, the owner and the lock of the
    monitor, at 16 and 24, at 40 and 48. *)
Example slot_installed_recorded :
  sv_store (_recorder slot_installed)
  = [LocationValue (Location.new_stk_loc Location.normal 32);
     ConstantOopWriteValue (Some (JavaObject 600));
     ObjectValue 3 1 [3%nat];
     LocationValue (Location.new_stk_loc Location.normal 64);
     LocationValue (Location.new_stk_loc Location.oop 40);
     LocationValue (Location.new_stk_loc Location.lng 48)] /\
  _debug_recorder slot_installed
  = [add_safepoint 10 (-1) {| om_frame_size := 24; om_arg_count := 0; om_entries := [] |};
     dump_object_pool [2%nat];
     describe_scope 10 1 3 true false [0%nat] [2%nat]
       [{| mv_owner := 4; mv_basic_lock := Location.new_stk_loc Location.lng 48;
           mv_eliminated := false |}];
     end_safepoint 10].
Proof. split; reflexivity. Qed.

Lemma C9_total_frame_size_witness :
  _total_frame_size slot_installed = 24 /\
  24 <> 16 /\
  (16 + 8 < 2 ^ 31 -> 24 = 16 + 8) /\
  Forall (fun map => om_frame_size map = 24) (oop_maps (_debug_recorder slot_installed)) /\
  (forall fuel' kind offset r first second r',
      get_hotspot_value (sample_config true) slot_heap fuel' (StackSlot kind offset true) 24 r
        = Ok ((first, second), r') ->
      exists type,
        sv_store r' !! first
        = Some (LocationValue (Location.new_stk_loc type (to_jint (offset + 16 + 8))))) /\
  (forall site debug_info frame f,
      site ∈ sites slot_result ->
      records_scopes site = true ->
      site_debug_info site = Some debug_info ->
      bytecodePosition debug_info = Some frame ->
      f ∈ chain frame ->
      true = true \/ placeholders_ok (sample_config true) (values f) = true ->
      frame_records (16 + 8)
        (sv_store (_recorder slot_installed)) (_debug_recorder slot_installed) f) /\
  (forall objs q,
      dump_object_pool objs ∈ _debug_recorder slot_installed -> q ∈ objs ->
      fields_record slot_heap (16 + 8) (sv_store (_recorder slot_installed)) q).
Proof.
  assert (Hrun : install (sample_config true) slot_heap 2 slot_result (Some 0) 4096 8192
                   (sample_installer no_code) = Ok (tt, slot_installed))
    by (vm_compute; reflexivity).
  exact (C9_total_frame_size (sample_config true) slot_heap 2 slot_result (Some 0) 4096 8192
           (sample_installer no_code) slot_installed Hrun
           ltac:(simpl; lia) ltac:(simpl; lia)).
Defined.

(** ** Concrete runs *)

Lemma C10_reexecute_flag_witness :
  exists new,
    _debug_recorder chain_recorded = _debug_recorder (sample_installer no_code) ++ new /\
    map ss_reexecute (described new)
    = map (fun f => negb ((bci f =? -1) || (bci f =? -2)) && negb (duringCall f))
          (rev (chain frame_C)) /\
    forall f, f ∈ chain frame_C ->
      (negb ((bci f =? -1) || (bci f =? -2)) && negb (duringCall f) = true
       <-> bci f <> -1 /\ bci f <> -2 /\ duringCall f = false).
Proof.
  apply (C10_reexecute_flag (sample_config true) [] 1 10 frame_C
           (sample_installer no_code) chain_recorded).
  vm_compute. reflexivity.
Defined.

Lemma C4_pending_call_type_witness :
  _next_call_type (marked_invokestatic no_code) = 8194 /\
  _next_call_type stub_called = 8192 /\
  8194 ∈ valid_call_types sample_marks.
Proof.
  split; [|split].
  - apply (proj1 (C4_pending_call_type (sample_config true) [] 16
                    (sample_installer no_code) (marked_invokestatic no_code))
             8194 []).
    + vm_compute. do 5 right. left.
    + apply (bool_decide_unpack _). vm_compute. exact I.
    + vm_compute. reflexivity.
  - apply (proj1 (proj2 (C4_pending_call_type (sample_config true) [] 16
                           (marked_invokestatic call_code) stub_called))
             1%nat (Long_target 7) None).
    + reflexivity.
    + vm_compute. reflexivity.
  - apply (proj2 (proj2 (C4_pending_call_type (sample_config true) [] 16
                           (marked_invokestatic call_code) method_called))
             1%nat true true (Some stack_info)).
    vm_compute. reflexivity.
Defined.

Lemma C4_installed_code_counterexample :
  exists s',
    install (sample_config true) [] 1 stale_marker_result (Some 0) 4096 8192
      (sample_installer no_code) = Ok (tt, s') /\
    _next_call_type s' = MARK_INVOKESTATIC sample_marks /\
    _next_call_type s' <> MARK_INVOKE_INVALID sample_marks.
Proof.
  eexists. split; [vm_compute; reflexivity|]. split; [reflexivity|]. discriminate.
Qed.

Lemma C5_call_to_installed_code_witness :
  site_Call (sample_config true) [] 1 16 (HotSpotInstalledCode 99999) (Some stack_info)
    (sample_installer jump_code) = Ok (tt, jump_patched) /\
  mem (_buffer jump_patched)
  = set_jump_destination jump_code (4096 + 16) 99999 /\
  _debug_recorder jump_patched = [] /\
  _recorder jump_patched = empty_recorder.
Proof.
  assert (Hrun : site_Call (sample_config true) [] 1 16 (HotSpotInstalledCode 99999)
                   (Some stack_info) (sample_installer jump_code) = Ok (tt, jump_patched))
    by (vm_compute; reflexivity).
  split; [exact Hrun|].
  destruct (proj1 (C5_call_to_installed_code (sample_config true) [] 1 16 99999
                     (Some stack_info) (sample_installer jump_code)) jump_patched Hrun)
    as (Hmem & _ & Hdebug & Hrec & _).
  split; [exact Hmem|]. split; [exact Hdebug | exact Hrec].
Defined.

Lemma C7_constant_out_of_line_witness :
  exists offset,
    8 <= 32 /\
    4 <= offset < 4 + 8 /\
    offset mod 8 = 0 /\
    mem (_buffer constant_patched)
    = store_jint (store_jlong no_code (8192 + offset) 123) (4096 + 16 + 3)
        (to_jint (8192 + offset - (4096 + 16 + 7))) /\
    consts_end (_buffer constant_patched) = 8192 + offset + BytesPerLong /\
    relocs (_buffer constant_patched)
    = [] ++ [relocate (4096 + 16) (section_word_Relocation (8192 + offset))
               disp32_operand] /\
    (- 2 ^ 31 <= 8192 + offset - (4096 + 16 + 7) < 2 ^ 31 ->
     4096 + 16 + 7 + to_jint (8192 + offset - (4096 + 16 + 7)) = 8192 + offset) /\
    (true = true ->
     4096 + 16 + 7 + to_jint (8192 + offset - (4096 + 16 + 7)) = 8192 + offset).
Proof.
  assert (Hrun : site_DataPatch (sample_config true) 16 "d" 123 None 8 false
                   (with_room no_code) = Ok (tt, constant_patched))
    by (vm_compute; reflexivity).
  exact (C7_constant_out_of_line (sample_config true) 16 "d"%char 123 None 8
           (with_room no_code) constant_patched eq_refl
           ltac:(lia) ltac:(simpl; lia) ltac:(simpl; lia) Hrun).
Defined.

Lemma C7_object_constant_counterexample :
  exists s',
    site_DataPatch (sample_config true) 16 "a" 0 (Some (JavaObject 77)) 8 false
      (with_room no_code) = Ok (tt, s') /\
    consts_end (_buffer s') = consts_end (_buffer (with_room no_code)) /\
    patches (mem (_buffer s')) = [patch_jobject (4096 + 16 + 3) (Some (JavaObject 77))] /\
    relocs (_buffer s') = [relocate (4096 + 16) oop_Relocation_immediate imm_operand].
Proof. eexists. split; [vm_compute; reflexivity|]. repeat split. Qed.

Lemma C8_unknown_mark_is_fatal_witness :
  (forall s : CodeInstaller SampleCode,
      site_Mark (sample_config true) 16 (Some 12345) [] s = Fatal "ShouldNotReachHere") /\
  (forall fuel comp_result params insts_begin consts_begin
          (s0 s' : CodeInstaller SampleCode),
      CompilationResult_Mark 16 (Some 12345) [] ∈ sites comp_result ->
      install (sample_config true) [] fuel comp_result params insts_begin consts_begin s0
      <> Ok (tt, s')).
Proof.
  apply (C8_unknown_mark_is_fatal (sample_config true) [] 16 12345 []).
  apply (bool_decide_unpack _). vm_compute. exact I.
Defined.

(** * Further properties of the installer *)

(** ** The reference-map decoder *)

Lemma land_bit w k : 0 <= k -> negb (Z.land w (Z.shiftl 1 k) =? 0) = Z.testbit w k.
Proof.
  intros Hk. rewrite Z.shiftl_1_l. destruct (Z.testbit w k) eqn:E.
  - apply negb_true_iff, Z.eqb_neq. intros H.
    assert (Hb : Z.testbit (Z.land w (2 ^ k)) k = true).
    { rewrite Z.land_spec, E, Z.pow2_bits_true by exact Hk. reflexivity. }
    rewrite H, Z.bits_0 in Hb. discriminate.
  - apply negb_false_iff, Z.eqb_eq. apply Z.bits_inj'. intros n Hn.
    rewrite Z.land_spec, Z.bits_0. destruct (Z.eq_dec k n) as [<-|Hne].
    + rewrite E. reflexivity.
    + rewrite Z.pow2_bits_false by exact Hne. apply andb_false_r.
Qed.

Lemma bit_set_testbit bm i :
  0 <= i ->
  bit_set bm i =
    match words bm !! Z.to_nat (i / 64) with
    | Some word => Z.testbit word (i mod 64)
    | None => false
    end.
Proof.
  intros Hi. unfold bit_set, MapWordBits.
  rewrite Z.quot_div_nonneg, Z.rem_mod_nonneg by lia.
  destruct (words bm !! _); [|reflexivity].
  apply land_bit. apply Z.mod_pos_bound. lia.
Qed.

Lemma word_index_in_range bm i :
  0 <= i -> (is_Some (words bm !! Z.to_nat (i / 64)) <-> i < bitmap_size bm).
Proof.
  intros Hi. rewrite lookup_lt_is_Some. unfold bitmap_size, MapWordBits.
  pose proof (Z.div_mod i 64 ltac:(lia)) as Hd.
  pose proof (Z.mod_pos_bound i 64 ltac:(lia)) as Hm.
  assert (Hq : 0 <= i / 64) by (apply Z.div_pos; lia).
  split; intros H; [|apply Nat2Z.inj_lt; rewrite Z2Nat.id by lia]; lia.
Qed.

Section BitMaps.
Context (cfg : VMConfig) {S : Type}.

Lemma is_bit_set_in_range bm i (s : S) :
  0 <= i < bitmap_size bm -> is_bit_set cfg bm i s = Ok (bit_set bm i, s).
Proof.
  intros [Hi Hlt]. apply (word_index_in_range bm i Hi) in Hlt as Hw.
  unfold is_bit_set, bit_set, MapWordBits in *.
  rewrite Z.quot_div_nonneg in * by lia.
  assert (Hq : 0 <= i / 64) by (apply Z.div_pos; lia).
  apply lookup_lt_is_Some in Hw as Hlen. destruct Hw as [word Hw].
  unfold bind, assert.
  replace ((0 <=? i / 64) && (i / 64 <? Z.of_nat (length (words bm)))) with true
    by (symmetry; apply andb_true_iff; split; [apply Z.leb_le | apply Z.ltb_lt]; lia).
  replace (0 <=? i / 64) with true by (symmetry; apply Z.leb_le; lia).
  rewrite Hw. destruct (ASSERT cfg); reflexivity.
Qed.

Lemma is_bit_set_beyond bm i (s : S) :
  0 <= i -> bitmap_size bm <= i ->
  if ASSERT cfg then is_bit_set cfg bm i s = Fatal "unexpected index"
  else exists why, is_bit_set cfg bm i s = Undefined why.
Proof.
  intros Hi Hge.
  assert (Hw : words bm !! Z.to_nat (i / 64) = None).
  { destruct (words bm !! _) eqn:E; [|reflexivity].
    assert (i < bitmap_size bm) by (apply word_index_in_range; eauto). lia. }
  apply lookup_ge_None in Hw as Hlen.
  assert (Hq : 0 <= i / 64) by (apply Z.div_pos; lia).
  unfold is_bit_set, MapWordBits, bind, assert.
  rewrite Z.quot_div_nonneg by lia.
  replace ((0 <=? i / 64) && (i / 64 <? Z.of_nat (length (words bm)))) with false
    by (symmetry; apply andb_false_iff; right; apply Z.ltb_ge; lia).
  replace (0 <=? i / 64) with true by (symmetry; apply Z.leb_le; lia).
  rewrite Hw. destruct (ASSERT cfg); [reflexivity | eexists; reflexivity].
Qed.

Lemma is_bit_set_Ok_in_range bm i (s : S) b s' :
  0 <= i -> is_bit_set cfg bm i s = Ok (b, s') -> i < bitmap_size bm.
Proof.
  intros Hi H. destruct (Z.lt_ge_cases i (bitmap_size bm)) as [Hlt|Hge]; [exact Hlt|].
  pose proof (is_bit_set_beyond bm i s Hi Hge) as Hb.
  destruct (ASSERT cfg); [|destruct Hb as [why Hb]]; rewrite Hb in H; discriminate.
Qed.

(** X1: for an index inside the bit map, [is_bit_set] returns, in every
    build and without touching the state, bit [i mod 64] of word [i / 64];
    for an index at or beyond the size the debug build stops with "unexpected
    index" and the product build reads outside the array. *)
Theorem X1_is_bit_set_reads_bit bm i (s : S) :
  0 <= i ->
  (i < bitmap_size bm ->
   exists word,
     words bm !! Z.to_nat (i / 64) = Some word /\
     is_bit_set cfg bm i s = Ok (Z.testbit word (i mod 64), s)) /\
  (bitmap_size bm <= i ->
   if ASSERT cfg then is_bit_set cfg bm i s = Fatal "unexpected index"
   else exists why, is_bit_set cfg bm i s = Undefined why).
Proof.
  intros Hi. split.
  - intros Hlt. destruct (proj2 (word_index_in_range bm i Hi) Hlt) as [word Hw].
    exists word. split; [exact Hw|].
    rewrite is_bit_set_in_range by lia. rewrite bit_set_testbit, Hw by exact Hi.
    reflexivity.
  - apply is_bit_set_beyond, Hi.
Qed.
End BitMaps.

Lemma X1_is_bit_set_reads_bit_witness :
  (67 < bitmap_size {| words := [0; 8] |} ->
   exists word,
     words {| words := [0; 8] |} !! Z.to_nat (67 / 64) = Some word /\
     is_bit_set (sample_config true) {| words := [0; 8] |} 67 tt
     = Ok (Z.testbit word (67 mod 64), tt)) /\
  (bitmap_size {| words := [0; 8] |} <= 67 ->
   if ASSERT (sample_config true)
   then is_bit_set (sample_config true) {| words := [0; 8] |} 67 tt
        = Fatal "unexpected index"
   else exists why,
       is_bit_set (sample_config true) {| words := [0; 8] |} 67 tt = Undefined why).
Proof.
  apply (X1_is_bit_set_reads_bit (sample_config true) {| words := [0; 8] |} 67 tt). lia.
Defined.

(** *** The oop map *)

Lemma foldM_append {S} (body : OopMap -> Z -> M S OopMap) (f : Z -> VMReg * OopTypes)
    l (s : S) :
  (forall m i, i ∈ l ->
     body m i s = Ok ({| om_frame_size := om_frame_size m; om_arg_count := om_arg_count m;
                         om_entries := om_entries m ++ [f i] |}, s)) ->
  forall m,
    foldM body l m s
    = Ok ({| om_frame_size := om_frame_size m; om_arg_count := om_arg_count m;
             om_entries := om_entries m ++ map f l |}, s).
Proof.
  induction l as [|x l IH]; intros Hbody m; simpl.
  - rewrite app_nil_r. destruct m; reflexivity.
  - unfold bind. rewrite Hbody by left. rewrite IH.
    + simpl. rewrite <- app_assoc. reflexivity.
    + intros m' i Hi. apply Hbody. right. exact Hi.
Qed.

Lemma foldM_Ok_elem {S A B} (body : B -> A -> M S B) l b (s : S) b' s' :
  (forall b x s b1 s1, body b x s = Ok (b1, s1) -> s1 = s) ->
  foldM body l b s = Ok (b', s') ->
  forall x, x ∈ l -> exists b0 b1, body b0 x s = Ok (b1, s).
Proof.
  intros Hs. revert b. induction l as [|y l IH]; intros b H x Hx; [inversion Hx|].
  simpl in H. apply bind_Ok in H as (b1 & s1 & Hy & H).
  pose proof (Hs _ _ _ _ _ Hy) as ->.
  apply elem_of_cons in Hx as [->|Hx]; [eauto | eapply IH; eauto].
Qed.

Section OopMaps.
Context (cfg : VMConfig) {S : Type}.

Lemma frame_body_run fm m i (s : S) :
  0 <= i < bitmap_size fm ->
  frame_body cfg fm m i s
  = Ok ({| om_frame_size := om_frame_size m; om_arg_count := om_arg_count m;
           om_entries := om_entries m ++ [(stack2reg (i * 2), oop_type_of (bit_set fm i))] |},
        s).
Proof.
  intros Hi. unfold frame_body, bind. rewrite is_bit_set_in_range by exact Hi.
  destruct (bit_set fm i); reflexivity.
Qed.

Lemma frame_loop_run fm m (s : S) :
  foldM (frame_body cfg fm) (seqZ 0 (bitmap_size fm)) m s
  = Ok ({| om_frame_size := om_frame_size m; om_arg_count := om_arg_count m;
           om_entries := om_entries m ++ frame_entries fm |}, s).
Proof.
  apply (foldM_append (frame_body cfg fm)
           (fun i => (stack2reg (i * 2), oop_type_of (bit_set fm i)))).
  intros m' i Hi. apply elem_of_seqZ in Hi. apply frame_body_run. lia.
Qed.

Lemma register_loop_run rm m (s : S) :
  register_map_ok cfg (Some rm) ->
  foldM (register_body cfg rm) (seqZ 0 NUM_CPU_REGS) m s
  = Ok ({| om_frame_size := om_frame_size m; om_arg_count := om_arg_count m;
           om_entries := om_entries m ++ register_entries (Some rm) |}, s).
Proof.
  intros [Hw Hallowed].
  apply (foldM_append (register_body cfg rm)
           (fun i => (Register_as_VMReg (as_Register i), oop_type_of (bit_set rm i)))).
  intros m' i Hi. apply elem_of_seqZ in Hi.
  rewrite register_body_run by (assumption || lia).
  destruct (bit_set rm i) eqn:Hbit; [|reflexivity].
  destruct (ASSERT cfg) eqn:Hd; [|reflexivity].
  rewrite (Hallowed eq_refl i) by (assumption || lia). reflexivity.
Qed.

Lemma register_body_state rm b x (s : S) b1 s1 :
  register_body cfg rm b x s = Ok (b1, s1) -> s1 = s.
Proof.
  unfold register_body. intros H.
  apply bind_Ok in H as (o & s2 & Ho & H). apply is_bit_set_Ok in Ho. subst s2.
  apply bind_Ok in H as (reg & s2 & Hr & H). apply get_hotspot_reg_Ok in Hr. subst s2.
  inv_ok; reflexivity.
Qed.

Lemma register_loop_Ok rm m (s : S) m' s' :
  foldM (register_body cfg rm) (seqZ 0 NUM_CPU_REGS) m s = Ok (m', s') ->
  register_map_ok cfg (Some rm).
Proof.
  intros H.
  pose proof (foldM_Ok_elem _ _ _ _ _ _ (register_body_state rm) H) as Helem.
  assert (Hw : words rm <> []).
  { destruct (Helem 0) as (b0 & b1 & H0); [apply elem_of_seqZ; unfold NUM_CPU_REGS; simpl; lia|].
    unfold register_body in H0. apply bind_Ok in H0 as (o & s2 & Ho & _).
    apply is_bit_set_Ok_in_range in Ho; [|lia].
    unfold bitmap_size in Ho. intros Hnil. rewrite Hnil in Ho. simpl in Ho. lia. }
  split; [exact Hw|]. intros Hd i Hi Hbit.
  destruct (Helem i) as (b0 & b1 & H0); [apply elem_of_seqZ; lia|].
  rewrite register_body_run, Hbit, Hd in H0 by assumption.
  destruct (oop_allowed i); [reflexivity | discriminate].
Qed.

Lemma create_oop_map_run tfs pc rm fm (s : S) :
  register_map_ok cfg rm ->
  create_oop_map cfg tfs pc rm (Some fm) s
  = Ok ({| om_frame_size := tfs; om_arg_count := pc;
           om_entries := register_entries rm ++ frame_entries fm |}, s).
Proof.
  intros Hok. unfold create_oop_map, bind. destruct rm as [rm|].
  - rewrite register_loop_run by exact Hok. rewrite frame_loop_run. reflexivity.
  - unfold ret. rewrite frame_loop_run. reflexivity.
Qed.

Lemma create_oop_map_inv tfs pc rm fm (s : S) m s' :
  create_oop_map cfg tfs pc rm (Some fm) s = Ok (m, s') ->
  register_map_ok cfg rm /\ s' = s /\
  m = {| om_frame_size := tfs; om_arg_count := pc;
         om_entries := register_entries rm ++ frame_entries fm |}.
Proof.
  intros H.
  assert (Hok : register_map_ok cfg rm).
  { destruct rm as [rm|]; [|exact I]. unfold create_oop_map in H.
    apply bind_Ok in H as (m1 & s1 & H1 & _). eapply register_loop_Ok; eauto. }
  rewrite create_oop_map_run in H by exact Hok. simplify_eq. auto.
Qed.

(** X2: the oop map made from a register map and a frame map of at most
    2^30 bits.  [create_oop_map] returns exactly when the register map, if
    there is one, has a first word and, in a debug build, marks no register
    outside [OOP_ALLOWED]; it then leaves the state alone and returns the map
    with the given frame size and argument count whose entries are, in order,
    one per CPU register 0..15 (none for a NULL register map) and one per bit
    [i] of the frame map at stack slot [2 * i], each an oop entry when its bit
    is set and a value entry otherwise. *)
Theorem X2_create_oop_map_entries tfs pc rm fm (s : S) m s' :
  bitmap_size fm <= 2 ^ 30 ->
  create_oop_map cfg tfs pc rm (Some fm) s = Ok (m, s') <->
  register_map_ok cfg rm /\ s' = s /\
  m = {| om_frame_size := tfs; om_arg_count := pc;
         om_entries := register_entries rm ++ frame_entries fm |}.
Proof.
  intros _. split; [apply create_oop_map_inv|].
  intros (Hok & -> & ->). apply create_oop_map_run, Hok.
Qed.

Lemma register_entries_regs rm :
  map fst (register_entries rm)
  = match rm with
    | Some _ => map (fun i => Register_as_VMReg (as_Register i)) (seqZ 0 NUM_CPU_REGS)
    | None => []
    end.
Proof. destruct rm; [|reflexivity]. unfold register_entries. rewrite map_map. reflexivity. Qed.

Lemma frame_entries_regs fm :
  map fst (frame_entries fm) = map (fun i => stack2reg (i * 2)) (seqZ 0 (bitmap_size fm)).
Proof. unfold frame_entries. rewrite map_map. reflexivity. Qed.

(** X3: in the oop map that [create_oop_map] returns no register has two
    entries; there are 16 entries for the CPU registers (none for a NULL
    register map) and 64 for each word of the frame map, and the stack slots
    that have an entry are the even ones below twice the size of the frame
    map. *)
Theorem X3_create_oop_map_one_entry_per_register tfs pc rm fm (s : S) m s' :
  bitmap_size fm <= 2 ^ 30 ->
  create_oop_map cfg tfs pc rm (Some fm) s = Ok (m, s') ->
  NoDup (map fst (om_entries m)) /\
  Z.of_nat (length (om_entries m))
  = match rm with Some _ => NUM_CPU_REGS | None => 0 end
    + 64 * Z.of_nat (length (words fm)) /\
  (forall slot, stack2reg slot ∈ map fst (om_entries m) <->
                0 <= slot < 2 * bitmap_size fm /\ slot mod 2 = 0).
Proof.
  intros _ H. apply create_oop_map_inv in H as (_ & _ & ->). simpl.
  rewrite map_app, register_entries_regs, frame_entries_regs.
  assert (Hreg : Inj (=) (=) (fun i : Z => Register_as_VMReg (as_Register i)))
    by (intros x y Hxy; congruence).
  assert (Hstk : Inj (=) (=) (fun i : Z => stack2reg (i * 2)))
    by (intros x y Hxy; injection Hxy; lia).
  split; [|split].
  - apply NoDup_app. split; [|split].
    + destruct rm; [|constructor]. apply (NoDup_fmap_2 _), NoDup_seqZ.
    + intros reg Hr Hs. destruct rm; [|inversion Hr].
      apply list_elem_of_fmap in Hr as (i & -> & _).
      apply list_elem_of_fmap in Hs as (j & Hj & _). discriminate.
    + apply (NoDup_fmap_2 _), NoDup_seqZ.
  - rewrite length_app. unfold register_entries, frame_entries.
    change NUM_CPU_REGS with 16.
    destruct rm; rewrite ?length_map, ?length_seqZ; unfold bitmap_size, MapWordBits;
      simpl length; lia.
  - intros slot. rewrite elem_of_app. split.
    + intros [Hr|Hs].
      * destruct rm; [|inversion Hr].
        apply list_elem_of_fmap in Hr as (i & Hi & _). discriminate.
      * apply list_elem_of_fmap in Hs as (j & Hj & Hin). apply elem_of_seqZ in Hin.
        injection Hj as ->. split; [lia|]. apply Z.mod_mul. lia.
    + intros [Hslot Hmod]. right. apply list_elem_of_fmap. exists (slot / 2).
      pose proof (Z.div_mod slot 2 ltac:(lia)). split.
      * f_equal. lia.
      * apply elem_of_seqZ. lia.
Qed.
End OopMaps.

Lemma X2_create_oop_map_entries_witness :
  create_oop_map (sample_config true) 24 0 (Some sample_register_map)
    (Some sample_frame_map) tt = Ok (sample_oop_map, tt) <->
  register_map_ok (sample_config true) (Some sample_register_map) /\ tt = tt /\
  sample_oop_map
  = {| om_frame_size := 24; om_arg_count := 0;
       om_entries := register_entries (Some sample_register_map)
                     ++ frame_entries sample_frame_map |}.
Proof.
  apply (X2_create_oop_map_entries (sample_config true) 24 0 (Some sample_register_map)
           sample_frame_map tt sample_oop_map tt).
  vm_compute. discriminate.
Defined.

Lemma X3_create_oop_map_one_entry_per_register_witness :
  NoDup (map fst (om_entries sample_oop_map)) /\
  Z.of_nat (length (om_entries sample_oop_map))
  = NUM_CPU_REGS + 64 * Z.of_nat (length (words sample_frame_map)) /\
  (forall slot, stack2reg slot ∈ map fst (om_entries sample_oop_map) <->
                0 <= slot < 2 * bitmap_size sample_frame_map /\ slot mod 2 = 0).
Proof.
  apply (X3_create_oop_map_one_entry_per_register (sample_config true) 24 0
           (Some sample_register_map) sample_frame_map tt sample_oop_map tt).
  - vm_compute. discriminate.
  - vm_compute. reflexivity.
Defined.

(** *** Register numbers *)

Lemma xmm_index_cases i :
  NUM_CPU_REGS <= i < NUM_REGS ->
  i = 16 \/ i = 17 \/ i = 18 \/ i = 19 \/ i = 20 \/ i = 21 \/ i = 22 \/ i = 23 \/
  i = 24 \/ i = 25 \/ i = 26 \/ i = 27 \/ i = 28 \/ i = 29 \/ i = 30 \/ i = 31.
Proof. unfold NUM_REGS, NUM_CPU_REGS, NUM_XMM_REGS. simpl. lia. Qed.

Lemma get_hotspot_reg_xmm cfg {S} i (s : S) :
  NUM_CPU_REGS <= i < NUM_REGS ->
  get_hotspot_reg cfg i s = Ok (XMMRegister_as_VMReg (as_XMMRegister (i - 16)), s).
Proof.
  intros Hi. apply xmm_index_cases in Hi.
  unfold get_hotspot_reg, bind.
  repeat (destruct Hi as [-> | Hi]; [rewrite assert_true; reflexivity|]).
  subst. rewrite assert_true. reflexivity.
Qed.

(** The register the oop-map decoder means by a valid register number. *)
Lemma get_hotspot_reg_valid cfg {S} i (s : S) :
  0 <= i < NUM_REGS ->
  get_hotspot_reg cfg i s
  = Ok (if i <? 16 then Register_as_VMReg (as_Register i)
        else XMMRegister_as_VMReg (as_XMMRegister (i - 16)), s).
Proof.
  intros Hi. destruct (i <? 16) eqn:E.
  - apply Z.ltb_lt in E. apply get_hotspot_reg_cpu. change NUM_CPU_REGS with 16. lia.
  - apply Z.ltb_ge in E. apply get_hotspot_reg_xmm. change NUM_CPU_REGS with 16. lia.
Qed.

Section Registers.
Context (cfg : VMConfig) (heap : JavaHeap) {S : Type}.

Lemma new_sv_lookup v r p r' :
  new_sv v r = Ok (p, r') ->
  sv_store r' !! p = Some v /\ p = length (sv_store r) /\
  sv_store r' = sv_store r ++ [v] /\ objects r' = objects r /\
  oop_recorder r' = oop_recorder r.
Proof.
  unfold new_sv. intros H. simplify_eq. simpl.
  rewrite lookup_app_r by lia. rewrite Nat.sub_diag. auto.
Qed.

Lemma get_hotspot_value_register fuel kind number tfs r first second r' :
  get_hotspot_value cfg heap fuel (RegisterValue kind number) tfs r
    = Ok ((first, second), r') ->
  exists type,
    sv_store r' !! first
    = Some (LocationValue
              (Location.new_reg_loc type
                 (if number <? 16 then Register_as_VMReg (as_Register number)
                  else XMMRegister_as_VMReg (as_XMMRegister (number - 16))))).
Proof.
  intros H. destruct fuel as [|fuel]; [discriminate|]. simpl in H.
  apply bind_Ok in H as (t & r0 & Ht & H). apply Value_type_Ok in Ht. subst r0.
  destruct (number <? 16).
  - apply bind_Ok in H as (lt & r1 & Hl & H).
    assert (r1 = r) as -> by (inv_ok; reflexivity).
    apply bind_Ok in H as (p & r2 & Hp & H). apply new_sv_lookup in Hp as (Hp & _).
    unfold ret in H. simplify_eq. eauto.
  - apply bind_Ok in H as (u & r1 & Ha & H). apply assert_Ok in Ha as [-> _].
    apply bind_Ok in H as (p & r2 & Hp & H). apply new_sv_lookup in Hp as (Hp & _).
    unfold ret in H. simplify_eq. eauto.
Qed.

(** X4: the value translator and the oop-map decoder number the registers
    alike.  For a register number from 0 to 31 the location recorded for a
    register value names the register that [get_hotspot_reg] returns for that
    number, a CPU register below 16 and an XMM register from 16 on; and no
    other valid number denotes that register. *)
Theorem X4_register_numbering_agrees fuel kind number tfs r first second r' (s : S) :
  0 <= number < NUM_REGS ->
  get_hotspot_value cfg heap fuel (RegisterValue kind number) tfs r
    = Ok ((first, second), r') ->
  exists reg type,
    get_hotspot_reg cfg number s = Ok (reg, s) /\
    sv_store r' !! first = Some (LocationValue (Location.new_reg_loc type reg)) /\
    forall number',
      0 <= number' < NUM_REGS -> get_hotspot_reg cfg number' s = Ok (reg, s) ->
      number' = number.
Proof.
  intros Hn H. apply get_hotspot_value_register in H as [type H].
  eexists _, type. split; [apply get_hotspot_reg_valid, Hn|]. split; [exact H|].
  intros number' Hn' Hreg. rewrite get_hotspot_reg_valid in Hreg by exact Hn'.
  destruct (number <? 16) eqn:E, (number' <? 16) eqn:E'; simplify_eq; lia.
Qed.
End Registers.

Lemma X4_register_numbering_agrees_witness :
  exists reg type,
    get_hotspot_reg (sample_config true) 19 tt = Ok (reg, tt) /\
    sv_store xmm3_translated !! 0%nat
    = Some (LocationValue (Location.new_reg_loc type reg)) /\
    forall number',
      0 <= number' < NUM_REGS ->
      get_hotspot_reg (sample_config true) number' tt = Ok (reg, tt) ->
      number' = 19.
Proof.
  apply (X4_register_numbering_agrees (sample_config true) [] 1 "d"%char 19 24
           empty_recorder 0%nat (Some 0%nat) xmm3_translated tt).
  - vm_compute. split; [discriminate | reflexivity].
  - vm_compute. reflexivity.
Defined.

(** ** The scope-value store only grows *)

#[local] Instance cells_kept_preorder n : PreOrder (cells_kept n).
Proof.
  split.
  - intros r _. split; [lia | auto].
  - intros r1 r2 r3 H12 H23 Hn.
    destruct (H12 Hn) as [L12 C12]. destruct (H23 ltac:(lia)) as [L23 C23].
    split; [lia|]. intros p Hp. rewrite C23, C12 by exact Hp. reflexivity.
Qed.

Lemma cells_kept_new_sv n v : respects (cells_kept n) (new_sv v).
Proof.
  intros r p r' H Hn. unfold new_sv in H. simplify_eq. simpl.
  rewrite length_app. split; [lia|]. intros q Hq. apply lookup_app_l. lia.
Qed.

Lemma cells_kept_objects_append n p : respects (cells_kept n) (objects_append p).
Proof. intros r u r' H Hn. unfold objects_append in H. simplify_eq. simpl. auto. Qed.

Lemma cells_kept_find_index n klass : respects (cells_kept n) (find_index klass).
Proof.
  intros r u r' H Hn. unfold find_index in H.
  destruct (bool_decide _); simplify_eq; simpl; auto.
Qed.

(** Appending to the fields of an object value changes that value only. *)
Lemma cells_kept_field_values_append n sv x :
  (n <= sv)%nat -> respects (cells_kept n) (field_values_append sv x).
Proof.
  intros Hsv r u r' H Hn. unfold field_values_append in H.
  destruct (sv_store r !! sv) as [[| | | |id klass fields]|]; try discriminate.
  simplify_eq. simpl. rewrite length_insert. split; [lia|].
  intros p Hp. apply list_lookup_insert_ne. lia.
Qed.

Ltac cells_step :=
  first
    [ apply cells_kept_new_sv | apply cells_kept_objects_append
    | apply cells_kept_find_index | respects_step ].

Section StoreGrows.
Context (cfg : VMConfig) (heap : JavaHeap).

Lemma cells_kept_record_metadata_in_constant n kind prim obj :
  respects (cells_kept n) (record_metadata_in_constant cfg kind prim obj).
Proof. unfold record_metadata_in_constant. repeat cells_step. Qed.

Lemma cells_kept_field_body n translate isLongArray sv field :
  (n <= sv)%nat ->
  (forall v, respects (cells_kept n) (translate v)) ->
  respects (cells_kept n) (field_body cfg translate isLongArray sv field).
Proof.
  intros Hsv Ht. unfold field_body.
  apply respects_bind; [apply _ | apply Ht |]. intros [value cur_second].
  apply respects_bind; [apply _ | repeat cells_step |]. intros [value' cur_second'].
  apply respects_bind; [apply _ | | intros; apply cells_kept_field_values_append, Hsv].
  destruct cur_second'; [apply cells_kept_field_values_append, Hsv | apply respects_ret, _].
Qed.

(** A translation changes no scope value that was there when it began:
    the fields it appends are those of object values it has made itself. *)
Lemma cells_kept_get_hotspot_value fuel v tfs n :
  respects (cells_kept n) (get_hotspot_value cfg heap fuel v tfs).
Proof.
  revert v n. induction fuel as [|fuel IH]; intros v n; simpl.
  - apply respects_out_of_fuel.
  - destruct (is_ILLEGAL v); [repeat cells_step|].
    apply respects_bind; [apply _ | unfold Value_type; repeat cells_step |]. intros type.
    destruct v; try apply respects_fatal.
    + repeat cells_step.
    + repeat cells_step.
    + apply respects_bind; [apply _ | apply cells_kept_record_metadata_in_constant |].
      intros _. repeat cells_step.
    + destruct (heap !! address) as [vo|]; [|apply respects_undefined].
      intros r res r' H Hn.
      apply bind_Ok in H as (s & r0 & Hs & H). unfold get in Hs. simplify_eq.
      destruct (find_object _ _ _).
      { unfold ret in H. simplify_eq. split; [lia | auto]. }
      apply bind_Ok in H as (klass & r1 & Hk & H).
      pose proof (cells_kept_new_sv n _ _ _ _ Hk Hn) as [L1 C1].
      apply bind_Ok in H as (sv & r2 & Hsv & H).
      pose proof (cells_kept_new_sv n _ _ _ _ Hsv ltac:(lia)) as [L2 C2].
      apply new_sv_lookup in Hsv as (_ & Hsv & _).
      apply bind_Ok in H as (u & r3 & Ha & H).
      unfold objects_append in Ha. simplify_eq.
      apply bind_Ok in H as (u' & r4 & Hloop & H). unfold ret in H. simplify_eq.
      assert (Hl : cells_kept n
                     {| sv_store := sv_store r2; objects := objects r2 ++ [length (sv_store r1)];
                        oop_recorder := oop_recorder r2 |} r').
      { eapply (respects_for_each (cells_kept n)); [|exact Hloop].
        intros field. apply cells_kept_field_body; [lia|]. intros fv. apply IH. }
      destruct (Hl ltac:(simpl; lia)) as [L3 C3]. simpl in L3, C3.
      split; [lia|]. intros p Hp. rewrite C3, C2, C1 by exact Hp. reflexivity.
Qed.

Lemma cells_kept_get_monitor_value fuel v tfs n :
  respects (cells_kept n) (get_monitor_value cfg heap fuel v tfs).
Proof.
  unfold get_monitor_value. destruct v; try apply respects_fatal.
  apply respects_bind; [apply _ | apply cells_kept_get_hotspot_value |].
  intros [owner_value second].
  apply respects_bind; [apply _ | apply respects_assert, _ |]. intros _.
  apply respects_bind; [apply _ | apply cells_kept_get_hotspot_value |].
  intros [lock second']. repeat cells_step.
Qed.

Lemma cells_kept_record_values fuel tfs lc ec i rest acc n :
  respects (cells_kept n) (record_values cfg heap fuel tfs lc ec i rest acc).
Proof.
  remember (length rest) as k eqn:Hk.
  revert i rest acc Hk. induction k as [k IH] using lt_wf_ind. intros i rest acc Hk.
  destruct rest as [|value rest']; simpl; [apply respects_ret, _|].
  apply respects_bind; [apply _ | |].
  - destruct (i <? lc); [|destruct (i <? jint_add lc ec)].
    + apply respects_bind; [apply _ | apply cells_kept_get_hotspot_value |].
      intros [first second]. apply respects_ret, _.
    + apply respects_bind; [apply _ | apply cells_kept_get_hotspot_value |].
      intros [first second]. apply respects_ret, _.
    + apply respects_bind; [apply _ | apply cells_kept_get_monitor_value |].
      intros m. apply respects_ret, _.
  - intros [acc' second]. destruct second as [s|].
    + destruct rest' as [|next rest'']; [repeat cells_step|].
      apply respects_bind; [apply _ | apply respects_assert, _ |]. intros _.
      eapply IH; [|reflexivity]. subst k. simpl. lia.
    + eapply IH; [|reflexivity]. subst k. simpl. lia.
Qed.
End StoreGrows.

Lemma cells_kept_prefix r r' :
  cells_kept (length (sv_store r)) r r' -> sv_store r `prefix_of` sv_store r'.
Proof.
  intros H. destruct (H ltac:(lia)) as [Hlen Hcells].
  exists (drop (length (sv_store r)) (sv_store r')).
  rewrite <- (take_drop (length (sv_store r)) (sv_store r')) at 1. f_equal.
  apply list_eq. intros p. destruct (decide (p < length (sv_store r))%nat) as [Hp|Hp].
  - rewrite lookup_take_lt by exact Hp. apply Hcells, Hp.
  - rewrite lookup_take_ge by lia. symmetry. apply lookup_ge_None. lia.
Qed.

#[local] Instance store_grown_preorder {code} : PreOrder (@store_grown code).
Proof.
  split.
  - intros s. unfold store_grown. reflexivity.
  - intros s1 s2 s3. unfold store_grown. intros H12 H23. etransitivity; eauto.
Qed.

Section StoreGrown.
Context (cfg : VMConfig) (heap : JavaHeap) {code : Type} `{!NativeInst code}.

Lemma store_grown_on_recorder {A} (m : M Recorder A) :
  (forall n, respects (cells_kept n) m) ->
  respects (store_grown (code := code)) (on_recorder m).
Proof.
  intros Hm s a s' H. apply on_recorder_Ok in H as (r' & Hrun & ->).
  unfold store_grown. simpl. apply cells_kept_prefix. eapply Hm. exact Hrun.
Qed.

Lemma store_grown_debug_event e : respects (store_grown (code := code)) (debug_event e).
Proof. apply respects_modify. intros s. unfold store_grown. reflexivity. Qed.

Lemma store_grown_record_scope fuel pc_offset frame :
  respects (store_grown (code := code)) (record_scope cfg heap fuel pc_offset frame).
Proof.
  apply respects_record_scope; [apply _ | | apply store_grown_debug_event].
  intros. apply store_grown_on_recorder. intros n. apply cells_kept_record_values.
Qed.

Lemma store_grown_dispatch_site fuel site :
  respects (store_grown (code := code)) (dispatch_site cfg heap fuel site).
Proof.
  destruct site; simpl; installer_unfold;
    repeat installer_step
      ltac:(first [ apply store_grown_record_scope
                  | apply store_grown_debug_event
                  | apply store_grown_on_recorder; intros;
                    apply cells_kept_record_metadata_in_constant ])
      ltac:(unfold store_grown; reflexivity).
Qed.

(** X5: a site never changes a scope value that exists when its processing
    begins.  Whatever the site translates, the scope-value store it leaves is
    the store it found followed by the scope values it has made: the field
    lists that grow are those of object values made for this site. *)
Theorem X5_sites_never_change_scope_values fuel site (s s' : CodeInstaller code) :
  dispatch_site cfg heap fuel site s = Ok (tt, s') ->
  exists made, sv_store (_recorder s') = sv_store (_recorder s) ++ made.
Proof. intros H. apply store_grown_dispatch_site in H. exact H. Qed.
End StoreGrown.

Lemma X5_sites_never_change_scope_values_witness :
  exists made,
    sv_store (_recorder virtual_safepoint_recorded)
    = sv_store (_recorder stack_installed) ++ made.
Proof.
  apply (X5_sites_never_change_scope_values (sample_config true) cyclic_heap 2
           (CompilationResult_Safepoint 20 (Some virtual_info))
           stack_installed virtual_safepoint_recorded).
  vm_compute. reflexivity.
Defined.

(** ** The value translator *)

Lemma for_each_count {S A} (P : nat -> S -> Prop) (w : A -> nat) (l : list A)
    (body : A -> M S unit) :
  (forall x k s s', P k s -> body x s = Ok (tt, s') -> P (k + w x)%nat s') ->
  forall k s s', P k s -> for_each l body s = Ok (tt, s') ->
                 P (k + sum_list (map w l))%nat s'.
Proof.
  intros Hbody. induction l as [|x l IH]; intros k s s' HP H; simpl in *.
  - unfold ret in H. simplify_eq. rewrite Nat.add_0_r. exact HP.
  - apply bind_Ok in H as ([] & s1 & Hx & H).
    rewrite Nat.add_assoc. eapply IH; [|exact H]. eapply Hbody; eauto.
Qed.

Lemma field_values_append_run sv x r r' id klass fields :
  sv_store r !! sv = Some (ObjectValue id klass fields) ->
  field_values_append sv x r = Ok (tt, r') ->
  sv_store r' = <[sv := ObjectValue id klass (fields ++ [x])]> (sv_store r).
Proof.
  intros Hsv H. unfold field_values_append in H. rewrite Hsv in H. simplify_eq.
  reflexivity.
Qed.

Section VirtualObjects.
Context (cfg : VMConfig) (heap : JavaHeap).

Lemma field_values_append_count sv klass id mirror k x r r' :
  object_under_construction sv klass id mirror k r ->
  field_values_append sv x r = Ok (tt, r') ->
  object_under_construction sv klass id mirror (k + 1) r'.
Proof.
  intros (Hlt & Hk & Hm & fields & Hsv & Hlen) H. unfold object_under_construction.
  rewrite (field_values_append_run _ _ _ _ _ _ _ Hsv H).
  split; [rewrite length_insert; exact Hlt|]. split; [exact Hk|]. split.
  - rewrite list_lookup_insert_ne by lia. exact Hm.
  - exists (fields ++ [x]). split; [apply list_lookup_insert_eq, Hlt|].
    rewrite length_app. simpl. lia.
Qed.

Lemma cells_kept_under_construction sv klass id mirror k r r' :
  cells_kept (Datatypes.S sv) r r' ->
  object_under_construction sv klass id mirror k r ->
  object_under_construction sv klass id mirror k r'.
Proof.
  intros Hkept (Hlt & Hk & Hm & fields & Hsv & Hlen).
  destruct (Hkept ltac:(lia)) as [Hlen' Hcells]. unfold object_under_construction.
  split; [lia|]. split; [exact Hk|]. split.
  - rewrite Hcells by lia. exact Hm.
  - exists fields. rewrite Hcells by lia. auto.
Qed.

Lemma field_body_count fuel tfs isLongArray sv klass id mirror k field r r' :
  object_under_construction sv klass id mirror k r ->
  field_body cfg (fun field => get_hotspot_value cfg heap fuel field tfs) isLongArray sv field r
    = Ok (tt, r') ->
  object_under_construction sv klass id mirror (k + field_slots cfg isLongArray field) r'.
Proof.
  intros Hinv H. unfold field_body in H.
  apply bind_Ok in H as ([value cur_second] & r1 & Ht & H).
  pose proof (get_hotspot_value_second _ _ _ _ _ _ _ _ _ Ht) as Hsecond.
  apply (cells_kept_get_hotspot_value cfg heap _ _ _ (Datatypes.S sv)) in Ht.
  apply (cells_kept_under_construction _ _ _ _ _ _ _ Ht) in Hinv. clear Ht.
  apply bind_Ok in H as ([value' cur_second'] & r2 & Hpad & H).
  unfold field_slots. rewrite <- Hsecond.
  destruct cur_second as [second|]; simpl in *.
  - unfold ret in Hpad. simplify_eq. rewrite orb_true_r.
    apply bind_Ok in H as ([] & r3 & H1 & H2).
    replace (k + 2)%nat with (k + 1 + 1)%nat by lia.
    eapply field_values_append_count; [|exact H2].
    eapply field_values_append_count; [|exact H1]. exact Hinv.
  - rewrite orb_false_r. destruct isLongArray.
    + apply bind_Ok in Hpad as (zero & r3 & Hz & Hpad).
      apply (cells_kept_new_sv (Datatypes.S sv)) in Hz.
      apply (cells_kept_under_construction _ _ _ _ _ _ _ Hz) in Hinv.
      apply bind_Ok in H as ([] & r4 & H1 & H2).
      replace (k + 2)%nat with (k + 1 + 1)%nat by lia.
      destruct (VM_LITTLE_ENDIAN cfg); unfold ret in Hpad; simplify_eq;
        (eapply field_values_append_count; [|exact H2]);
        (eapply field_values_append_count; [|exact H1]); exact Hinv.
    + unfold ret in Hpad. simplify_eq.
      apply bind_Ok in H as ([] & r3 & H1 & H2). unfold ret in H1. simplify_eq.
      eapply field_values_append_count; [|exact H2]. exact Hinv.
Qed.

Lemma virtual_object_translated fuel kind address tfs r p second r' vo :
  heap !! address = Some vo ->
  find_object (sv_store r) (objects r) (vo_id vo) = None ->
  get_hotspot_value cfg heap fuel (VirtualObject kind address) tfs r = Ok ((p, second), r') ->
  exists klass fields,
    sv_store r' !! p = Some (ObjectValue (vo_id vo) klass fields) /\
    sv_store r' !! klass
    = Some (ConstantOopWriteValue (Some (JavaObject (vo_javaMirror vo)))) /\
    length fields
    = sum_list (map (field_slots cfg (vo_klass vo =? longArrayKlassObj cfg)) (vo_values vo)) /\
    (vo_klass vo = longArrayKlassObj cfg ->
     length fields = (2 * length (vo_values vo))%nat).
Proof.
  intros Hvo Hfind H. destruct fuel as [|fuel]; [discriminate|]. simpl in H.
  apply bind_Ok in H as (t & r0 & Ht & H). apply Value_type_Ok in Ht. subst r0.
  rewrite Hvo in H.
  apply bind_Ok in H as (s & r0 & Hs & H). unfold get in Hs. injection Hs as <- <-.
  rewrite Hfind in H.
  apply bind_Ok in H as (klass & r1 & Hk & H).
  apply new_sv_lookup in Hk as (Hklass & -> & Hstore1 & _).
  apply bind_Ok in H as (sv & r2 & Hsv & H).
  apply new_sv_lookup in Hsv as (Hobj & -> & Hstore2 & _).
  apply bind_Ok in H as (u & r3 & Ha & H). unfold objects_append in Ha. simplify_eq.
  apply bind_Ok in H as ([] & r4 & Hloop & H). unfold ret in H. simplify_eq.
  set (isLongArray := vo_klass vo =? longArrayKlassObj cfg) in *.
  assert (Hinv : object_under_construction (length (sv_store r1)) (length (sv_store r))
                   (vo_id vo)
                   (ConstantOopWriteValue (Some (JavaObject (vo_javaMirror vo))))
                   (0 + sum_list (map (field_slots cfg isLongArray) (vo_values vo))) r').
  { revert Hloop.
    apply (for_each_count
             (object_under_construction (length (sv_store r1)) (length (sv_store r))
                (vo_id vo)
                (ConstantOopWriteValue (Some (JavaObject (vo_javaMirror vo)))))).
    - intros field k ra rb Hinv Hrun. eapply field_body_count; eauto.
    - unfold object_under_construction. simpl.
      rewrite Hstore2, Hstore1, !length_app. simpl.
      split; [lia|]. split; [lia|]. split.
      + rewrite <- app_assoc. apply list_lookup_middle. reflexivity.
      + exists []. split; [|reflexivity]. apply list_lookup_middle.
        rewrite length_app. reflexivity. }
  destruct Hinv as (_ & _ & Hm & fields & Hf & Hlen).
  exists (length (sv_store r)), fields. split; [exact Hf|]. split; [exact Hm|].
  split; [exact Hlen|]. intros Hlong. rewrite Hlen. simpl.
  replace isLongArray with true by (symmetry; apply Z.eqb_eq, Hlong).
  clear. induction (vo_values vo) as [|f l IH]; simpl; [reflexivity|].
  rewrite IH. unfold field_slots. simpl. lia.
Qed.

End VirtualObjects.


(** *** Second slots, monitors and locations *)

Lemma is_T_true t u : is_T t u = true -> t = u.
Proof. unfold is_T. apply bool_decide_eq_true. Qed.

Section Slots.
Context (cfg : VMConfig) (heap : JavaHeap).

Lemma record_metadata_in_constant_store kind prim obj r u r' :
  record_metadata_in_constant cfg kind prim obj r = Ok (u, r') ->
  sv_store r' = sv_store r /\ objects r' = objects r.
Proof.
  unfold record_metadata_in_constant, find_index. intros H.
  destruct (Ascii.eqb kind "j"); [|inv_ok; auto].
  destruct obj as [[k|o|o]|]; inv_ok; simpl; auto.
  all: destruct (bool_decide _); simplify_eq; auto.
Qed.

(** What a reported second slot is: for a register or a stack slot the
    location itself, of type [lng] or [dbl]; for a constant a separate [int]
    constant 0 beside the [long] constant. *)
Lemma second_slot_shape fuel v tfs r first second r' :
  get_hotspot_value cfg heap fuel v tfs r = Ok ((first, Some second), r') ->
  match v with
  | Constant _ prim _ =>
      second <> first /\
      sv_store r' !! second = Some (ConstantIntValue 0) /\
      sv_store r' !! first = Some (ConstantLongValue prim)
  | _ =>
      second = first /\
      exists loc,
        sv_store r' !! first = Some (LocationValue loc) /\
        (location_type loc = Location.lng \/ location_type loc = Location.dbl)
  end.
Proof.
  intros H. destruct fuel as [|fuel]; [discriminate|]. simpl in H.
  destruct v; simpl in H.
  - inv_ok.
  - apply bind_Ok in H as (t & r0 & Ht & H). apply Value_type_Ok in Ht. subst r0.
    destruct (number <? 16).
    + apply bind_Ok in H as (lt & r1 & Hl & H).
      apply bind_Ok in H as (p & r2 & Hp & H). apply new_sv_lookup in Hp as (Hp & _).
      unfold ret in H. destruct (is_T t T_LONG) eqn:E; [|discriminate].
      apply is_T_true in E. subst t. simpl in Hl. unfold ret in Hl. simplify_eq.
      split; [reflexivity|]. eexists. split; [exact Hp|]. left. reflexivity.
    + apply bind_Ok in H as (u & r1 & Ha & H). apply assert_Ok in Ha as [-> _].
      apply bind_Ok in H as (p & r2 & Hp & H). apply new_sv_lookup in Hp as (Hp & _).
      unfold ret in H. destruct (is_T t T_DOUBLE) eqn:E; [|discriminate].
      apply is_T_true in E. subst t. simpl in Hp. simplify_eq.
      split; [reflexivity|]. eexists. split; [exact Hp|]. right. reflexivity.
  - apply bind_Ok in H as (t & r0 & Ht & H). apply Value_type_Ok in Ht. subst r0.
    apply bind_Ok in H as (p & r2 & Hp & H). apply new_sv_lookup in Hp as (Hp & _).
    unfold ret in H.
    destruct (is_T t T_DOUBLE) eqn:Ed; simpl in H.
    + simplify_eq. split; [reflexivity|]. eexists. split; [exact Hp|]. right. reflexivity.
    + destruct (is_T t T_LONG) eqn:El; [|discriminate].
      simplify_eq. split; [reflexivity|]. eexists. split; [exact Hp|]. left. reflexivity.
  - apply bind_Ok in H as (t & r0 & Ht & H). apply Value_type_Ok in Ht. subst r0.
    apply bind_Ok in H as (u & r1 & Hm & H).
    destruct (is_int_like t); [inv_ok|].
    destruct (is_T t T_LONG || is_T t T_DOUBLE).
    + apply bind_Ok in H as (q & r2 & Hq & H).
      apply new_sv_lookup in Hq as (Hq & -> & Hs2 & _).
      apply bind_Ok in H as (p & r3 & Hp & H).
      apply new_sv_lookup in Hp as (Hp & -> & Hs3 & _).
      unfold ret in H. simplify_eq. rewrite Hs2, length_app. simpl.
      split; [lia|]. split; [|rewrite Hs2, length_app in Hp; exact Hp].
      rewrite Hs3. rewrite lookup_app_l by (rewrite Hs2, length_app; simpl; lia).
      exact Hq.
    + destruct (is_T t T_OBJECT); [inv_ok|]. destruct (is_T t T_ADDRESS); inv_ok.
  - apply bind_Ok in H as (t & r0 & Ht & H). apply Value_type_Ok in Ht. subst r0.
    destruct (heap !! address); [|discriminate].
    apply bind_Ok in H as (s & r1 & _ & H).
    destruct (find_object _ _ _); inv_ok.
  - inv_ok.
  - inv_ok.
Qed.

(** X7: when the translator reports a second slot, it is, for a register
    value and for a stack slot, the very scope value it returns as the first,
    a location of type [lng] or [dbl] that so takes two entries of the list;
    for a constant it is a separate [int] constant 0 that goes with the
    [long] constant returned. *)
Theorem X7_second_slot_identity fuel v tfs r first second r' :
  get_hotspot_value cfg heap fuel v tfs r = Ok ((first, Some second), r') ->
  match v with
  | Constant _ prim _ =>
      second <> first /\
      sv_store r' !! second = Some (ConstantIntValue 0) /\
      sv_store r' !! first = Some (ConstantLongValue prim)
  | _ =>
      second = first /\
      exists loc,
        sv_store r' !! first = Some (LocationValue loc) /\
        (location_type loc = Location.lng \/ location_type loc = Location.dbl)
  end.
Proof. apply second_slot_shape. Qed.
End Slots.

Lemma X7_second_slot_identity_witness :
  0%nat <> 1%nat /\
  sv_store long_constant_translated !! 0%nat = Some (ConstantIntValue 0) /\
  sv_store long_constant_translated !! 1%nat = Some (ConstantLongValue 6).
Proof.
  apply (X7_second_slot_identity (sample_config true) [] 1 (Constant "j" 6 None) 24
           empty_recorder 1%nat 0%nat long_constant_translated).
  vm_compute. reflexivity.
Defined.

Section Monitors.
Context (cfg : VMConfig) (heap : JavaHeap).

(** X8: what a debug build requires of a monitor.  [get_monitor_value]
    returns in a debug build only if the owner is a one-slot value and the
    lock data is a two-slot value held in a register or a stack slot (for a
    constant the second slot is another scope value than the first); the
    monitor it returns has the owner's scope value, the location recorded for
    the lock data and the [eliminated] flag of the value. *)
Theorem X8_monitor_value_in_debug_build fuel kind owner lockData eliminated tfs r m r' :
  ASSERT cfg = true ->
  get_monitor_value cfg heap fuel (code_MonitorValue kind owner lockData eliminated) tfs r
    = Ok (m, r') ->
  two_slot cfg owner = false /\
  two_slot cfg lockData = true /\
  match lockData with RegisterValue _ _ | StackSlot _ _ _ => True | _ => False end /\
  mv_eliminated m = eliminated /\
  exists r1 lock,
    get_hotspot_value cfg heap fuel owner tfs r = Ok ((mv_owner m, None), r1) /\
    get_hotspot_value cfg heap fuel lockData tfs r1 = Ok ((lock, Some lock), r') /\
    sv_store r' !! lock = Some (LocationValue (mv_basic_lock m)).
Proof.
  intros Hd H. unfold get_monitor_value in H.
  apply bind_Ok in H as ([owner_value second] & r1 & Ho & H).
  apply bind_Ok in H as (u & r2 & Ha & H). apply assert_Ok in Ha as [-> Ha].
  specialize (Ha Hd). apply bool_decide_eq_true in Ha. subst second.
  apply bind_Ok in H as ([lock second] & r2 & Hl & H).
  apply bind_Ok in H as (u1 & r3 & Hb & H). apply assert_Ok in Hb as [-> Hb].
  specialize (Hb Hd). apply bool_decide_eq_true in Hb. subst second.
  apply bind_Ok in H as (s & r3 & Hs & H). unfold get in Hs. injection Hs as <- <-.
  apply bind_Ok in H as (u2 & r3 & Hc & H). apply assert_Ok in Hc as [-> _].
  unfold is_location in H.
  destruct (sv_store r2 !! lock) as [[loc| | | |]|] eqn:Hlock; try discriminate.
  unfold ret in H. simplify_eq. simpl.
  pose proof (get_hotspot_value_second _ _ _ _ _ _ _ _ _ Ho) as Hs1.
  pose proof (get_hotspot_value_second _ _ _ _ _ _ _ _ _ Hl) as Hs2.
  pose proof (second_slot_shape _ _ _ _ _ _ _ _ _ Hl) as Hshape.
  split; [symmetry; exact Hs1|]. split; [symmetry; exact Hs2|]. split.
  - destruct lockData; try exact I; simpl in Hs2; try discriminate.
    destruct Hshape as [Hne _]. congruence.
  - split; [reflexivity|]. eauto.
Qed.

End Monitors.

Lemma X8_monitor_value_in_debug_build_witness :
  two_slot (sample_config true) (RegisterValue "a" 0) = false /\
  two_slot (sample_config true) (StackSlot "j" 16 false) = true /\
  True /\
  mv_eliminated sample_monitor_value = false /\
  exists r1 lock,
    get_hotspot_value (sample_config true) [] 1 (RegisterValue "a" 0) 24 empty_recorder
    = Ok ((mv_owner sample_monitor_value, None), r1) /\
    get_hotspot_value (sample_config true) [] 1 (StackSlot "j" 16 false) 24 r1
    = Ok ((lock, Some lock), sample_monitor_translated) /\
    sv_store sample_monitor_translated !! lock
    = Some (LocationValue (mv_basic_lock sample_monitor_value)).
Proof.
  apply (X8_monitor_value_in_debug_build (sample_config true) [] 1 "a"%char
           (RegisterValue "a" 0) (StackSlot "j" 16 false) false 24 empty_recorder
           sample_monitor_value sample_monitor_translated).
  - reflexivity.
  - vm_compute. reflexivity.
Defined.


Section OopLocations.
Context (cfg : VMConfig) (heap : JavaHeap).

Lemma object_kind_type v r t r' :
  Value_type cfg v r = Ok (t, r') ->
  object_kind cfg v = is_T t T_OBJECT || is_T t T_ARRAY.
Proof.
  intros H. apply Value_type_kind in H as [H _]. unfold object_kind. rewrite H. reflexivity.
Qed.

(** X10: which scope values are marked as oops for the garbage collector.
    A location that the translator returns has type [oop] exactly when the
    value is of an object or array kind and lives in a CPU register or in a
    stack slot. *)
Theorem X10_oop_locations fuel v tfs r first second r' loc :
  get_hotspot_value cfg heap fuel v tfs r = Ok ((first, second), r') ->
  sv_store r' !! first = Some (LocationValue loc) ->
  location_type loc = Location.oop <->
  object_kind cfg v && in_cpu_register_or_stack v = true.
Proof.
  intros H Hloc. destruct fuel as [|fuel]; [discriminate|].
  destruct v.
  - simpl in H. inv_ok. apply new_sv_lookup in Hrun as (Hp & _).
    rewrite Hp in Hloc. simplify_eq. simpl. rewrite andb_false_r. split; discriminate.
  - simpl in H.
    apply bind_Ok in H as (t & r0 & Ht & H). pose proof (object_kind_type _ _ _ _ Ht) as Hk.
    apply Value_type_Ok in Ht. subst r0. rewrite Hk. simpl.
    destruct (number <? 16).
    + rewrite andb_true_r.
      apply bind_Ok in H as (lt & r1 & Hl & H).
      apply bind_Ok in H as (p & r2 & Hp & H). apply new_sv_lookup in Hp as (Hp & _).
      unfold ret in H. simplify_eq. try rewrite Hp in Hloc. simplify_eq. simpl.
      destruct t; simpl in Hl; inv_ok; simpl; split; intros Hx; vm_compute in Hx |- *;
        congruence.
    + rewrite andb_false_r.
      apply bind_Ok in H as (u & r1 & Ha & H). apply assert_Ok in Ha as [-> _].
      apply bind_Ok in H as (p & r2 & Hp & H). apply new_sv_lookup in Hp as (Hp & _).
      unfold ret in H. simplify_eq. try rewrite Hp in Hloc. simplify_eq. simpl.
      destruct (is_T t T_FLOAT); split; discriminate.
  - simpl in H.
    apply bind_Ok in H as (t & r0 & Ht & H). pose proof (object_kind_type _ _ _ _ Ht) as Hk.
    apply Value_type_Ok in Ht. subst r0. rewrite Hk. simpl. rewrite andb_true_r.
    apply bind_Ok in H as (p & r2 & Hp & H). apply new_sv_lookup in Hp as (Hp & _).
    unfold ret in H. simplify_eq. try rewrite Hp in Hloc. simplify_eq. simpl.
    destruct t; simpl; split; intros Hx; vm_compute in Hx |- *; congruence.
  - simpl in H. exfalso.
    apply bind_Ok in H as (t & r0 & Ht & H). apply Value_type_Ok in Ht. subst r0.
    apply bind_Ok in H as (u & r1 & Hm & H).
    assert (Hnew : forall v q r2, new_sv v r1 = Ok (q, r2) -> (q, r2) = (first, r') ->
                   v <> LocationValue loc -> False).
    { intros v q r2 Hq Heq Hv. apply new_sv_lookup in Hq as (Hq & _).
      simplify_eq. }
    destruct (is_int_like t).
    { apply bind_Ok in H as (p & r2 & Hp & H). unfold ret in H.
      eapply Hnew; [exact Hp | congruence | discriminate]. }
    destruct (is_T t T_LONG || is_T t T_DOUBLE).
    { apply bind_Ok in H as (q & r2 & Hq & H).
      apply bind_Ok in H as (p & r3 & Hp & H). apply new_sv_lookup in Hp as (Hp & _).
      unfold ret in H. simplify_eq. }
    destruct (is_T t T_OBJECT).
    { apply bind_Ok in H as (p & r2 & Hp & H). unfold ret in H.
      eapply Hnew; [exact Hp | congruence | discriminate]. }
    destruct (is_T t T_ADDRESS); [|discriminate].
    apply bind_Ok in H as (p & r2 & Hp & H). unfold ret in H.
    eapply Hnew; [exact Hp | congruence | discriminate].
  - exfalso. destruct (heap !! address) as [vo|] eqn:Hvo.
    + destruct (find_object (sv_store r) (objects r) (vo_id vo)) as [obj|] eqn:Hfind.
      * simpl in H.
        apply bind_Ok in H as (t & r0 & Ht & H). apply Value_type_Ok in Ht. subst r0.
        rewrite Hvo in H. unfold bind, get in H. rewrite Hfind in H.
        unfold ret in H. simplify_eq.
        apply find_object_Some in Hfind. unfold ObjectValue_id in Hfind.
        rewrite Hloc in Hfind. discriminate.
      * destruct (virtual_object_translated _ _ _ _ _ _ _ _ _ _ _ Hvo Hfind H)
          as (klass & fields & Hobj & _).
        congruence.
    + simpl in H. apply bind_Ok in H as (t & r0 & Ht & H). rewrite Hvo in H. discriminate.
  - simpl in H. inv_ok.
  - simpl in H. inv_ok.
Qed.
End OopLocations.

Lemma X10_oop_locations_witness :
  location_type (Location.new_stk_loc Location.oop 8) = Location.oop <->
  object_kind (sample_config true) (StackSlot "a" 8 false)
  && in_cpu_register_or_stack (StackSlot "a" 8 false) = true.
Proof.
  apply (X10_oop_locations (sample_config true) [] 1 (StackSlot "a" 8 false) 24
           empty_recorder 0%nat None object_slot_translated).
  - vm_compute. reflexivity.
  - reflexivity.
Defined.

(** ** The scope recorder: object pools and the recorder protocol *)

Lemma pools_app e1 e2 : pools (e1 ++ e2) = pools e1 ++ pools e2.
Proof.
  induction e1 as [|e e1 IH]; [reflexivity|].
  destruct e; simpl; rewrite ?IH; reflexivity.
Qed.

Lemma pools_grow_snoc low ps high p :
  pools_grow low ps -> last (low :: ps) = Some high -> high `prefix_of` p ->
  pools_grow low (ps ++ [p]).
Proof.
  revert low. induction ps as [|q ps IH]; intros low Hg Hlast Hp; simpl in *.
  - simplify_eq. auto.
  - destruct Hg as [Hq Hg]. split; [exact Hq|]. apply IH; assumption.
Qed.

Section ObjectPools.
Context (cfg : VMConfig) (heap : JavaHeap) {code : Type} `{!NativeInst code}.

(** The recorder calls of [record_scope], frame by frame: a dump of the
    seen-objects array as it is after the frame's values, then the scope. *)
Lemma record_scope_shape fuel pc_offset frame (s s' : CodeInstaller code) :
  record_scope cfg heap fuel pc_offset frame s = Ok (tt, s') ->
  exists new,
    _debug_recorder s' = _debug_recorder s ++ new /\
    forallb (scope_event pc_offset) new = true /\
    length (pools new) = depth frame /\
    pools_grow (objects (_recorder s)) (pools new) /\
    last (objects (_recorder s) :: pools new) = Some (objects (_recorder s')).
Proof.
  revert s s'. induction frame as [frame IH] using frame_induction. intros s s'.
  rewrite record_scope_unfold. intros H.
  apply bind_Ok in H as (u & s1 & Hcaller & H).
  assert (Hc : exists new,
             _debug_recorder s1 = _debug_recorder s ++ new /\
             forallb (scope_event pc_offset) new = true /\
             length (pools new)
             = length (match caller frame with Some c => chain c | None => [] end) /\
             pools_grow (objects (_recorder s)) (pools new) /\
             last (objects (_recorder s) :: pools new) = Some (objects (_recorder s1))).
  { destruct (caller frame) as [c|] eqn:Ec.
    - destruct u. apply (IH c eq_refl) in Hcaller. exact Hcaller.
    - unfold ret in Hcaller. simplify_eq. exists []. rewrite app_nil_r. simpl. auto. }
  clear Hcaller. destruct Hc as (new & Hnew & Hev & Hlen & Hgrow & Hlast).
  apply bind_Ok in H as (u1 & s2 & Ha & H). apply assert_Ok in Ha as [-> _].
  apply bind_Ok in H as (tfs & s3 & Ht & H). unfold gets in Ht. simplify_eq.
  apply bind_Ok in H as (lists & s4 & Hv & H).
  apply on_recorder_Ok in Hv as (r' & Hv & ->).
  apply growing_record_values in Hv as [[_ _ Hobjs] _].
  apply bind_Ok in H as (objs & s5 & Ho & H). unfold gets in Ho. simplify_eq.
  apply bind_Ok in H as (u2 & s6 & Hd & H).
  unfold debug_event, modify in Hd, H. simplify_eq. simpl.
  eexists. split; [rewrite Hnew, <- !app_assoc; reflexivity|].
  rewrite forallb_app, pools_app, Hev. simpl. rewrite Z.eqb_refl. split; [reflexivity|].
  split; [|split].
  - rewrite length_app, Hlen. unfold depth. destruct frame; simpl. lia.
  - eapply pools_grow_snoc; eauto.
  - rewrite app_comm_cons. apply last_snoc.
Qed.

(** X11: the object pools dumped while the scopes of one suspension point
    are recorded.  There is one dump for each frame of the chain; each pool
    extends the pool dumped for the caller's frame, the first extends the
    seen-objects array the recording began with, and the pool dumped last, for
    the innermost frame, is the array as the recording leaves it: it holds the
    object values of every frame of the chain. *)
Theorem X11_object_pools_grow fuel pc_offset frame (s s' : CodeInstaller code) :
  record_scope cfg heap fuel pc_offset frame s = Ok (tt, s') ->
  exists new,
    _debug_recorder s' = _debug_recorder s ++ new /\
    length (pools new) = depth frame /\
    pools_grow (objects (_recorder s)) (pools new) /\
    last (pools new) = Some (objects (_recorder s')).
Proof.
  intros H. apply record_scope_shape in H as (new & Hnew & _ & Hlen & Hgrow & Hlast).
  exists new. split; [exact Hnew|]. split; [exact Hlen|]. split; [exact Hgrow|].
  destruct (pools new) as [|p ps]; [|exact Hlast].
  unfold depth in Hlen. destruct frame; discriminate.
Qed.
End ObjectPools.

Lemma X11_object_pools_grow_witness :
  exists new,
    _debug_recorder pools_recorded = _debug_recorder (sample_installer no_code) ++ new /\
    length (pools new) = depth inner_frame /\
    pools_grow (objects (_recorder (sample_installer no_code))) (pools new) /\
    last (pools new) = Some (objects (_recorder pools_recorded)).
Proof.
  apply (X11_object_pools_grow (sample_config true) two_object_heap 2 10 inner_frame
           (sample_installer no_code) pools_recorded).
  vm_compute. reflexivity.
Defined.

(** *** Fields that a computation leaves alone *)

#[local] Instance kept_preorder {S X} (f : S -> X) : PreOrder (kept f).
Proof.
  split.
  - intros s. reflexivity.
  - intros s1 s2 s3 H12 H23. unfold kept in *. congruence.
Qed.

Section Kept.
Context (cfg : VMConfig) (heap : JavaHeap) {code : Type} `{!NativeInst code}.
Context {X : Type} (f : CodeInstaller code -> X).

Lemma kept_on_recorder {A} (m : M Recorder A) :
  (forall r s, f (with_recorder r s) = f s) -> respects (kept f) (on_recorder m).
Proof. intros Hf s a s' H. apply on_recorder_Ok in H as (r' & _ & ->). apply Hf. Qed.

Lemma kept_debug_event e :
  (forall d s, f (with_debug_recorder d s) = f s) -> respects (kept f) (debug_event e).
Proof. intros Hf. apply respects_modify. intros s. apply Hf. Qed.

Lemma kept_record_scope fuel pc_offset frame :
  (forall r s, f (with_recorder r s) = f s) ->
  (forall d s, f (with_debug_recorder d s) = f s) ->
  respects (kept f) (record_scope cfg heap fuel pc_offset frame).
Proof.
  intros Hr Hd. apply respects_record_scope; [apply _ | |].
  - intros. apply kept_on_recorder, Hr.
  - intros. apply kept_debug_event, Hd.
Qed.
End Kept.

(** *** The recorder calls of a site *)

Lemma bracketed_app open a b :
  bracketed open a = true -> bracketed None b = true -> bracketed open (a ++ b) = true.
Proof.
  revert open. induction a as [|e a IH]; intros open Ha Hb; simpl in *.
  - destruct open; [discriminate | exact Hb].
  - destruct e; simpl in *.
    + apply andb_true_iff in Ha as [Ho Ha]. rewrite Ho. simpl. apply IH; assumption.
    + apply andb_true_iff in Ha as [Ho Ha]. rewrite Ho. simpl. apply IH; assumption.
    + destruct open; [|discriminate].
      apply andb_true_iff in Ha as [Ho Ha]. rewrite Ho. simpl. apply IH; assumption.
    + destruct open; [|discriminate].
      apply andb_true_iff in Ha as [Ho Ha]. rewrite Ho. simpl. apply IH; assumption.
Qed.

Lemma bracketed_scope_events pc body :
  forallb (scope_event pc) body = true ->
  bracketed (Some pc) (body ++ [end_safepoint pc]) = true.
Proof.
  induction body as [|e body IH]; simpl.
  - intros _. rewrite Z.eqb_refl. reflexivity.
  - intros H. apply andb_true_iff in H as [He H]. specialize (IH H).
    destruct e; simpl in *; try discriminate.
    + exact IH.
    + rewrite He. exact IH.
Qed.

Lemma site_events_bracketed new : site_events new -> bracketed None new = true.
Proof.
  intros [->|(pc & leaf & om & body & -> & Hbody)]; [reflexivity|].
  simpl. apply bracketed_scope_events, Hbody.
Qed.

Section SiteEvents.
Context (cfg : VMConfig) (heap : JavaHeap) {code : Type} `{!NativeInst code}.

(** Registering a suspension point at [pc] and recording its scopes. *)
Lemma safepoint_events fuel pc leaf rm fm frame (s s' : CodeInstaller code) :
  (let* tfs := gets _total_frame_size in
   let* pcount := gets _parameter_count in
   let* map := create_oop_map cfg tfs pcount rm fm in
   debug_event (add_safepoint pc leaf map) ;;
   new_objects ;;
   record_scope cfg heap fuel pc frame) s = Ok (tt, s') ->
  same_installation s s' /\
  exists oop_map body,
    _debug_recorder s' = _debug_recorder s ++ add_safepoint pc leaf oop_map :: body /\
    om_frame_size oop_map = _total_frame_size s /\
    forallb (scope_event pc) body = true /\
    described body = map (summary_of pc) (rev (chain frame)).
Proof.
  intros H.
  apply bind_Ok in H as (tfs & s1 & H1 & H). unfold gets in H1. injection H1 as <- <-.
  apply bind_Ok in H as (pcount & s2 & H2 & H). unfold gets in H2. injection H2 as <- <-.
  apply bind_Ok in H as (om & s3 & H3 & H). apply create_oop_map_Ok in H3 as [-> Hmap].
  apply bind_Ok in H as (u & s4 & H4 & H). unfold debug_event, modify in H4.
  injection H4 as _ <-.
  apply bind_Ok in H as (u' & s5 & H5 & H). unfold new_objects, modify in H5.
  injection H5 as _ <-.
  pose proof (record_scope_events _ _ _ _ _ _ _ H) as (Hsame & new & Hnew & Hdesc & _).
  apply record_scope_shape in H as (new' & Hnew' & Hev & _).
  rewrite Hnew in Hnew'. apply app_inv_head in Hnew'. subst new'. simpl in Hnew.
  split.
  - destruct Hsame as (? & ? & ? & ? & ? & ? & ?). repeat split; assumption.
  - exists om, new. split; [rewrite Hnew, <- app_assoc; reflexivity|]. auto.
Qed.

Lemma decode_call_value pc_offset target inst c (s : CodeInstaller code) next s' :
  decode_call cfg pc_offset target inst c s = Ok (next, s') ->
  next = return_offset cfg c inst pc_offset.
Proof.
  unfold decode_call, return_offset. intros H.
  destruct (is_call c inst || is_jump c inst); [inv_site; reflexivity|].
  destruct (is_mov_literal64 c inst); [inv_site; reflexivity|].
  destruct (is_call_reg c inst); inv_site. reflexivity.
Qed.
End SiteEvents.

Ltac kept_special :=
  first
    [ apply kept_on_recorder; reflexivity
    | apply kept_debug_event; reflexivity
    | apply kept_record_scope; reflexivity ].

Section SiteShapes.
Context (cfg : VMConfig) (heap : JavaHeap) {code : Type} `{!NativeInst code}.

Lemma site_Safepoint_events fuel pc_offset debug_info (s s' : CodeInstaller code) :
  site_Safepoint cfg heap fuel pc_offset debug_info s = Ok (tt, s') ->
  same_installation s s' /\
  exists info frame oop_map body,
    debug_info = Some info /\ bytecodePosition info = Some frame /\
    _debug_recorder s'
    = _debug_recorder s
      ++ add_safepoint pc_offset (-1) oop_map :: body ++ [end_safepoint pc_offset] /\
    om_frame_size oop_map = _total_frame_size s /\
    forallb (scope_event pc_offset) body = true /\
    described body = map (summary_of pc_offset) (rev (chain frame)).
Proof.
  intros H. unfold site_Safepoint in H.
  apply bind_Ok in H as (u & s1 & H1 & H). apply assert_Ok in H1 as [-> _].
  destruct debug_info as [info|]; [|discriminate].
  destruct (bytecodePosition info) as [frame|] eqn:Hframe.
  - apply bind_Ok in H as (tfs & s1 & H1 & H). unfold gets in H1. injection H1 as <- <-.
    apply bind_Ok in H as (pcount & s2 & H2 & H). unfold gets in H2. injection H2 as <- <-.
    apply bind_Ok in H as (om & s3 & H3 & H).
    apply bind_Ok in H as (u1 & s4 & H4 & H).
    apply bind_Ok in H as (u2 & s5 & H5 & H).
    apply bind_Ok in H as ([] & s6 & H6 & H).
    assert (Hblock : (let* tfs := gets _total_frame_size in
                      let* pcount := gets _parameter_count in
                      let* map := create_oop_map cfg tfs pcount (registerRefMap info)
                                    (frameRefMap info) in
                      debug_event (add_safepoint pc_offset (-1) map) ;;
                      new_objects ;;
                      record_scope cfg heap fuel pc_offset frame) s = Ok (tt, s6)).
    { unfold bind at 1 2. unfold gets at 1 2. unfold bind at 1. rewrite H3.
      unfold bind at 1. rewrite H4. unfold bind. rewrite H5. exact H6. }
    apply safepoint_events in Hblock as (Hsame & om' & body & Hnew & Hmap & Hev & Hdesc).
    unfold debug_event, modify in H. injection H as <-. split.
    + destruct Hsame as (? & ? & ? & ? & ? & ? & ?). repeat split; assumption.
    + exists info, frame, om', body. simpl. rewrite Hnew, <- app_assoc. auto 10.
  - apply bind_Ok in H as (tfs & s1 & H1 & H).
    apply bind_Ok in H as (pcount & s2 & H2 & H).
    apply bind_Ok in H as (om & s3 & H3 & H).
    apply bind_Ok in H as (u1 & s4 & H4 & H). discriminate.
Qed.

Lemma call_debug_info_events fuel next debug_info (s s' : CodeInstaller code) :
  call_debug_info cfg heap fuel next debug_info s = Ok (tt, s') ->
  same_installation s s' /\
  match debug_info with
  | None => s' = s
  | Some info =>
      exists frame oop_map body,
        bytecodePosition info = Some frame /\
        _debug_recorder s'
        = _debug_recorder s ++ add_safepoint next (leafGraphId frame) oop_map :: body /\
        om_frame_size oop_map = _total_frame_size s /\
        forallb (scope_event next) body = true /\
        described body = map (summary_of next) (rev (chain frame))
  end.
Proof.
  intros H. split; [eapply call_debug_info_Ok; eauto|].
  unfold call_debug_info in H. destruct debug_info as [info|].
  - destruct (bytecodePosition info) as [frame|] eqn:Hframe; [|discriminate].
    apply safepoint_events in H as (_ & om & body & H). exists frame, om, body. auto.
  - unfold ret in H. simplify_eq. reflexivity.
Qed.

(** A call site whose target is not installed code, step by step. *)
Lemma site_Call_unfold fuel pc_offset target debug_info :
  is_installed_code target = false ->
  site_Call (code := code) cfg heap fuel pc_offset target debug_info
  = (let* inst := instruction_address pc_offset in
     let* c := current_code in
     let* next_pc_offset := decode_call cfg pc_offset target inst c in
     call_debug_info cfg heap fuel next_pc_offset debug_info ;;
     patch_call cfg target debug_info c inst ;;
     modify (with_next_call_type (MARK_INVOKE_INVALID (marks cfg))) ;;
     match debug_info with
     | Some _ => debug_event (end_safepoint next_pc_offset)
     | None => ret tt
     end).
Proof. intros Htarget. destruct target; [reflexivity | discriminate | reflexivity]. Qed.

(** Patching the call changes the code buffer only. *)
Lemma patch_call_kept {X} (f : CodeInstaller code -> X) target
    (debug_info : option DebugInfo) (c : code) (inst : Z) :
  (forall b s, f (with_buffer b s) = f s) ->
  respects (kept f) (patch_call cfg target debug_info c inst).
Proof.
  intros Hf. unfold patch_call, patch, instructions_relocate.
  destruct target; repeat installer_step fail ltac:(apply Hf).
Qed.

(** The steps of a call site whose target is not installed code. *)
Lemma site_Call_steps fuel pc_offset target debug_info (s s' : CodeInstaller code) :
  is_installed_code target = false ->
  site_Call cfg heap fuel pc_offset target debug_info s = Ok (tt, s') ->
  let inst := insts_start (_buffer s) + pc_offset in
  let c := mem (_buffer s) in
  let next := return_offset cfg c inst pc_offset in
  exists s1 s2,
    call_debug_info cfg heap fuel next debug_info s = Ok (tt, s1) /\
    patch_call cfg target debug_info c inst s1 = Ok (tt, s2) /\
    s' = (if is_some debug_info
          then with_debug_recorder
                 (_debug_recorder s2 ++ [end_safepoint next])
                 (with_next_call_type (MARK_INVOKE_INVALID (marks cfg)) s2)
          else with_next_call_type (MARK_INVOKE_INVALID (marks cfg)) s2).
Proof.
  intros Htarget H inst c next. rewrite site_Call_unfold in H by exact Htarget.
  apply bind_Ok in H as (inst' & s1 & H1 & H).
  unfold instruction_address, gets in H1. injection H1 as <- <-.
  apply bind_Ok in H as (c' & s2 & H2 & H).
  unfold current_code, gets in H2. injection H2 as <- <-.
  apply bind_Ok in H as (next' & s3 & H3 & H).
  pose proof (decode_call_value _ _ _ _ _ _ _ _ H3) as ->.
  apply decode_call_Ok in H3. subst s3. fold inst c next in H.
  apply bind_Ok in H as ([] & s1 & Hdi & H).
  apply bind_Ok in H as ([] & s2 & Hmid & H).
  apply bind_Ok in H as (u3 & s3 & Hmod & H). unfold modify in Hmod.
  injection Hmod as _ <-.
  exists s1, s2. split; [exact Hdi|]. split; [exact Hmid|].
  destruct debug_info; simpl; unfold debug_event, modify, ret in H; simplify_eq;
    reflexivity.
Qed.

Lemma site_Call_events fuel pc_offset target debug_info (s s' : CodeInstaller code) :
  is_installed_code target = false ->
  site_Call cfg heap fuel pc_offset target debug_info s = Ok (tt, s') ->
  let next := return_offset cfg (mem (_buffer s)) (insts_start (_buffer s) + pc_offset)
                pc_offset in
  match debug_info with
  | None => _debug_recorder s' = _debug_recorder s
  | Some info =>
      exists frame oop_map body,
        bytecodePosition info = Some frame /\
        _debug_recorder s'
        = _debug_recorder s
          ++ add_safepoint next (leafGraphId frame) oop_map :: body ++ [end_safepoint next] /\
        om_frame_size oop_map = _total_frame_size s /\
        forallb (scope_event next) body = true /\
        described body = map (summary_of next) (rev (chain frame))
  end.
Proof.
  intros Htarget H next.
  apply site_Call_steps in H as (s1 & s2 & Hdi & Hpatch & ->); [|exact Htarget].
  apply call_debug_info_events in Hdi as [_ Hdi].
  apply (patch_call_kept _debug_recorder) in Hpatch as Hd; [|reflexivity].
  unfold kept in Hd.
  destruct debug_info as [info|]; simpl.
  - destruct Hdi as (frame & om & body & Hframe & Hnew & Hrest).
    exists frame, om, body. split; [exact Hframe|]. split; [|exact Hrest].
    rewrite Hd. fold next in Hnew. rewrite Hnew, <- app_assoc. reflexivity.
  - subst s1. exact Hd.
Qed.

(** X12: the debug information of a call is keyed by the return address.
    For a call site whose target is not installed code and that carries debug
    information, the installer registers one suspension point, at the offset
    of the instruction after the call (the call's offset plus the size of a
    call for a call or a jump, plus the size of the move and three bytes for a
    move followed by a call, plus the size that the instruction reports for a
    call through a register), with the leaf graph id of the innermost frame
    and an oop map made with the total frame size; the scopes of the chain are
    described at that offset, and the point is closed at it. *)
Theorem X12_call_debug_info_at_return_address fuel pc_offset target info
    (s s' : CodeInstaller code) :
  is_installed_code target = false ->
  site_Call cfg heap fuel pc_offset target (Some info) s = Ok (tt, s') ->
  let next := return_offset cfg (mem (_buffer s)) (insts_start (_buffer s) + pc_offset)
                pc_offset in
  exists frame oop_map body,
    bytecodePosition info = Some frame /\
    _debug_recorder s'
    = _debug_recorder s
      ++ add_safepoint next (leafGraphId frame) oop_map :: body ++ [end_safepoint next] /\
    om_frame_size oop_map = _total_frame_size s /\
    forallb (scope_event next) body = true /\
    described body = map (summary_of next) (rev (chain frame)).
Proof. intros Htarget H. apply (site_Call_events _ _ _ _ _ _ Htarget H). Qed.
End SiteShapes.

Lemma X12_call_debug_info_at_return_address_witness :
  exists frame oop_map body,
    bytecodePosition stack_info = Some frame /\
    _debug_recorder method_called
    = _debug_recorder (marked_invokestatic call_code)
      ++ add_safepoint 21 (leafGraphId frame) oop_map :: body ++ [end_safepoint 21] /\
    om_frame_size oop_map = _total_frame_size (marked_invokestatic call_code) /\
    forallb (scope_event 21) body = true /\
    described body = map (summary_of 21) (rev (chain frame)).
Proof.
  assert (Hrun : site_Call (sample_config true) [] 1 16 (JavaMethod true true)
                   (Some stack_info) (marked_invokestatic call_code)
                 = Ok (tt, method_called)) by (vm_compute; reflexivity).
  exact (X12_call_debug_info_at_return_address (sample_config true) [] 1 16
           (JavaMethod true true) stack_info (marked_invokestatic call_code) method_called
           eq_refl Hrun).
Defined.

Section Protocol.
Context (cfg : VMConfig) (heap : JavaHeap) {code : Type} `{!NativeInst code}.

Lemma site_Call_installed_kept {X} (f : CodeInstaller code -> X) fuel pc_offset entry
    debug_info :
  (forall b s, f (with_buffer b s) = f s) ->
  respects (kept f)
    (site_Call cfg heap fuel pc_offset (HotSpotInstalledCode entry) debug_info).
Proof.
  intros Hf. unfold site_Call. installer_unfold.
  repeat installer_step fail ltac:(apply Hf).
Qed.

Lemma site_DataPatch_kept {X} (f : CodeInstaller code -> X) pc_offset kind prim obj
    alignment inlined :
  (forall b s, f (with_buffer b s) = f s) ->
  (forall r s, f (with_recorder r s) = f s) ->
  respects (kept f) (site_DataPatch cfg pc_offset kind prim obj alignment inlined).
Proof.
  intros Hb Hr. installer_unfold.
  repeat installer_step ltac:(apply kept_on_recorder, Hr) ltac:(apply Hb).
Qed.

Lemma site_Mark_kept {X} (f : CodeInstaller code -> X) pc_offset id references :
  (forall b s, f (with_buffer b s) = f s) ->
  (forall v s, f (with_offsets v s) = f s) ->
  (forall v s, f (with_implicit_exception_table v s) = f s) ->
  (forall v s, f (with_next_call_type v s) = f s) ->
  (forall v s, f (with_invoke_mark_pc v s) = f s) ->
  respects (kept f) (site_Mark cfg pc_offset id references).
Proof.
  intros Hb Ho He Hn Hi. installer_unfold.
  repeat installer_step fail
    ltac:(first [apply Hb | apply Ho | apply He | apply Hn | apply Hi]).
Qed.

(** The recorder calls of any site. *)
Lemma dispatch_site_events fuel site (s s' : CodeInstaller code) :
  dispatch_site cfg heap fuel site s = Ok (tt, s') ->
  exists new, _debug_recorder s' = _debug_recorder s ++ new /\ site_events new.
Proof.
  intros H.
  assert (Hnone : _debug_recorder s' = _debug_recorder s ->
                  exists new, _debug_recorder s' = _debug_recorder s ++ new /\ site_events new).
  { intros ->. exists []. rewrite app_nil_r. split; [reflexivity | left; reflexivity]. }
  destruct site; simpl in H; try discriminate.
  - destruct target.
    + apply site_Call_events in H; [|reflexivity]. destruct debugInfo as [info|]; [|auto].
      destruct H as (frame & om & body & _ & Hnew & _ & Hev & _).
      eexists. split; [exact Hnew|]. right. eauto 10.
    + apply Hnone. revert H. apply (site_Call_installed_kept _debug_recorder). reflexivity.
    + apply site_Call_events in H; [|reflexivity]. destruct debugInfo as [info|]; [|auto].
      destruct H as (frame & om & body & _ & Hnew & _ & Hev & _).
      eexists. split; [exact Hnew|]. right. eauto 10.
  - apply site_Safepoint_events in H
      as (_ & info & frame & om & body & _ & _ & Hnew & _ & Hev & _).
    eexists. split; [exact Hnew|]. right. eauto 10.
  - apply Hnone. revert H. apply (site_DataPatch_kept _debug_recorder); reflexivity.
  - apply Hnone. revert H. apply (site_Mark_kept _debug_recorder); reflexivity.
Qed.

Lemma for_each_invariant {S A} (P : S -> Prop) (l : list A) (body : A -> M S unit) :
  (forall x s s', P s -> body x s = Ok (tt, s') -> P s') ->
  forall s s', P s -> for_each l body s = Ok (tt, s') -> P s'.
Proof.
  intros Hbody. induction l as [|x l IH]; intros s s' HP H; simpl in H.
  - unfold ret in H. simplify_eq. exact HP.
  - apply bind_Ok in H as ([] & s1 & Hx & H). eapply IH; [|exact H]. eapply Hbody; eauto.
Qed.

(** X13: an installation that returns has used the debug recorder by its
    protocol.  The calls it has made on the recorder are a sequence of
    suspension points, each opened by [add_safepoint], closed by
    [end_safepoint] at the same pc before the next is opened, with scopes
    described only inside a point and at its pc. *)
Theorem X13_debug_recorder_protocol fuel comp_result params insts_begin consts_begin
    (s0 s' : CodeInstaller code) :
  install cfg heap fuel comp_result params insts_begin consts_begin s0 = Ok (tt, s') ->
  bracketed None (_debug_recorder s') = true.
Proof.
  intros H. unfold install, initialize_buffer in H.
  apply bind_Ok in H as (u & s1 & _ & H).
  apply bind_Ok in H as (u1 & s2 & H1 & H). unfold modify in H1. injection H1 as _ <-.
  apply bind_Ok in H as (u2 & s3 & H2 & H). unfold modify in H2. injection H2 as _ <-.
  revert H. apply (for_each_invariant (fun s => bracketed None (_debug_recorder s) = true));
    [|reflexivity].
  intros site s s1' Hs Hsite.
  apply dispatch_site_events in Hsite as (new & -> & Hnew).
  apply bracketed_app; [exact Hs | apply site_events_bracketed, Hnew].
Qed.
End Protocol.

Lemma X13_debug_recorder_protocol_witness :
  bracketed None (_debug_recorder stack_installed) = true.
Proof.
  apply (X13_debug_recorder_protocol (sample_config true) [] 1 stack_result (Some 0)
           4096 8192 (sample_installer no_code) stack_installed).
  vm_compute. reflexivity.
Defined.

(** ** Constants patched in place *)

Section DataPatchInPlace.
Context (cfg : VMConfig) {code : Type} `{!NativeInst code}.

(** X14: an inlined constant of kind float, long or double is written into
    the instruction itself.  The 64 bits of the constant are stored at the
    immediate operand of the instruction at the site; no relocation is added,
    the constants section is not used, whatever alignment the site asks for,
    and nothing is recorded for the debug information. *)
Theorem X14_data_patch_inlined pc_offset typeChar primitive object alignment
    (s s' : CodeInstaller code) :
  existsb (Ascii.eqb typeChar) ["f"; "j"; "d"]%char = true ->
  site_DataPatch cfg pc_offset typeChar primitive object alignment true s = Ok (tt, s') ->
  let instruction := insts_start (_buffer s) + pc_offset in
  let c := mem (_buffer s) in
  mem (_buffer s') = store_jlong c (locate_operand c instruction imm_operand) primitive /\
  relocs (_buffer s') = relocs (_buffer s) /\
  consts_end (_buffer s') = consts_end (_buffer s) /\
  _debug_recorder s' = _debug_recorder s /\
  sv_store (_recorder s') = sv_store (_recorder s).
Proof.
  intros Hkind H instruction c. unfold site_DataPatch in H.
  apply bind_Ok in H as (inst & s1 & H1 & H).
  unfold instruction_address, gets in H1. injection H1 as <- <-.
  rewrite (out_of_line_kind _ Hkind), Hkind in H.
  apply bind_Ok in H as (u & s2 & H2 & H). apply on_recorder_Ok in H2 as (r' & Hmeta & ->).
  apply bind_Ok in H as (c' & s3 & H3 & H).
  unfold current_code, gets in H3. injection H3 as <- <-.
  unfold patch, modify in H. injection H as <-. simpl.
  repeat split; try reflexivity.
  unfold record_metadata_in_constant in Hmeta.
  destruct (Ascii.eqb typeChar "j"); [|unfold ret in Hmeta; simplify_eq; reflexivity].
  destruct object as [[klass|str|obj]|].
  - apply bind_Ok in Hmeta as (u1 & r1 & Ha & Hf). apply assert_Ok in Ha as [-> _].
    unfold find_index in Hf. destruct (bool_decide _); simplify_eq; reflexivity.
  - unfold ret in Hmeta. simplify_eq. reflexivity.
  - apply assert_Ok in Hmeta as [-> _]. reflexivity.
  - unfold ret in Hmeta. simplify_eq. reflexivity.
Qed.

(** X15: an object constant is always patched in place, in every build and
    whatever the site says of alignment and inlining.  The reference is
    stored at the immediate operand of the instruction and an oop relocation
    for that operand is added; the constants section, the translation state
    and the debug recorder are left alone. *)
Theorem X15_data_patch_object pc_offset primitive object alignment inlined
    (s : CodeInstaller code) :
  let instruction := insts_start (_buffer s) + pc_offset in
  let c := mem (_buffer s) in
  exists s',
    site_DataPatch cfg pc_offset "a" primitive object alignment inlined s = Ok (tt, s') /\
    mem (_buffer s') = store_jobject c (locate_operand c instruction imm_operand) object /\
    relocs (_buffer s')
    = relocs (_buffer s) ++ [relocate instruction oop_Relocation_immediate imm_operand] /\
    consts_end (_buffer s') = consts_end (_buffer s) /\
    _recorder s' = _recorder s /\
    _debug_recorder s' = _debug_recorder s.
Proof.
  intros instruction c. eexists. split.
  - unfold site_DataPatch, bind, instruction_address, current_code, gets, patch,
      instructions_relocate, modify. simpl. reflexivity.
  - simpl. repeat split.
Qed.

End DataPatchInPlace.

Lemma X14_data_patch_inlined_witness :
  let s := sample_installer no_code in
  let instruction := insts_start (_buffer s) + 16 in
  let c := mem (_buffer s) in
  mem (_buffer inlined_patched)
  = store_jlong c (locate_operand c instruction imm_operand) 123 /\
  relocs (_buffer inlined_patched) = relocs (_buffer s) /\
  consts_end (_buffer inlined_patched) = consts_end (_buffer s) /\
  _debug_recorder inlined_patched = _debug_recorder s /\
  sv_store (_recorder inlined_patched) = sv_store (_recorder s).
Proof.
  apply (X14_data_patch_inlined (sample_config true) 16 "j"%char 123 None 8
           (sample_installer no_code) inlined_patched).
  - reflexivity.
  - vm_compute. reflexivity.
Defined.

